(** * V3_Python_Project: a shallow embedding of the shop and its checked properties

    The development follows the Python sources module by module:
    - [PyStr]      the [str] methods the program calls (strip, split, lower, ...);
    - [PyRe]       the fragment of [re] that the two validation patterns use;
    - [validation] [validate_email], [validate_password]              (auth/validation.py);
    - [general]    the process-wide variables, [load_users], [save_users] (utils/general.py);
    - products     [load_products]                          (products/product_management.py);
    - cart         [add_to_cart] ... [checkout]                    (cart/cart_management.py);
    - auth         [generate_password], [sign_up_user]            (auth/authentication.py);
    - menus        [sign_in_user], the account functions and [fund_wallet], the
                   search, and the two menus that call the cart
                   (auth/authentication.py, user/account_management.py,
                    products/product_management.py).

    Python [int] is [Z]; Python [float] is the kernel's binary64 [float]; a
    Python [str] is a list of characters with code points below 256; a list of
    dicts is a list of records; a global that aliases an element of a list is an
    index into that list. *)

From Stdlib Require Import ZArith Ascii String Floats Lia List Bool DecimalString.
From stdpp Require Import base list strings.

Open Scope Z_scope.

(* ------------------------------------------------------------------------- *)
(** ** Python strings *)

Module PyStr.

Abbreviation pystr := (list ascii).

(** A string literal of the source. *)
Definition str (s : string) : pystr := list_ascii_of_string s.

Definition code (c : ascii) : N := N_of_ascii c.

(** [str.isspace] on one character: the code points 9-13, 28-32, 0x85, 0xA0. *)
Definition isspace (c : ascii) : bool :=
  let n := code c in
  ((9 <=? n) && (n <=? 13) || (28 <=? n) && (n <=? 32) || (n =? 133) || (n =? 160))%N.

Definition isupper_ascii (c : ascii) : bool := ((65 <=? code c) && (code c <=? 90))%N.
Definition islower_ascii (c : ascii) : bool := ((97 <=? code c) && (code c <=? 122))%N.
Definition isdigit_ascii (c : ascii) : bool := ((48 <=? code c) && (code c <=? 57))%N.

(** [str.lower] on one character: A-Z, and the Latin-1 capitals 0xC0-0xDE
    without the multiplication sign 0xD7, move up by 32. *)
Definition lower_char (c : ascii) : ascii :=
  let n := code c in
  if ((65 <=? n) && (n <=? 90) || (192 <=? n) && (n <=? 222) && negb (n =? 215))%N
  then ascii_of_N (n + 32) else c.

Definition lower (s : pystr) : pystr := map lower_char s.

(** [str.isalnum] on one character: letters, digits, and the Latin-1
    letters and numerics (0xAA, 0xB2, 0xB3, 0xB5, 0xB9, 0xBA, 0xBC-0xBE,
    0xC0-0xFF without 0xD7 and 0xF7). *)
Definition isalnum_char (c : ascii) : bool :=
  let n := code c in
  (isdigit_ascii c || isupper_ascii c || islower_ascii c
   || (n =? 170) || (n =? 178) || (n =? 179) || (n =? 181) || (n =? 185) || (n =? 186)
   || (188 <=? n) && (n <=? 190)
   || (192 <=? n) && negb (n =? 215) && negb (n =? 247))%N.

(** [s.isalnum()]: every character is alphanumeric and there is at least one. *)
Definition isalnum (s : pystr) : bool :=
  match s with
  | [] => false
  | _ => forallb isalnum_char s
  end.

Fixpoint lstrip (s : pystr) : pystr :=
  match s with
  | c :: s' => if isspace c then lstrip s' else s
  | [] => []
  end.

Definition rstrip (s : pystr) : pystr := rev (lstrip (rev s)).

(** [s.strip()] *)
Definition strip (s : pystr) : pystr := rstrip (lstrip s).

(** [s.split(sep)] for a one-character separator: never the empty list. *)
Fixpoint split (sep : ascii) (s : pystr) : list pystr :=
  match s with
  | [] => [[]]
  | c :: s' =>
      if Ascii.eqb c sep then [] :: split sep s'
      else match split sep s' with
           | w :: ws => (c :: w) :: ws
           | [] => [[c]]
           end
  end.

Fixpoint startswith (p s : pystr) : bool :=
  match p, s with
  | [], _ => true
  | a :: p', b :: s' => Ascii.eqb a b && startswith p' s'
  | _ :: _, [] => false
  end.

Definition endswith (p s : pystr) : bool := startswith (rev p) (rev s).

Definition eqb (a b : pystr) : bool := bool_decide (a = b).

(** Truth value of a string: [not s] is [is_empty s]. *)
Definition is_empty (s : pystr) : bool :=
  match s with [] => true | _ => false end.

Definition LF : ascii := ascii_of_N 10.
Definition CR : ascii := ascii_of_N 13.

(** Text-mode reading with universal newlines: CR LF and a lone CR both
    become LF. *)
Fixpoint universal_newlines (after_cr : bool) (s : pystr) : pystr :=
  match s with
  | [] => []
  | c :: s' =>
      if Ascii.eqb c CR then LF :: universal_newlines true s'
      else if Ascii.eqb c LF then
        (if after_cr then universal_newlines false s' else LF :: universal_newlines false s')
      else c :: universal_newlines false s'
  end.

(** The lines of a text, each without its terminating LF; a text that
    ends in LF has no further empty line. *)
Fixpoint lines (s : pystr) : list pystr :=
  match s with
  | [] => []
  | c :: s' =>
      if Ascii.eqb c LF then [] :: lines s'
      else match lines s' with
           | w :: ws => (c :: w) :: ws
           | [] => [[c]]
           end
  end.

(** [for line in f] over a file opened with mode 'r'. The terminator the
    file object leaves on each line is dropped; every caller strips the line
    first, and LF is whitespace. *)
Definition readlines (s : pystr) : list pystr := lines (universal_newlines false s).

End PyStr.

(* ------------------------------------------------------------------------- *)
(** ** The fragment of Python's [re] used by auth/validation.py *)

Module PyRe.
Import PyStr.

Inductive regex : Type :=
| Chr (c : ascii)                  (* a literal character, escaped or not *)
| Class (p : ascii -> bool)        (* a set [...] or a category such as \S *)
| Dot                              (* .  (no DOTALL): anything but LF *)
| Seq (r1 r2 : regex)              (* r1 r2 *)
| Star (r : regex)                 (* r*  greedy *)
| LazyStar (r : regex)             (* r*? *)
| Plus (r : regex)                 (* r+ *)
| AtLeast (n : nat) (r : regex)    (* r{n,} *)
| Lookahead (r : regex)            (* (?=r) *)
| Bol                              (* ^  (no MULTILINE) *)
| Eol.                             (* $  (no MULTILINE) *)

(** A position in the subject: how many characters lie behind, and the
    characters ahead. *)
Record cursor : Type := Cursor { pos : nat; ahead : pystr }.

Definition one (p : ascii -> bool) (i : cursor) : list cursor :=
  match ahead i with
  | c :: s => if p c then [Cursor (S (pos i)) s] else []
  | [] => []
  end.

(** Repetition of [step], zero or more times. The results come in the
    order in which a backtracking matcher tries them: the longest first when
    [greedy], the shortest first otherwise. An iteration that consumes nothing
    is not repeated; [fuel] bounds the iterations by the characters ahead. *)
Fixpoint loop (greedy : bool) (step : cursor -> list cursor) (fuel : nat) (i : cursor)
  : list cursor :=
  match fuel with
  | O => [i]
  | S fuel' =>
      let more :=
        flat_map (fun j => if (length (ahead j) <? length (ahead i))%nat
                           then loop greedy step fuel' j else [])
                 (step i) in
      if greedy then more ++ [i] else i :: more
  end.

Fixpoint times (n : nat) (step : cursor -> list cursor) (i : cursor) : list cursor :=
  match n with
  | O => [i]
  | S n' => flat_map (times n' step) (step i)
  end.

(** All the cursors at which a match of [r] that starts at [i] can end. *)
Fixpoint exec (r : regex) (i : cursor) : list cursor :=
  match r with
  | Chr c => one (Ascii.eqb c) i
  | Class p => one p i
  | Dot => one (fun c => negb (Ascii.eqb c LF)) i
  | Seq r1 r2 => flat_map (exec r2) (exec r1 i)
  | Star r' => loop true (exec r') (length (ahead i)) i
  | LazyStar r' => loop false (exec r') (length (ahead i)) i
  | Plus r' => flat_map (fun j => loop true (exec r') (length (ahead j)) j) (exec r' i)
  | AtLeast n r' =>
      flat_map (fun j => loop true (exec r') (length (ahead j)) j) (times n (exec r') i)
  | Lookahead r' => match exec r' i with [] => [] | _ :: _ => [i] end
  | Bol => if (pos i =? 0)%nat then [i] else []
  | Eol => match ahead i with
           | [] => [i]
           | [c] => if Ascii.eqb c LF then [i] else []
           | _ => []
           end
  end.

(** [re.match(pattern, s)] read as a truth value. *)
Definition re_match (r : regex) (s : pystr) : bool :=
  match exec r (Cursor 0 s) with
  | [] => false
  | _ :: _ => true
  end.

Definition in_set (cs : pystr) (c : ascii) : bool := existsb (Ascii.eqb c) cs.
Definition in_range (lo hi : ascii) (c : ascii) : bool :=
  ((code lo <=? code c) && (code c <=? code hi))%N.
(** \S *)
Definition not_space (c : ascii) : bool := negb (isspace c).

Fixpoint sequence (rs : list regex) (last : regex) : regex :=
  match rs with
  | [] => last
  | r :: rs' => Seq r (sequence rs' last)
  end.

End PyRe.

(* ------------------------------------------------------------------------- *)
(** ** auth/validation.py *)

Module validation.
Import PyStr PyRe.

(** r"^\S+@\S+\.\S+$" *)
Definition EMAIL_VALIDATE_PATTERN : regex :=
  sequence [Bol; Plus (Class not_space); Chr "@"; Plus (Class not_space); Chr ".";
       Plus (Class not_space)] Eol.

(** The set of the last lookahead: [#?!@$%^&*-] *)
Definition SPECIAL : pystr := str "#?!@$%^&*-".

(** r"^(?=.*?[A-Z])(?=.*?[a-z])(?=.*?[0-9])(?=.*?[#?!@$%^&*-]).{16,}$" *)
Definition PASSWORD_VALIDATE_PATTERN : regex :=
  sequence [Bol;
       Lookahead (Seq (LazyStar Dot) (Class (in_range "A" "Z")));
       Lookahead (Seq (LazyStar Dot) (Class (in_range "a" "z")));
       Lookahead (Seq (LazyStar Dot) (Class (in_range "0" "9")));
       Lookahead (Seq (LazyStar Dot) (Class (in_set SPECIAL)));
       AtLeast 16 Dot] Eol.

Definition validate_email (mail : pystr) : bool :=
  if re_match EMAIL_VALIDATE_PATTERN mail then true else false.

Definition validate_password (password : pystr) : bool :=
  if re_match PASSWORD_VALIDATE_PATTERN password then true else false.

End validation.

(* ------------------------------------------------------------------------- *)
(** ** Numbers *)

Module PyNum.

(** [float(n)] for an [int], as in the mixed product [price * quantity]:
    the nearest binary64 value, ties to even; [None] is the OverflowError
    "int too large to convert to float". *)
Definition float_of_int (n : Z) : option float :=
  match binary_normalize prec emax n 0 false with
  | S754_infinity _ => None
  | x => Some (SF2Prim x)
  end.

(** [x * n] for a float [x] and an int [n]. *)
Definition mul_int (x : float) (n : Z) : option float :=
  y ← float_of_int n; Some (PrimFloat.mul x y).

Definition zero : float := 0%float.

(** [x == 0], [x > y], [x < 0] on floats (an int 0 compares as 0.0). *)
Definition is_zero (x : float) : bool := PrimFloat.eqb x zero.
Definition gt (x y : float) : bool := PrimFloat.ltb y x.
Definition negative (x : float) : bool := PrimFloat.ltb x zero.

End PyNum.

(* ------------------------------------------------------------------------- *)
(** ** The records held in the global lists (string-keyed dicts in the source) *)

(** A user. Sign-up stores the int 0 as the balance; every use of a balance
    (comparison with the float total, subtraction of it, a deposit, the text
    written to the file and read back with [float]) takes that 0 as the number
    0.0, and so does the record. *)
Module User.
Record t : Type := Make
  { username : PyStr.pystr; email : PyStr.pystr; password_hash : PyStr.pystr;
    balance : float }.
Definition set_balance (b : float) (u : t) : t :=
  Make (username u) (email u) (password_hash u) b.
End User.

Module Product.
Record t : Type := Make { id : Z; name : PyStr.pystr; price : float; stock : Z }.
Definition set_stock (n : Z) (p : t) : t := Make (id p) (name p) (price p) n.
End Product.

Module CartItem.
Record t : Type := Make
  { product_id : Z; quantity : Z; name : PyStr.pystr; price : float }.
Definition set_quantity (n : Z) (c : t) : t := Make (product_id c) n (name c) (price c).
End CartItem.

(** utils/general.py: the process-wide variables. [current_user] is the
    same dict object as one element of [users], so it is kept as that
    element's index. *)
Record globals : Type := Globals
  { users : list User.t;
    current_user : option nat;
    cart : list CartItem.t;
    products : list Product.t }.

Definition set_users (us : list User.t) (g : globals) : globals :=
  Globals us (current_user g) (cart g) (products g).
Definition set_current_user (cu : option nat) (g : globals) : globals :=
  Globals (users g) cu (cart g) (products g).
Definition set_cart (c : list CartItem.t) (g : globals) : globals :=
  Globals (users g) (current_user g) c (products g).
Definition set_products (ps : list Product.t) (g : globals) : globals :=
  Globals (users g) (current_user g) (cart g) ps.

(** The data directory: data/accounts.txt when it exists, whether writing it
    goes through, what a write that does not go through leaves behind, and the
    directory listing with each file's text ([None] for a listed name that can
    no longer be opened).

    [open('data/accounts.txt', 'w')] empties the file before the first
    [write]. A write that raises therefore leaves one of two things, and [cut]
    says which: [None], [open] itself raises and the file is untouched;
    [Some n], the file was opened and emptied and n characters reach it before
    [write] or the closing of the file raises. *)
Record files : Type := Directory
  { accounts_txt : option PyStr.pystr;
    writable : bool;
    cut : option nat;
    listing : list (PyStr.pystr * option PyStr.pystr) }.

(** A directory in which a write that raises does so in [open]. *)
Definition Files (accounts_txt : option PyStr.pystr) (writable : bool)
  (listing : list (PyStr.pystr * option PyStr.pystr)) : files :=
  Directory accounts_txt writable None listing.

(** [None]: the write raised; [interrupted] is what it left behind. *)
Definition write_accounts (text : PyStr.pystr) (fs : files) : option files :=
  if writable fs then Some (Directory (Some text) true (cut fs) (listing fs)) else None.

Definition interrupted (text : PyStr.pystr) (fs : files) : files :=
  match cut fs with
  | None => fs
  | Some n => Directory (Some (take n text)) (writable fs) (cut fs) (listing fs)
  end.

(** What the functions print, as far as the properties below tell outcomes
    apart. *)
Inductive message : Type :=
| ProductNotFound | OutOfStock | AddedToCart
| InvalidItemNumber | QuantityMustBePositive | ProductNotInInventory
| OnlyAvailable (n : Z) | UpdatedQuantity
| CartAlreadyEmpty | CartCleared
| CartIsEmpty | InsufficientFunds | PurchaseSuccessful (transaction : Z)
| ErrorSavingTransaction | PurchaseCancelled
| UsernameEmpty | UsernameTooShort | UsernameNotAlnum | UsernameAlreadyExist
| EmailEmpty | EmailNotCorrect | EmailAlreadyExist
| YourPasswordIs (p : PyStr.pystr) | PasswordRequirementsNotMet | InvalidEntry
| AccountCreated.

(* ------------------------------------------------------------------------- *)
(** ** cart/cart_management.py: the operations that need no file *)

(** [for p in general.products: if p['id'] == pid: ... break]: the first
    entry with this id, and where it sits. *)
Definition find_product (pid : Z) (ps : list Product.t) : option (nat * Product.t) :=
  list_find (fun p => Product.id p = pid) ps.

(** [for item in general.cart: if item['product_id'] == pid: ... break] *)
Definition find_item (pid : Z) (c : list CartItem.t) : option (nat * CartItem.t) :=
  list_find (fun it => CartItem.product_id it = pid) c.

(** [p['stock'] += n] on the first product with this id, nothing without one. *)
Definition restock (pid n : Z) (ps : list Product.t) : list Product.t :=
  match find_product pid ps with
  | Some (k, p) => <[k := Product.set_stock (Product.stock p + n) p]> ps
  | None => ps
  end.

Definition add_to_cart (product : Product.t) (g : globals) : message * globals :=
  match find_product (Product.id product) (products g) with
  | None => (ProductNotFound, g)
  | Some (k, product_in_inventory) =>
      if Product.stock product_in_inventory <=? 0 then (OutOfStock, g)
      else
        let cart' :=
          match find_item (Product.id product) (cart g) with
          | Some (j, item) =>
              <[j := CartItem.set_quantity (CartItem.quantity item + 1) item]> (cart g)
          | None =>
              cart g ++ [CartItem.Make (Product.id product) 1 (Product.name product)
                                       (Product.price product)]
          end in
        let products' :=
          <[k := Product.set_stock (Product.stock product_in_inventory - 1)
                                   product_in_inventory]> (products g) in
        (AddedToCart, set_products products' (set_cart cart' g))
  end.

(** The total, or [None] when a quantity is too large for [float * int]
    (the OverflowError leaves [view_cart] as an exception). *)
Definition view_cart (g : globals) : option float :=
  match cart g with
  | [] => Some 0%float
  | _ =>
      foldl (fun acc item =>
               cart_total ← acc;
               product_cost ← PyNum.mul_int (CartItem.price item) (CartItem.quantity item);
               Some (PrimFloat.add cart_total product_cost))
            (Some 0%float) (cart g)
  end.

Definition update_cart_item (item_id quantity : Z) (g : globals) : bool * message * globals :=
  if (item_id <? 0) || (item_id >=? Z.of_nat (length (cart g))) then (false, InvalidItemNumber, g)
  else if quantity <=? 0 then (false, QuantityMustBePositive, g)
  else
    match cart g !! Z.to_nat item_id with
    | None => (false, InvalidItemNumber, g)  (* not reached: the index is inside the cart *)
    | Some item =>
        let product_id := CartItem.product_id item in
        let current_quantity := CartItem.quantity item in
        match find_product product_id (products g) with
        | None => (false, ProductNotInInventory, g)
        | Some (k, product) =>
            let quantity_diff := quantity - current_quantity in
            if (quantity_diff >? 0) && (Product.stock product <? quantity_diff)
            then (false, OnlyAvailable (Product.stock product), g)
            else
              let cart' := <[Z.to_nat item_id := CartItem.set_quantity quantity item]> (cart g) in
              let products' :=
                <[k := Product.set_stock (Product.stock product - quantity_diff) product]>
                  (products g) in
              (true, UpdatedQuantity, set_products products' (set_cart cart' g))
        end
    end.

Definition remove_from_cart (item_index : Z) (g : globals) : bool * globals :=
  if (item_index <? 0) || (item_index >=? Z.of_nat (length (cart g))) then (false, g)
  else
    match cart g !! Z.to_nat item_index with
    | None => (false, g)  (* not reached: the index is inside the cart *)
    | Some item =>
        let products' :=
          restock (CartItem.product_id item) (CartItem.quantity item) (products g) in
        (true, set_products products' (set_cart (delete (Z.to_nat item_index) (cart g)) g))
    end.

Definition clear_cart (g : globals) : message * globals :=
  match cart g with
  | [] => (CartAlreadyEmpty, g)
  | _ =>
      let products' :=
        foldl (fun ps item => restock (CartItem.product_id item) (CartItem.quantity item) ps)
              (products g) (cart g) in
      (CartCleared, set_products products' (set_cart [] g))
  end.

(* ------------------------------------------------------------------------- *)
(** ** The functions that read or write text, over the interpreter's built-ins *)

Section Runtime.
Import PyStr.

(** [float(s)] on a string: [None] is the ValueError. *)
Variable float_of_str : pystr -> option float.
(** The text an f-string gives for the number kept as a balance. *)
Variable format_number : float -> pystr.
(** [hashlib.sha256(s.encode()).hexdigest()] *)
Variable sha256_hexdigest : pystr -> pystr.

(** *** utils/general.py *)

(** One line of data/accounts.txt, as the body of the loop of [load_users]
    treats it: [None] stands for each [continue]. *)
Definition load_users_line (line : pystr) : option User.t :=
  let line := strip line in
  if is_empty line then None
  else
    match split "," line with
    | [username; email; password_hash; balance] =>
        if is_empty (strip username) || is_empty (strip email)
           || is_empty (strip password_hash)
        then None
        else
          match float_of_str (strip balance) with
          | None => None
          | Some balance_float =>
              if PyNum.negative balance_float then None
              else Some (User.Make (strip username) (strip email) (strip password_hash)
                                   balance_float)
          end
    | _ => None
    end.

(** The new value of [general.users]; a missing file leaves the list empty. *)
Definition load_users (fs : files) : list User.t :=
  match accounts_txt fs with
  | None => []
  | Some text => omap load_users_line (readlines text)
  end.

Definition save_users_line (user : User.t) : pystr :=
  User.username user ++ str "," ++ User.email user ++ str ","
    ++ User.password_hash user ++ str "," ++ format_number (User.balance user) ++ [LF].

(** The text [save_users] writes. *)
Definition save_users_text (us : list User.t) : pystr :=
  concat (map save_users_line us).

(** [None] when the file cannot be written (the exception passes to the
    caller). *)
Definition save_users (g : globals) (fs : files) : option files :=
  write_accounts (save_users_text (users g)) fs.

(** The directory after a [save_users] that raised. *)
Definition unsaved (g : globals) (fs : files) : files :=
  interrupted (save_users_text (users g)) fs.

(** *** products/product_management.py *)

(** One "name:price" item: [None] is the ValueError of the unpacking or
    of [float]. *)
Definition load_products_item (item : pystr) : option (pystr * float) :=
  match split ":" item with
  | [name; price] =>
      price_float ← float_of_str (strip price); Some (strip name, price_float)
  | _ => None
  end.

(** The items of one warehouse file, appended with consecutive ids. *)
Fixpoint load_products_items (items : list pystr) (product_id : Z) (acc : list Product.t)
  : list Product.t * Z :=
  match items with
  | [] => (acc, product_id)
  | item :: items' =>
      if is_empty item then load_products_items items' product_id acc
      else
        match load_products_item item with
        | Some (name, price) =>
            load_products_items items' (product_id + 1)
              (acc ++ [Product.Make product_id name price 10])
        | None => load_products_items items' product_id acc
        end
  end.

Fixpoint load_products_files (contents : list (option pystr)) (product_id : Z)
  (acc : list Product.t) : list Product.t :=
  match contents with
  | [] => acc
  | None :: rest => load_products_files rest product_id acc
  | Some text :: rest =>
      let content := strip (universal_newlines false text) in
      if is_empty content then load_products_files rest product_id acc
      else
        let '(acc', product_id') :=
          load_products_items (split ";" content) product_id acc in
        load_products_files rest product_id' acc'
  end.

(** The new value of [general.products]. *)
Definition load_products (fs : files) : list Product.t :=
  let warehouse_files :=
    filter (fun f => startswith (str "warehouse") (fst f) && endswith (str ".txt") (fst f) = true)
           (listing fs) in
  load_products_files (map snd warehouse_files) 1 [].

(** *** cart/cart_management.py: checkout *)

(** [confirm] is the line typed at the prompt, [now] is [int(time.time())].
    [None]: an exception leaves the function ([view_cart] overflowed, or there
    is no current user). *)
Definition checkout (confirm : pystr) (now : Z) (g : globals) (fs : files)
  : option (message * globals * files) :=
  total ← view_cart g;
  if PyNum.is_zero total then Some (CartIsEmpty, g, fs)
  else
    k ← current_user g;
    user ← users g !! k;
    if PyNum.gt total (User.balance user) then Some (InsufficientFunds, g, fs)
    else
      let confirm := lower (strip confirm) in
      if eqb confirm (str "y") then
        let g1 :=
          set_users (<[k := User.set_balance (PrimFloat.sub (User.balance user) total) user]>
                       (users g)) g in
        match save_users g1 fs with
        | Some fs' => Some (PurchaseSuccessful now, set_cart [] g1, fs')
        | None => Some (ErrorSavingTransaction, g1, unsaved g1 fs)
        end
      else Some (PurchaseCancelled, g, fs).

(** *** auth/authentication.py *)

Definition digits : pystr := str "0123456789".
Definition ascii_lowercase : pystr := str "abcdefghijklmnopqrstuvwxyz".
Definition ascii_uppercase : pystr := str "ABCDEFGHIJKLMNOPQRSTUVWXYZ".
(** string.punctuation: the 32 characters from ! to ~ that are neither
    letters nor digits; the second one is the double quote (code 34). *)
Definition punctuation : pystr :=
  str "!" ++ [ascii_of_N 34] ++ str "#$%&'()*+,-./:;<=>?@[\]^_`{|}~".

(** [random.choice(seq)] when the generator's next value is [r]. *)
Definition choice (seq : pystr) (r : nat) : ascii :=
  nth (r mod length seq) seq "000"%char.

(** [x[i], x[j] = x[j], x[i]] *)
Definition swap (i j : nat) (x : pystr) : pystr :=
  match x !! i, x !! j with
  | Some a, Some b => <[i := b]> (<[j := a]> x)
  | _, _ => x
  end.

(** [random.shuffle]: for i from len(x) - 1 down to 1, swap x[i] with
    x[j] for a random j <= i; [draw i] is the generator's value at step i. *)
Fixpoint shuffle_from (i : nat) (draw : nat -> nat) (x : pystr) : pystr :=
  match i with
  | O => x
  | S i' => shuffle_from i' draw (swap i (draw i mod S i) x)
  end.

Definition shuffle (draw : nat -> nat) (x : pystr) : pystr :=
  shuffle_from (length x - 1) draw x.

(** [rng n] is the n-th value the random generator yields during the
    call: sixteen choices, then the shuffle. *)
Definition generate_password (rng : nat -> nat) : pystr :=
  let numbers_pass_chars := digits in
  let lower_pass_chars := ascii_lowercase in
  let upper_pass_chars := ascii_uppercase in
  let sym_pass_chars := punctuation in
  let password :=
    [choice numbers_pass_chars (rng 0%nat); choice lower_pass_chars (rng 1%nat);
     choice upper_pass_chars (rng 2%nat); choice sym_pass_chars (rng 3%nat)] in
  let all_pass_chars :=
    numbers_pass_chars ++ lower_pass_chars ++ upper_pass_chars ++ take 1 sym_pass_chars in
  let password :=
    password ++ map (fun k => choice all_pass_chars (rng (4 + k)%nat)) (seq 0 12) in
  shuffle (fun i => rng (16 + i)%nat) password.

Definition hash_password (password : pystr) : pystr := sha256_hexdigest password.

(** The three prompt loops of [sign_up_user]. Each [input()] takes the
    next line of [inputs]; [None] is the EOFError when none is left. The
    messages printed so far are threaded through. *)
Fixpoint sign_up_username (us : list User.t) (inputs : list pystr) (out : list message)
  : option (pystr * list pystr * list message) :=
  match inputs with
  | [] => None
  | line :: inputs' =>
      let user_reg_username := strip line in
      if is_empty user_reg_username then sign_up_username us inputs' (out ++ [UsernameEmpty])
      else if (length user_reg_username <? 2)%nat
      then sign_up_username us inputs' (out ++ [UsernameTooShort])
      else if negb (isalnum user_reg_username)
      then sign_up_username us inputs' (out ++ [UsernameNotAlnum])
      else
        (* for user in general.users: if ...: print(...); continue
           The continue belongs to this for loop; after the loop comes break. *)
        let printed :=
          flat_map (fun user => if eqb (User.username user) user_reg_username
                                then [UsernameAlreadyExist] else []) us in
        Some (user_reg_username, inputs', out ++ printed)
  end.

Fixpoint sign_up_email (us : list User.t) (inputs : list pystr) (out : list message)
  : option (pystr * list pystr * list message) :=
  match inputs with
  | [] => None
  | line :: inputs' =>
      let user_reg_email := lower (strip line) in
      if is_empty user_reg_email then sign_up_email us inputs' (out ++ [EmailEmpty])
      else if negb (validation.validate_email user_reg_email)
      then sign_up_email us inputs' (out ++ [EmailNotCorrect])
      else
        let email_exists := existsb (fun user => eqb (User.email user) user_reg_email) us in
        if email_exists then sign_up_email us inputs' (out ++ [EmailAlreadyExist])
        else Some (user_reg_email, inputs', out)
  end.

Fixpoint sign_up_password (rng : nat -> nat) (inputs : list pystr) (out : list message)
  : option (pystr * list pystr * list message) :=
  match inputs with
  | [] => None
  | line :: inputs' =>
      let password_choice := strip (lower line) in
      if eqb password_choice (str "y") || eqb password_choice (str "yes") then
        let user_reg_password := generate_password rng in
        Some (user_reg_password, inputs', out ++ [YourPasswordIs user_reg_password])
      else if eqb password_choice (str "n") || eqb password_choice (str "no") then
        match inputs' with
        | [] => None
        | line' :: inputs'' =>
            let user_pass := strip line' in
            if negb (validation.validate_password user_pass)
            then sign_up_password rng inputs'' (out ++ [PasswordRequirementsNotMet])
            else Some (user_pass, inputs'', out)
        end
      else sign_up_password rng inputs' (out ++ [InvalidEntry])
  end.

(** [None]: the input ended, or [save_users] raised. *)
Definition sign_up_user (rng : nat -> nat) (inputs : list pystr) (g : globals) (fs : files)
  : option (bool * list message * globals * files) :=
  '(user_reg_username, inputs, out) ← sign_up_username (users g) inputs [];
  '(user_reg_email, inputs, out) ← sign_up_email (users g) inputs out;
  '(user_reg_password, _, out) ← sign_up_password rng inputs out;
  let new_user :=
    User.Make user_reg_username user_reg_email (hash_password user_reg_password) 0%float in
  let g := set_users (users g ++ [new_user]) g in
  fs ← save_users g fs;
  let g := set_current_user (Some (length (users g) - 1)%nat) g in
  Some (true, out ++ [AccountCreated], g, fs).

End Runtime.

(* ------------------------------------------------------------------------- *)
(** ** The menus: sign-in, the account, the wallet, the search

    These are the functions around the ones above: they read what the user
    types, line by line, and call them. *)

(** [s.split()]: the maximal runs of characters that are not whitespace;
    [word] holds the run that is being read. *)
Fixpoint split_whitespace_from (word s : PyStr.pystr) : list PyStr.pystr :=
  match s with
  | [] => if PyStr.is_empty word then [] else [word]
  | c :: s' =>
      if PyStr.isspace c
      then (if PyStr.is_empty word then split_whitespace_from [] s'
            else word :: split_whitespace_from [] s')
      else split_whitespace_from (word ++ [c]) s'
  end.

Definition split_whitespace (s : PyStr.pystr) : list PyStr.pystr := split_whitespace_from [] s.

(** [a in b] on two strings. *)
Fixpoint contains (a b : PyStr.pystr) : bool :=
  PyStr.startswith a b
  || match b with
     | [] => false
     | _ :: b' => contains a b'
     end.

Definition set_username (name : PyStr.pystr) (u : User.t) : User.t :=
  User.Make name (User.email u) (User.password_hash u) (User.balance u).
Definition set_email (mail : PyStr.pystr) (u : User.t) : User.t :=
  User.Make (User.username u) mail (User.password_hash u) (User.balance u).
Definition set_password_hash (h : PyStr.pystr) (u : User.t) : User.t :=
  User.Make (User.username u) (User.email u) h (User.balance u).

(** [general.current_user] as the dict it is: [None] when nobody is signed
    in, and every subscript of it is then a TypeError. *)
Definition current_record (g : globals) : option (nat * User.t) :=
  k ← current_user g; user ← users g !! k; Some (k, user).

(** [general.current_user[key] = value] *)
Definition set_current (f : User.t -> User.t) (g : globals) : option globals :=
  '(k, user) ← current_record g; Some (set_users (<[k := f user]> (users g)) g).

Inductive sign_in_message : Type :=
| LoginSuccessful
| InvalidPassword (stored_hash input_hash : PyStr.pystr)
| IdentityNotFound.

Inductive account_message : Type :=
| PasswordCannotBeEmpty | IncorrectPassword
| NewUsernameEmpty | NewUsernameTooShort | NewUsernameNotAlnum | UsernameAlreadyTaken
| UsernameUpdated | ErrorSavingUsername
| NewEmailNotCorrect | NewEmailAlreadyExist | EmailUpdated | ErrorSavingEmail
| NewPasswordRequirementsNotMet | PasswordsDoNotMatch | SameAsCurrentPassword
| PasswordChanged | ErrorSavingPassword | PasswordChangeCancelled
| SignificantBalance | BalanceResetCancelled | BalanceReset | ErrorSavingBalanceReset
| AmountMustBePositive | MaximumFundingAmount | InvalidAmount | InvalidFundChoice
| PaymentSuccessful (amount : float).

Section Menus.
Import PyStr.

Variable float_of_str : pystr -> option float.
Variable format_number : float -> pystr.
Variable sha256_hexdigest : pystr -> pystr.
(** [int(s)] on a string: [None] is the ValueError. *)
Variable int_of_str : pystr -> option Z.

(** *** auth/authentication.py: sign_in_user *)

(** The two lines typed are the identity and the password. The loop stops
    at the first user whose username or email is the identity, whatever the
    password. *)
Definition sign_in_user (inputs : list pystr) (g : globals)
  : option (bool * sign_in_message * globals) :=
  match inputs with
  | line :: line' :: _ =>
      let user_log_identity := strip line in
      let user_log_pass := strip line' in
      let hashed_input := hash_password sha256_hexdigest user_log_pass in
      match list_find (fun user => User.username user = user_log_identity
                                   \/ User.email user = user_log_identity) (users g) with
      | Some (k, user) =>
          if eqb (User.password_hash user) hashed_input
          then Some (true, LoginSuccessful, set_current_user (Some k) g)
          else Some (false, InvalidPassword (User.password_hash user) hashed_input, g)
      | None => Some (false, IdentityNotFound, g)
      end
  | _ => None
  end.

(** *** user/account_management.py *)

(** [verify_current_password] after its [input()] has returned [line]. *)
Definition check_password (line : pystr) (g : globals) : option (bool * list account_message) :=
  let password := strip line in
  if is_empty password then Some (false, [PasswordCannotBeEmpty])
  else
    '(_, user) ← current_record g;
    Some (eqb (hash_password sha256_hexdigest password) (User.password_hash user), []).

Definition verify_current_password (inputs : list pystr) (g : globals)
  : option (bool * list pystr * list account_message) :=
  match inputs with
  | [] => None
  | line :: inputs' => '(verified, out) ← check_password line g; Some (verified, inputs', out)
  end.

(** [try: general.current_user[key] = value; general.save_users(); print(done)
     except Exception: print(failed)]: what was assigned stays assigned when
    the file cannot be written. *)
Definition try_update (f : User.t -> User.t) (done failed : account_message)
  (out : list account_message) (g : globals) (fs : files)
  : list account_message * globals * files :=
  match set_current f g with
  | None => (out ++ [failed], g, fs)
  | Some g1 =>
      match save_users format_number g1 fs with
      | Some fs' => (out ++ [done], g1, fs')
      | None => (out ++ [failed], g1, unsaved format_number g1 fs)
      end
  end.

(** Every round of the loop asks for the password again. *)
Fixpoint change_username (inputs : list pystr) (out : list account_message) (g : globals)
  (fs : files) : option (list account_message * globals * files) :=
  match inputs with
  | [] => None
  | line :: inputs' =>
      check_password line g ≫= fun '(verified, printed) =>
      let out := out ++ printed in
      if negb verified then Some (out ++ [IncorrectPassword], g, fs)
      else
        match inputs' with
        | [] => None
        | line' :: inputs'' =>
            let new_username := strip line' in
            if is_empty new_username
            then change_username inputs'' (out ++ [NewUsernameEmpty]) g fs
            else if (length new_username <? 2)%nat
            then change_username inputs'' (out ++ [NewUsernameTooShort]) g fs
            else if negb (isalnum new_username)
            then change_username inputs'' (out ++ [NewUsernameNotAlnum]) g fs
            else
              (* for user in general.users: if ...: print(...); continue
                 The continue belongs to this for loop; after the loop comes break. *)
              let printed :=
                flat_map (fun user => if eqb (User.username user) new_username
                                      then [UsernameAlreadyTaken] else []) (users g) in
              Some (try_update (set_username new_username) UsernameUpdated ErrorSavingUsername
                               (out ++ printed) g fs)
        end
  end.

Fixpoint change_email_prompt (us : list User.t) (inputs : list pystr)
  (out : list account_message) : option (pystr * list pystr * list account_message) :=
  match inputs with
  | [] => None
  | line :: inputs' =>
      let new_email := lower (strip line) in
      if negb (validation.validate_email new_email)
      then change_email_prompt us inputs' (out ++ [NewEmailNotCorrect])
      else
        let email_exists := existsb (fun user => eqb (User.email user) new_email) us in
        if email_exists then change_email_prompt us inputs' (out ++ [NewEmailAlreadyExist])
        else Some (new_email, inputs', out)
  end.

Definition change_email (inputs : list pystr) (g : globals) (fs : files)
  : option (list account_message * globals * files) :=
  '(verified, inputs, out) ← verify_current_password inputs g;
  if negb verified then Some (out ++ [IncorrectPassword], g, fs)
  else
    '(new_email, _, out) ← change_email_prompt (users g) inputs out;
    Some (try_update (set_email new_email) EmailUpdated ErrorSavingEmail out g fs).

Fixpoint change_password_prompt (current_hash : pystr) (inputs : list pystr)
  (out : list account_message) : option (pystr * list pystr * list account_message) :=
  match inputs with
  | [] => None
  | line :: inputs' =>
      let new_password := strip line in
      if negb (validation.validate_password new_password)
      then change_password_prompt current_hash inputs' (out ++ [NewPasswordRequirementsNotMet])
      else
        match inputs' with
        | [] => None
        | line' :: inputs'' =>
            let confirm_password := strip line' in
            if negb (eqb new_password confirm_password)
            then change_password_prompt current_hash inputs'' (out ++ [PasswordsDoNotMatch])
            else if eqb (hash_password sha256_hexdigest new_password) current_hash
            then change_password_prompt current_hash inputs'' (out ++ [SameAsCurrentPassword])
            else Some (new_password, inputs'', out)
        end
  end.

Definition change_password (inputs : list pystr) (g : globals) (fs : files)
  : option (list account_message * globals * files) :=
  '(verified, inputs, out) ← verify_current_password inputs g;
  if negb verified then Some (out ++ [IncorrectPassword], g, fs)
  else
    '(_, user) ← current_record g;
    '(new_password, inputs, out) ← change_password_prompt (User.password_hash user) inputs out;
    match inputs with
    | [] => None
    | line :: _ =>
        let confirm := lower (strip line) in
        if eqb confirm (str "y")
        then Some (try_update (set_password_hash (hash_password sha256_hexdigest new_password))
                              PasswordChanged ErrorSavingPassword out g fs)
        else Some (out ++ [PasswordChangeCancelled], g, fs)
    end.

(** The assignment of 0.0 stands before the [try]; only [save_users] is
    inside it. *)
Definition reset_balance (inputs : list pystr) (g : globals) (fs : files)
  : option (list account_message * globals * files) :=
  '(verified, inputs, out) ← verify_current_password inputs g;
  if negb verified then Some (out ++ [IncorrectPassword], g, fs)
  else
    '(_, user) ← current_record g;
    match inputs with
    | [] => None
    | line :: inputs =>
        let confirm := lower (strip line) in
        if eqb confirm (str "y") then
          let reset (out : list account_message) :=
            g1 ← set_current (User.set_balance 0%float) g;
            match save_users format_number g1 fs with
            | Some fs' => Some (out ++ [BalanceReset], g1, fs')
            | None =>
                Some (out ++ [ErrorSavingBalanceReset], g1, unsaved format_number g1 fs)
            end in
          if PyNum.gt (User.balance user) 50000%float then
            match inputs with
            | [] => None
            | line' :: _ =>
                let confirm_again := strip line' in
                if negb (eqb confirm_again (str "RESET"))
                then Some (out ++ [SignificantBalance; BalanceResetCancelled], g, fs)
                else reset (out ++ [SignificantBalance])
            end
          else reset out
        else Some (out ++ [BalanceResetCancelled], g, fs)
    end.

(** The dict [options]: the four amounts, and [None] for "Custom Amount". *)
Definition options (key : pystr) : option (option float) :=
  if eqb key (str "1") then Some (Some 10000%float)
  else if eqb key (str "2") then Some (Some 20000%float)
  else if eqb key (str "3") then Some (Some 50000%float)
  else if eqb key (str "4") then Some (Some 100000%float)
  else if eqb key (str "5") then Some None
  else None.

(** [general.current_user['balance'] += amount; general.save_users()],
    outside any [try]. *)
Definition pay (amount : float) (out : list account_message) (g : globals) (fs : files)
  : option (list account_message * globals * files) :=
  g1 ← set_current
         (fun user => User.set_balance (PrimFloat.add (User.balance user) amount) user) g;
  fs' ← save_users format_number g1 fs;
  Some (out ++ [PaymentSuccessful amount], g1, fs').

Fixpoint fund_wallet_prompt (inputs : list pystr) (out : list account_message) (g : globals)
  (fs : files) : option (list account_message * globals * files) :=
  match inputs with
  | [] => None
  | line :: inputs' =>
      let fund_choice := strip line in
      match options fund_choice with
      | Some None =>
          match inputs' with
          | [] => None
          | line' :: inputs'' =>
              match float_of_str line' with
              | Some amount =>
                  if PrimFloat.leb amount 0
                  then fund_wallet_prompt inputs'' (out ++ [AmountMustBePositive]) g fs
                  else if PyNum.gt amount 100000000
                  then fund_wallet_prompt inputs'' (out ++ [MaximumFundingAmount]) g fs
                  else pay amount out g fs
              | None => fund_wallet_prompt inputs'' (out ++ [InvalidAmount]) g fs
              end
          end
      | Some (Some amount) => pay amount out g fs
      | None => fund_wallet_prompt inputs' (out ++ [InvalidFundChoice]) g fs
      end
  end.

(** The balance is printed before the first prompt. *)
Definition fund_wallet (inputs : list pystr) (g : globals) (fs : files)
  : option (list account_message * globals * files) :=
  '(_, _) ← current_record g; fund_wallet_prompt inputs [] g fs.

(** *** products/product_management.py: the search *)

(** [search_products] after its [input()] has returned [line]. A result is
    the dict of [general.products] itself, so it is kept as its index there;
    a product is appended once for every term that occurs in its name. *)
Definition search (line : pystr) (g : globals) : list nat :=
  let query := strip line in
  if is_empty query then []
  else
    let search_terms := split_whitespace query in
    flat_map (fun '(k, product) =>
                flat_map (fun term => if contains (lower term) (lower (Product.name product))
                                      then [k] else []) search_terms)
             (imap pair (products g)).

Definition search_products (inputs : list pystr) (g : globals) : option (list nat * list pystr) :=
  match inputs with
  | [] => None
  | line :: inputs' => Some (search line g, inputs')
  end.

(** [results[selection]]: the product the index refers to, as it is now. *)
Definition result (results : list nat) (selection : Z) (g : globals) : option Product.t :=
  k ← results !! Z.to_nat selection; products g !! k.

Fixpoint handle_search_results (results : list nat) (inputs : list pystr) (g : globals)
  : option (globals * list pystr) :=
  match inputs with
  | [] => None
  | line :: inputs' =>
      let choice := strip line in
      if eqb choice (str "1") then
        match inputs' with
        | [] => None
        | line' :: inputs'' =>
            match int_of_str line' with
            | Some n =>
                let selection := n - 1 in
                if (0 <=? selection) && (selection <? Z.of_nat (length results)) then
                  result results selection g ≫= fun product =>
                  if Product.stock product <=? 0
                  then handle_search_results results inputs'' g
                  else handle_search_results results inputs'' (add_to_cart product g).2
                else handle_search_results results inputs'' g
            | None => handle_search_results results inputs'' g
            end
        end
      else if eqb choice (str "2") then
        match inputs' with
        | [] => None
        | line' :: inputs'' => handle_search_results (search line' g) inputs'' g
        end
      else if eqb choice (str "3") then Some (g, inputs')
      else handle_search_results results inputs' g
  end.

(** *** user/account_management.py: the cart menu *)

Fixpoint handle_cart_management (inputs : list pystr) (g : globals)
  : option (globals * list pystr) :=
  view_cart g ≫= fun total =>
  if bool_decide (cart g = []) then Some (g, inputs)
  else if PyNum.is_zero total then Some (g, inputs)
  else
    match inputs with
    | [] => None
    | line :: inputs' =>
        let user_choice := strip line in
        if eqb user_choice (str "1") then
          match inputs' with
          | [] => None
          | line1 :: inputs1 =>
              match int_of_str line1 with
              | None => handle_cart_management inputs1 g
              | Some n =>
                  let item_id := n - 1 in
                  match inputs1 with
                  | [] => None
                  | line2 :: inputs2 =>
                      match int_of_str line2 with
                      | None => handle_cart_management inputs2 g
                      | Some new_quantity =>
                          handle_cart_management inputs2 (update_cart_item item_id new_quantity g).2
                      end
                  end
              end
          end
        else if eqb user_choice (str "2") then
          match inputs' with
          | [] => None
          | line1 :: inputs1 =>
              match int_of_str line1 with
              | None => handle_cart_management inputs1 g
              | Some n => handle_cart_management inputs1 (remove_from_cart (n - 1) g).2
              end
          end
        else if eqb user_choice (str "3") then
          match inputs' with
          | [] => None
          | line1 :: inputs1 =>
              let confirm := lower line1 in
              if eqb confirm (str "y") then Some ((clear_cart g).2, inputs1)
              else handle_cart_management inputs1 g
          end
        else if eqb user_choice (str "4") then Some (g, inputs')
        else handle_cart_management inputs' g
    end.

End Menus.

(* ------------------------------------------------------------------------- *)
(** ** A reference runtime for the worked examples

    The theorems below hold for every [float_of_str], [format_number] and
    [sha256_hexdigest]. The examples need concrete ones: decimal literals of at
    most 15 digits, on which [float] and an f-string are exact. *)

Module Reference.
Import PyStr.

Definition digits_value (s : pystr) : option Z :=
  match s with
  | [] => None
  | _ => d ← NilZero.uint_of_string (string_of_list_ascii s); Some (Z.of_N (N.of_uint d))
  end.

(** [float(s)] for "123" and "123.45" with optional blanks around; every
    other text is refused. *)
Definition float_of_str (s : pystr) : option float :=
  let s := strip s in
  if (15 <? length s)%nat then None
  else
    match split "." s with
    | [whole] => n ← digits_value whole; PyNum.float_of_int n
    | [whole; frac] =>
        n ← digits_value whole;
        m ← digits_value frac;
        let scale := 10 ^ Z.of_nat (length frac) in
        num ← PyNum.float_of_int (n * scale + m);
        den ← PyNum.float_of_int scale;
        Some (PrimFloat.div num den)
    | _ => None
    end.

(** The value of a float that is a whole number below 10^15. *)
Definition whole_value (x : float) : option Z :=
  match Prim2SF x with
  | S754_zero false => Some 0
  | S754_finite false m e =>
      let v := if 0 <=? e then Z.pos m * 2 ^ e else Z.pos m / 2 ^ (- e) in
      if (if 0 <=? e then true else Z.pos m mod 2 ^ (- e) =? 0) && (v <? 10 ^ 15)
      then Some v else None
  | _ => None
  end.

(** f"{x}" for such a float: "100.0"; "nan" stands for every other text. *)
Definition format_number (x : float) : pystr :=
  match whole_value x with
  | Some v => str (NilZero.string_of_uint (N.to_uint (Z.to_N v))) ++ str ".0"
  | None => str "nan"
  end.

(** A stand-in for the SHA-256 digest: no example looks inside it. *)
Definition sha256_hexdigest (s : pystr) : pystr := str "sha256:" ++ s.

End Reference.

(* ------------------------------------------------------------------------- *)
(** ** Vocabulary of the properties *)

Import PyStr PyRe validation.

(** *** Cart and inventory *)

(** The units of product [pid] that the cart holds. *)
Fixpoint cart_quantity (pid : Z) (c : list CartItem.t) : Z :=
  match c with
  | [] => 0
  | item :: c' =>
      (if decide (CartItem.product_id item = pid) then CartItem.quantity item else 0)
      + cart_quantity pid c'
  end.

(** The stock of the product that an id refers to. *)
Definition stock_of (pid : Z) (ps : list Product.t) : option Z :=
  match find_product pid ps with
  | Some (_, p) => Some (Product.stock p)
  | None => None
  end.

(** One call of the cart interface. *)
Inductive cart_call : Type :=
| AddToCart (product : Product.t)
| RemoveFromCart (item_index : Z)
| UpdateCartItem (item_id quantity : Z)
| ClearCart.

Definition call (c : cart_call) (g : globals) : globals :=
  match c with
  | AddToCart product => (add_to_cart product g).2
  | RemoveFromCart i => (remove_from_cart i g).2
  | UpdateCartItem i q => (update_cart_item i q g).2
  | ClearCart => (clear_cart g).2
  end.

(** The state after a sequence of calls, the first call first. *)
Definition run (calls : list cart_call) (g : globals) : globals :=
  foldl (fun g c => call c g) g calls.

(** A session on the inventory that [load_products] has just built: any
    users, anybody signed in, nothing in the cart yet. *)
Definition fresh_session (float_of_str : pystr -> option float) (fs : files)
  (us : list User.t) (cu : option nat) : globals :=
  Globals us cu [] (load_products float_of_str fs).

(** Conservation: every product keeps its id, and its stock plus the units
    of it in the cart is the stock it had in [initial]. *)
Definition conserved (initial : list Product.t) (g : globals) : Prop :=
  Forall2 (fun p0 p =>
             Product.id p = Product.id p0
             /\ Product.stock p + cart_quantity (Product.id p) (cart g) = Product.stock p0)
          initial (products g).

(** No two products of the inventory share an id. *)
Definition well_keyed (g : globals) : Prop := NoDup (map Product.id (products g)).

(** What a load appends: consecutive ids from [n] on, ten units each. *)
Definition fresh_from (n : Z) (new : list Product.t) : Prop :=
  map Product.id new = seqZ n (Z.of_nat (length new))
  /\ Forall (fun p => Product.stock p = 10) new.

(** *** Regular expressions *)

(** [i] reaches [j] by reading the word [w], all of whose characters satisfy [p]. *)
Definition reads (p : ascii -> bool) (w : pystr) (i j : cursor) : Prop :=
  ahead i = w ++ ahead j /\ pos j = (pos i + length w)%nat /\ Forall (fun c => p c = true) w.

Definition dot (c : ascii) : bool := negb (Ascii.eqb c LF).
Definition no_space (w : pystr) : Prop := Forall (fun c => isspace c = false) w.
Definition one_line (w : pystr) : Prop := Forall (fun c => c <> LF) w.
Definition has (p : ascii -> bool) (w : pystr) : Prop := Exists (fun c => p c = true) w.

Definition is_upper : ascii -> bool := in_range "A" "Z".
Definition is_lower : ascii -> bool := in_range "a" "z".
Definition is_digit : ascii -> bool := in_range "0" "9".
Definition is_special : ascii -> bool := in_set SPECIAL.

(** The shape check in the words of the specification: some character that
    is not a blank, an at sign between two such characters, and a full stop
    between two such characters. *)
Definition claimed_email_shape (s : pystr) : Prop :=
  (exists c, c ∈ s /\ isspace c = false)
  /\ (exists l x y r, s = l ++ [x; "@"%char; y] ++ r /\ isspace x = false /\ isspace y = false)
  /\ (exists l x y r, s = l ++ [x; "."%char; y] ++ r /\ isspace x = false /\ isspace y = false).

(** *** The password generator *)

(** The sixteen characters before the shuffle. *)
Definition drawn (rng : nat -> nat) : pystr :=
  [choice digits (rng 0%nat); choice ascii_lowercase (rng 1%nat);
   choice ascii_uppercase (rng 2%nat); choice punctuation (rng 3%nat)]
  ++ map (fun k => choice (digits ++ ascii_lowercase ++ ascii_uppercase ++ take 1 punctuation)
                          (rng (4 + k)%nat)) (seq 0 12).

Definition alphabet : pystr := digits ++ ascii_lowercase ++ ascii_uppercase ++ punctuation.


(** *** The accounts file *)

(** A field that is written and read back unchanged: not empty, no blank
    at either end, no comma, no line break. *)
Definition plain (c : ascii) : Prop := c <> ","%char /\ c <> LF /\ c <> CR.
Definition clean (s : pystr) : Prop := s <> [] /\ strip s = s /\ Forall plain s.

(** A record whose four fields are clean as written, and whose balance is
    not negative and is read back from its text. *)
Definition stored_exactly (float_of_str : pystr -> option float)
  (format_number : float -> pystr) (u : User.t) : Prop :=
  clean (User.username u) /\ clean (User.email u) /\ clean (User.password_hash u)
  /\ clean (format_number (User.balance u))
  /\ float_of_str (format_number (User.balance u)) = Some (User.balance u)
  /\ PyNum.negative (User.balance u) = false.

(** The line of a record without its line feed. *)
Definition record_text (format_number : float -> pystr) (u : User.t) : pystr :=
  User.username u ++ str "," ++ User.email u ++ str ","
    ++ User.password_hash u ++ str "," ++ format_number (User.balance u).

(** A valid record in the words of the specification: the three texts are
    not empty after trimming and hold no comma and no line break, the balance
    is a number that is at least 0. *)
Definition valid_as_claimed (u : User.t) : Prop :=
  strip (User.username u) <> [] /\ strip (User.email u) <> []
  /\ strip (User.password_hash u) <> []
  /\ Forall plain (User.username u) /\ Forall plain (User.email u)
  /\ Forall plain (User.password_hash u)
  /\ PrimFloat.leb 0 (User.balance u) = true.

(** *** Worked examples *)

Definition bob : User.t := User.Make (str "bob") (str "bob@shop.ng") (str "5e88") 100.
Definition padded_bob : User.t := User.Make (str " bob") (str "bob@shop.ng") (str "5e88") 100.
Definition apple : Product.t := Product.Make 1 (str "Apple") 50 9.
Definition apple_line : CartItem.t := CartItem.Make 1 1 (str "Apple") 50.
Definition ghost_line : CartItem.t := CartItem.Make 7 2 (str "Ghost") 5.

(** bob is signed in, one apple is in his cart, nine are left. *)
Definition demo_session : globals := Globals [bob] (Some 0%nat) [apple_line] [apple].
(** A cart line whose product is not in the inventory. *)
Definition ghost_session : globals := Globals [bob] (Some 0%nat) [ghost_line] [apple].
(** The sign-up screen of a shop in which bob has an account. *)
Definition signed_out : globals := Globals [bob] None [] [apple].

Definition data_dir : files := Files None true [].
Definition read_only_dir : files := Files None false [].

(** *** The states a session reaches *)

(** A state as the calls leave it: no stock below 0, every cart line holds
    at least one unit and names a product of the inventory, no two lines name
    the same product. *)
Definition tidy (g : globals) : Prop :=
  Forall (fun p => 0 <= Product.stock p) (products g)
  /\ Forall (fun it => 1 <= CartItem.quantity it
                       /\ CartItem.product_id it ∈ map Product.id (products g)) (cart g)
  /\ NoDup (map CartItem.product_id (cart g)).

(** The state that a granted update leaves. *)
Definition updated (item_id q : Z) (item : CartItem.t) (k : nat) (p : Product.t) (g : globals)
  : globals :=
  Globals (users g) (current_user g)
    (<[Z.to_nat item_id := CartItem.set_quantity q item]> (cart g))
    (<[k := Product.set_stock (Product.stock p - (q - CartItem.quantity item)) p]> (products g)).

(** *** Accounts *)


(** What an update of the signed-in user's record can lead to: the record
    at its place in [users]; the accounts file holding all the users, or, when
    the write raised, the file untouched or cut to the first characters of that
    text. *)
Definition updated_user (format_number : float -> pystr) (f : User.t -> User.t)
  (k : nat) (user : User.t) (g g' : globals) (fs fs' : files) : Prop :=
  current_record g = Some (k, user)
  /\ g' = set_users (<[k := f user]> (users g)) g
  /\ listing fs' = listing fs
  /\ (accounts_txt fs' = Some (save_users_text format_number (users g'))
      \/ writable fs = false
         /\ (fs' = fs
             \/ exists n, cut fs = Some n
                          /\ accounts_txt fs'
                             = Some (take n (save_users_text format_number (users g'))))).

(** *** The inventory and the search *)

(** No product name has a blank at either end. *)
Definition trimmed_names (ps : list Product.t) : Prop :=
  Forall (fun p => strip (Product.name p) = Product.name p) ps.

(** The places a product takes in the results: one for every term that
    occurs in its name. *)
Definition hits (terms : list pystr) (k : nat) (product : Product.t) : list nat :=
  flat_map (fun term => if contains (lower term) (lower (Product.name product))
                        then [k] else []) terms.

(** *** Further worked examples *)

(** [int(s)] for decimal digits with optional blanks around; every other
    text is refused. *)
Definition int_of_decimal (s : pystr) : option Z := Reference.digits_value (strip s).

Definition ada_password : pystr := str "Correct#Horse7Battery".
Definition ada : User.t :=
  User.Make (str "ada") (str "ada@shop.ng") (Reference.sha256_hexdigest ada_password) 60000.
(** ada is signed in next to bob's account; her cart is empty. *)
Definition ada_session : globals := Globals [bob; ada] (Some 1%nat) [] [apple].
(** One warehouse file with two products. *)
Definition shelf : files :=
  Files None true [(str "warehouse.txt", Some (str "Apple:100;Banana:50"))].
(** An accounts file with bob's line. *)
Definition ledger : files := Files (Some (str "bob,bob@shop.ng,5e88,100" ++ [LF])) true [].

(** A run of the random generator in which every value is 0. *)
Definition zeros (n : nat) : nat := 0%nat.

(* ========================================================================= *)
(** * Properties *)

(* ------------------------------------------------------------------------- *)
(** ** The cart and the inventory *)

Create HintDb cart discriminated.

(** The two bounds tests that open [update_cart_item] and [remove_from_cart]. *)
Ltac index_test i g :=
  destruct (Z.ltb_spec i 0);
  [|destruct (Z.geb_spec i (Z.of_nat (length (cart g))))]; simpl.

Lemma find_product_Some pid ps k p :
  find_product pid ps = Some (k, p) -> ps !! k = Some p /\ Product.id p = pid.
Proof. unfold find_product. intros H. apply list_find_Some in H. tauto. Qed.

Lemma find_product_None pid ps :
  find_product pid ps = None -> Forall (fun p => Product.id p <> pid) ps.
Proof. unfold find_product. intros H. by apply list_find_None in H. Qed.

Lemma stock_of_Some pid ps n :
  stock_of pid ps = Some n <->
  exists k p, find_product pid ps = Some (k, p) /\ Product.stock p = n.
Proof.
  unfold stock_of. destruct (find_product pid ps) as [[k p]|]; split.
  - intros [= <-]. eauto.
  - intros (? & ? & [= <- <-] & <-). done.
  - done.
  - by intros (? & ? & ? & _).
Qed.

Lemma stock_of_None pid ps : stock_of pid ps = None <-> find_product pid ps = None.
Proof. unfold stock_of. by destruct (find_product pid ps) as [[k p]|]. Qed.

Lemma find_product_insert pid ps k p n :
  find_product pid ps = Some (k, p) ->
  find_product pid (<[k := Product.set_stock n p]> ps) = Some (k, Product.set_stock n p).
Proof.
  unfold find_product. intros (Hk & Hid & Hfirst)%list_find_Some.
  apply list_find_Some. split; [|split; [done|]].
  - apply list_lookup_insert_eq. by eapply lookup_lt_Some.
  - intros j y Hj Hlt. rewrite list_lookup_insert_ne in Hj by lia. by eapply Hfirst.
Qed.

Lemma find_product_insert_other q pid ps k p n :
  ps !! k = Some p -> Product.id p = pid -> q <> pid ->
  find_product q (<[k := Product.set_stock n p]> ps) = find_product q ps.
Proof.
  intros Hk Hid Hq. unfold find_product.
  destruct (list_find _ ps) as [[j x]|] eqn:E.
  - apply list_find_Some in E as (Hj & Hx & Hfirst). apply list_find_Some.
    assert (j <> k) by (intros ->; simplify_eq).
    split; [by rewrite list_lookup_insert_ne|]. split; [done|].
    intros i y Hi Hlt. destruct (decide (i = k)) as [->|].
    + rewrite list_lookup_insert_eq in Hi by (by eapply lookup_lt_Some).
      simplify_eq/=. congruence.
    + rewrite list_lookup_insert_ne in Hi by done. by eapply Hfirst.
  - apply list_find_None. apply list_find_None in E.
    apply Forall_lookup. intros i y Hi. destruct (decide (i = k)) as [->|].
    + rewrite list_lookup_insert_eq in Hi by (by eapply lookup_lt_Some).
      simplify_eq/=. congruence.
    + rewrite list_lookup_insert_ne in Hi by done.
      by eapply (proj1 (Forall_lookup _ _) E).
Qed.

Lemma insert_set_stock_ids k p n ps :
  ps !! k = Some p ->
  map Product.id (<[k := Product.set_stock n p]> ps) = map Product.id ps.
Proof.
  intros Hk. apply list_eq. intros i. rewrite !list_lookup_fmap.
  destruct (decide (i = k)) as [->|Hne].
  - rewrite list_lookup_insert_eq by (by eapply lookup_lt_Some). by rewrite Hk.
  - by rewrite list_lookup_insert_ne.
Qed.

Lemma restock_found pid n ps k p :
  find_product pid ps = Some (k, p) ->
  restock pid n ps = <[k := Product.set_stock (Product.stock p + n) p]> ps.
Proof. unfold restock. by intros ->. Qed.

Lemma restock_ids pid n ps : map Product.id (restock pid n ps) = map Product.id ps.
Proof.
  unfold restock. destruct (find_product pid ps) as [[k p]|] eqn:E; [|done].
  apply find_product_Some in E as [Hk _]. by apply insert_set_stock_ids.
Qed.

Lemma foldl_restock_ids c ps :
  map Product.id
    (foldl (fun ps item => restock (CartItem.product_id item) (CartItem.quantity item) ps) ps c)
  = map Product.id ps.
Proof.
  revert ps. induction c as [|it c IH]; intros ps; simpl; [done|].
  by rewrite IH, restock_ids.
Qed.

(** No call changes the ids of the inventory. *)
Lemma call_ids c g : map Product.id (products (call c g)) = map Product.id (products g).
Proof.
  destruct c as [product|i|i q|]; simpl.
  - unfold add_to_cart.
    destruct (find_product _ _) as [[k p]|] eqn:E; [|done].
    destruct (_ <=? 0); [done|]. simpl.
    apply find_product_Some in E as [Hk _]. by apply insert_set_stock_ids.
  - unfold remove_from_cart. destruct (_ || _); [done|].
    destruct (cart g !! _); [|done]. simpl. apply restock_ids.
  - unfold update_cart_item. destruct (_ || _); [done|].
    destruct (_ <=? 0); [done|].
    destruct (cart g !! _); [|done].
    destruct (find_product _ _) as [[k p]|] eqn:E; [|done].
    destruct (_ && _); [done|]. simpl.
    apply find_product_Some in E as [Hk _]. by apply insert_set_stock_ids.
  - unfold clear_cart. destruct (cart g) eqn:E; [done|]. rewrite <- E. simpl.
    apply foldl_restock_ids.
Qed.

(** *** Counting the units in the cart *)

Lemma cart_quantity_app q c1 c2 :
  cart_quantity q (c1 ++ c2) = cart_quantity q c1 + cart_quantity q c2.
Proof. induction c1 as [|it c1 IH]; simpl; [done|]. rewrite IH. lia. Qed.

Lemma cart_quantity_insert q c j it n :
  c !! j = Some it ->
  cart_quantity q (<[j := CartItem.set_quantity n it]> c)
  = cart_quantity q c
    - (if decide (q = CartItem.product_id it) then CartItem.quantity it - n else 0).
Proof.
  revert j. induction c as [|x c IH]; intros [|j] H; simplify_eq/=.
  - repeat case_decide; simplify_eq; lia.
  - rewrite (IH _ H). lia.
Qed.

Lemma cart_quantity_delete q c j it :
  c !! j = Some it ->
  cart_quantity q (delete j c)
  = cart_quantity q c
    - (if decide (q = CartItem.product_id it) then CartItem.quantity it else 0).
Proof.
  revert j. induction c as [|x c IH]; intros [|j] H; simplify_eq/=.
  - repeat case_decide; simplify_eq; lia.
  - rewrite (IH _ H). lia.
Qed.

(** *** Conservation, one call at a time *)

(** Taking [d] units of product [pid] out of the cart and putting them on
    the stock of the first product with that id keeps every balance, when ids
    are not shared. Without such a product the units belong to no balance. *)
Lemma conserved_transfer initial g c' pid d :
  well_keyed g ->
  (forall q, cart_quantity q c'
             = cart_quantity q (cart g) - (if decide (q = pid) then d else 0)) ->
  conserved initial g ->
  conserved initial (set_products (restock pid d (products g)) (set_cart c' g)).
Proof.
  intros Hnd Hq Hc. unfold conserved, well_keyed in *. simpl.
  apply Forall2_same_length_lookup. apply Forall2_same_length_lookup in Hc as [Hlen Hc].
  split.
  { rewrite Hlen, <- (length_map Product.id (restock _ _ _)), restock_ids.
    by rewrite length_map. }
  intros i p0 p' Hp0 Hp'.
  unfold restock in Hp'.
  destruct (find_product pid (products g)) as [[k p]|] eqn:E.
  - pose proof E as [Hk Hid]%find_product_Some.
    destruct (decide (i = k)) as [->|Hne].
    + rewrite list_lookup_insert_eq in Hp' by (by eapply lookup_lt_Some).
      injection Hp' as <-. simpl.
      destruct (Hc _ _ _ Hp0 Hk) as [Hi Hs]. split; [done|].
      rewrite Hid in *. rewrite Hq. destruct (decide (pid = pid)); [lia|done].
    + rewrite list_lookup_insert_ne in Hp' by done.
      destruct (Hc _ _ _ Hp0 Hp') as [Hi Hs]. split; [done|].
      rewrite Hq. destruct (decide (Product.id p' = pid)) as [Heq|]; [|lia].
      exfalso. apply Hne. eapply NoDup_lookup; [exact Hnd| |].
      * rewrite list_lookup_fmap, Hp'. reflexivity.
      * rewrite list_lookup_fmap, Hk. simpl. congruence.
  - destruct (Hc _ _ _ Hp0 Hp') as [Hi Hs]. split; [done|].
    rewrite Hq. destruct (decide (Product.id p' = pid)) as [Heq|]; [|lia].
    apply find_product_None in E. rewrite Forall_lookup in E. by apply E in Hp'.
Qed.

Lemma add_to_cart_conserved initial product g :
  well_keyed g -> conserved initial g -> conserved initial (add_to_cart product g).2.
Proof.
  intros Hnd Hc. unfold add_to_cart.
  destruct (find_product _ _) as [[k p]|] eqn:E; [|done].
  destruct (_ <=? 0); [done|]. simpl.
  replace (Product.stock p - 1) with (Product.stock p + (-1)) by lia.
  rewrite <- (restock_found _ _ _ _ _ E).
  apply (conserved_transfer initial g _ (Product.id product) (-1)); [done| |done].
  intros q. destruct (find_item _ _) as [[j it]|] eqn:F.
  - apply list_find_Some in F as (Hj & Hid & _).
    rewrite (cart_quantity_insert _ _ _ _ _ Hj), Hid.
    case_decide; lia.
  - rewrite cart_quantity_app. simpl.
    repeat case_decide; simplify_eq; lia.
Qed.

Lemma remove_from_cart_conserved initial i g :
  well_keyed g -> conserved initial g -> conserved initial (remove_from_cart i g).2.
Proof.
  intros Hnd Hc. unfold remove_from_cart.
  destruct (_ || _); [done|].
  destruct (cart g !! _) as [it|] eqn:Hit; [|done]. simpl.
  apply (conserved_transfer initial g); [done| |done].
  intros q. by apply cart_quantity_delete.
Qed.

Lemma update_cart_item_conserved initial i n g :
  well_keyed g -> conserved initial g -> conserved initial (update_cart_item i n g).2.
Proof.
  intros Hnd Hc. unfold update_cart_item.
  destruct (_ || _); [done|].
  destruct (_ <=? 0); [done|].
  destruct (cart g !! _) as [it|] eqn:Hit; [|done].
  destruct (find_product _ _) as [[k p]|] eqn:E; [|done].
  destruct (_ && _); [done|]. simpl.
  replace (Product.stock p - (n - CartItem.quantity it))
    with (Product.stock p + (CartItem.quantity it - n)) by lia.
  rewrite <- (restock_found _ _ _ _ _ E).
  apply (conserved_transfer initial g); [done| |done].
  intros q. by apply cart_quantity_insert.
Qed.

Lemma foldl_restock_conserved initial us cu c ps :
  NoDup (map Product.id ps) ->
  conserved initial (Globals us cu c ps) ->
  conserved initial
    (Globals us cu []
       (foldl (fun ps item => restock (CartItem.product_id item) (CartItem.quantity item) ps)
              ps c)).
Proof.
  revert ps. induction c as [|it c IH]; intros ps Hnd Hc; simpl; [done|].
  apply IH; [by rewrite restock_ids|].
  apply (conserved_transfer initial (Globals us cu (it :: c) ps) c); [done| |done].
  intros q. simpl. repeat case_decide; simplify_eq; lia.
Qed.

Lemma clear_cart_conserved initial g :
  well_keyed g -> conserved initial g -> conserved initial (clear_cart g).2.
Proof.
  intros Hnd Hc. unfold clear_cart.
  destruct (cart g) eqn:E; [done|]. rewrite <- E. simpl.
  destruct g as [us cu c ps]. by apply foldl_restock_conserved.
Qed.

#[export] Hint Resolve add_to_cart_conserved remove_from_cart_conserved
  update_cart_item_conserved clear_cart_conserved : cart.

Lemma call_conserved initial c g :
  well_keyed g -> conserved initial g -> conserved initial (call c g).
Proof. destruct c; simpl; auto with cart. Qed.

Lemma run_conserved initial calls g :
  well_keyed g -> conserved initial g -> conserved initial (run calls g).
Proof.
  revert g. induction calls as [|c calls IH]; intros g Hnd Hc; simpl; [done|].
  apply IH; [|by apply call_conserved].
  unfold well_keyed. by rewrite call_ids.
Qed.

Lemma conserved_start us cu ps : conserved ps (Globals us cu [] ps).
Proof.
  unfold conserved. simpl. apply Forall2_same_length_lookup. split; [done|].
  intros i x y Hx Hy. simplify_eq. split; [done|lia].
Qed.

(** *** The inventory that [load_products] builds *)

Section Inventory.
Variable float_of_str : pystr -> option float.

Lemma fresh_from_app n new p :
  fresh_from n new -> Product.id p = n + Z.of_nat (length new) -> Product.stock p = 10 ->
  fresh_from n (new ++ [p]).
Proof.
  intros [Hids Hst] Hid Hp. split.
  - rewrite map_app, length_app, Hids. simpl.
    replace (Z.of_nat (length new + 1)) with (Z.of_nat (length new) + 1) by lia.
    rewrite seqZ_app by lia. simpl. by rewrite Hid.
  - apply Forall_app. split; [done|]. by constructor.
Qed.

Lemma load_products_items_fresh items n0 acc id :
  fresh_from n0 acc -> id = n0 + Z.of_nat (length acc) ->
  let r := load_products_items float_of_str items id acc in
  fresh_from n0 r.1 /\ r.2 = n0 + Z.of_nat (length r.1).
Proof.
  revert acc id. induction items as [|item items IH]; intros acc id Hf Hid; simpl; [done|].
  destruct (is_empty item); [by apply IH|].
  destruct (load_products_item float_of_str item) as [[name price]|]; [|by apply IH].
  apply IH.
  - by apply fresh_from_app.
  - rewrite length_app. simpl. lia.
Qed.

Lemma load_products_files_fresh contents n0 acc id :
  fresh_from n0 acc -> id = n0 + Z.of_nat (length acc) ->
  fresh_from n0 (load_products_files float_of_str contents id acc).
Proof.
  revert acc id. induction contents as [|[text|] contents IH]; intros acc id Hf Hid; simpl;
    [done| |by apply IH].
  destruct (is_empty _); [by apply IH|].
  pose proof (load_products_items_fresh
                (split ";" (strip (universal_newlines false text))) n0 acc id Hf Hid) as H.
  destruct (load_products_items _ _ _ _) as [acc' id']. simpl in H.
  destruct H as [Hf' Hid']. by apply IH.
Qed.

Lemma load_products_fresh fs : fresh_from 1 (load_products float_of_str fs).
Proof.
  unfold load_products. apply load_products_files_fresh; [|done].
  split; [done|constructor].
Qed.

Lemma load_products_NoDup fs : NoDup (map Product.id (load_products float_of_str fs)).
Proof. destruct (load_products_fresh fs) as [-> _]. apply NoDup_seqZ. Qed.

(** C1. From a freshly loaded inventory, after any sequence of
    [add_to_cart], [remove_from_cart], [update_cart_item] and [clear_cart]
    calls, with any arguments, every product still has its id, and its stock
    plus the quantities of the cart items that refer to it equals its initial
    stock, which is 10. The calls are arbitrary, so the equation holds between
    any two of them. *)
Theorem conservation_of_stock (fs : files) (us : list User.t) (cu : option nat)
  (calls : list cart_call) :
  let g0 := fresh_session float_of_str fs us cu in
  conserved (products g0) (run calls g0)
  /\ Forall (fun p0 => Product.stock p0 = 10) (products g0).
Proof.
  simpl. split.
  - apply run_conserved.
    + apply load_products_NoDup.
    + apply conserved_start.
  - apply load_products_fresh.
Qed.

End Inventory.

(** The scenario of the specification: two products are loaded, three
    apples are added, the quantity is set to 1, the line is removed. *)
Example scenario_apple_banana :
  let fs := Files None true [(str "warehouse.txt", Some (str "Apple:100;Banana:50"))] in
  let g0 := fresh_session Reference.float_of_str fs [] None in
  let found := Product.Make 1 (str "Apple") 100 10 in
  let g3 := run [AddToCart found; AddToCart found; AddToCart found] g0 in
  let g4 := run [UpdateCartItem 0 1] g3 in
  let g5 := run [RemoveFromCart 0] g4 in
  map (fun p => (Product.id p, Product.stock p)) (products g0) = [(1, 10); (2, 10)]
  /\ map CartItem.quantity (cart g3) = [3] /\ stock_of 1 (products g3) = Some 7
  /\ map CartItem.quantity (cart g4) = [1] /\ stock_of 1 (products g4) = Some 9
  /\ cart g5 = [] /\ stock_of 1 (products g5) = Some 10.
Proof. vm_compute. repeat split. Qed.

(** *** The single operations *)





(** Without a product behind the line the last case does not hold. The
    ghost line holds 2 units of a product that is not in the inventory; index 0
    is inside the cart, the new quantity 1 is positive, and diff = -1 is not
    above 0, so nothing of the first two cases applies, yet the call returns
    False and changes nothing: the quantity stays 2. *)
Lemma update_cart_item_fails_without_product :
  cart ghost_session !! Z.to_nat 0 = Some ghost_line
  /\ 0 <= 0 < Z.of_nat (length (cart ghost_session))
  /\ 0 < 1
  /\ ~ (0 < 1 - CartItem.quantity ghost_line)
  /\ update_cart_item 0 1 ghost_session = (false, ProductNotInInventory, ghost_session)
  /\ (update_cart_item 0 1 ghost_session).1.1 <> true
  /\ map CartItem.quantity (cart (update_cart_item 0 1 ghost_session).2) = [2].
Proof.
  split; [reflexivity|]. split; [simpl; lia|]. split; [lia|]. split; [simpl; lia|].
  split; [reflexivity|]. split; [discriminate|reflexivity].
Qed.

(** C9. [remove_from_cart index] with an index inside the cart returns
    True and deletes that line, also when the line's product id is the id of no
    product of the inventory; then the inventory is left as it was, so the
    line's quantity goes nowhere. *)
Theorem remove_from_cart_valid_index (item_index : Z) (g : globals) :
  0 <= item_index < Z.of_nat (length (cart g)) ->
  let r := remove_from_cart item_index g in
  r.1 = true
  /\ cart r.2 = delete (Z.to_nat item_index) (cart g)
  /\ users r.2 = users g /\ current_user r.2 = current_user g
  /\ (forall item,
        cart g !! Z.to_nat item_index = Some item ->
        stock_of (CartItem.product_id item) (products g) = None ->
        products r.2 = products g).
Proof.
  intros Hi. simpl. unfold remove_from_cart.
  index_test item_index g; [lia|lia|].
  destruct (cart g !! Z.to_nat item_index) as [item|] eqn:Hit.
  - simpl. repeat split; try done.
    intros ? [= <-] Hn%stock_of_None. unfold restock. by rewrite Hn.
  - apply lookup_ge_None in Hit. lia.
Qed.

(** The line of the product that the inventory does not know is removed,
    and the inventory stays as it was. *)
Lemma remove_from_cart_valid_index_witness :
  (remove_from_cart 0 ghost_session).1 = true
  /\ cart (remove_from_cart 0 ghost_session).2 = []
  /\ products (remove_from_cart 0 ghost_session).2 = products ghost_session.
Proof.
  destruct (remove_from_cart_valid_index 0 ghost_session ltac:(simpl; lia))
    as (Hok & Hc & _ & _ & Hp).
  split; [exact Hok|]. split; [exact Hc|]. exact (Hp ghost_line eq_refl eq_refl).
Defined.

(* ------------------------------------------------------------------------- *)
(** ** Checkout *)

(** *** The order of binary64 numbers, as far as [checkout] compares them *)

Lemma SFcompare_antisym x y c :
  SFcompare x y = Some c -> SFcompare y x = Some (CompOpp c).
Proof.
  destruct x as [sx|sx| |sx mx ex], y as [sy|sy| |sy my ey]; simpl;
    try (intros [= <-]; try destruct sx; try destruct sy; reflexivity); try discriminate.
  intros [= <-]. f_equal.
  destruct sx, sy; try reflexivity;
    rewrite (Z.compare_antisym ex ey);
    destruct (ex ?= ey); simpl; try reflexivity;
    rewrite <- (Pos.compare_cont_antisym mx my Eq : CompOpp _ = Pos.compare_cont Eq my mx);
    by destruct (Pos.compare_cont Eq mx my).
Qed.

Lemma Prim2SF_zero : Prim2SF PyNum.zero = S754_zero false.
Proof. reflexivity. Qed.

(** total <= balance excludes total > balance. *)
Lemma leb_not_gt (t b : float) : PrimFloat.leb t b = true -> PyNum.gt t b = false.
Proof.
  unfold PyNum.gt. rewrite FloatAxioms.leb_spec, FloatAxioms.ltb_spec. unfold SFleb, SFltb.
  destruct (SFcompare (Prim2SF t) (Prim2SF b)) as [c|] eqn:E; [|done].
  rewrite (SFcompare_antisym _ _ _ E). by destruct c.
Qed.

(** 0 < total excludes total == 0. *)
Lemma positive_not_zero (t : float) : PrimFloat.ltb 0 t = true -> PyNum.is_zero t = false.
Proof.
  unfold PyNum.is_zero. rewrite FloatAxioms.eqb_spec, FloatAxioms.ltb_spec.
  unfold SFeqb, SFltb.
  change (Prim2SF 0) with (S754_zero false). rewrite Prim2SF_zero.
  destruct (Prim2SF t) as [s|s| |s m e]; simpl; try done; by destruct s.
Qed.

(** A total above a balance that is not negative is not 0. *)
Lemma above_nonnegative_not_zero (t b : float) :
  PyNum.gt t b = true -> PyNum.negative b = false -> PyNum.is_zero t = false.
Proof.
  unfold PyNum.gt, PyNum.negative, PyNum.is_zero.
  rewrite FloatAxioms.eqb_spec, !FloatAxioms.ltb_spec. unfold SFeqb, SFltb.
  rewrite Prim2SF_zero.
  destruct (Prim2SF t) as [s|s| |s m e], (Prim2SF b) as [s'|s'| |s' m' e']; simpl; try done;
    try destruct s; try destruct s'; done.
Qed.

Lemma eqb_true (a b : pystr) : eqb a b = true <-> a = b.
Proof. unfold eqb. apply bool_decide_eq_true. Qed.

Lemma eqb_false (a b : pystr) : eqb a b = false <-> a <> b.
Proof. unfold eqb. apply bool_decide_eq_false. Qed.

(** The answers that confirm a purchase are y and Y, with blanks around. *)
Lemma lower_is_y (t : pystr) : lower t = str "y" <-> t = str "y" \/ t = str "Y".
Proof.
  split.
  - destruct t as [|c [|c' t]]; try discriminate.
    intros [= H]. revert H.
    destruct c as [[] [] [] [] [] [] [] []]; vm_compute; intros; try discriminate; auto.
  - intros [->| ->]; reflexivity.
Qed.

Section Checkout.
Variable format_number : float -> pystr.

(** C2, as the code has it. With a cart total and a signed-in user:
    - a total above the balance leaves the state and the file as they were,
      and the report is InsufficientFunds when the balance is not negative (a
      total of 0 above a negative balance takes the empty-cart exit);
    - a total that is positive and at most the balance, a confirmed purchase
      and an accounts file that can be written give the success report: the
      user's balance is the old balance minus the total, the cart is empty, no
      stock is changed, and the file holds the updated users;
    - a total equal to 0 is the empty-cart exit: nothing changes. *)
Theorem checkout_cases (confirm : pystr) (now : Z) (g : globals) (fs : files)
  (total : float) (k : nat) (user : User.t) :
  view_cart g = Some total -> current_user g = Some k -> users g !! k = Some user ->
  let r := checkout format_number confirm now g fs in
  let balance := User.balance user in
  (PyNum.gt total balance = true ->
   (exists m, r = Some (m, g, fs))
   /\ (PyNum.negative balance = false -> r = Some (InsufficientFunds, g, fs)))
  /\ (PrimFloat.ltb 0 total = true -> PrimFloat.leb total balance = true ->
      lower (strip confirm) = str "y" -> writable fs = true ->
      exists g' fs',
        r = Some (PurchaseSuccessful now, g', fs')
        /\ users g' = <[k := User.set_balance (PrimFloat.sub balance total) user]> (users g)
        /\ cart g' = []
        /\ products g' = products g
        /\ current_user g' = current_user g
        /\ accounts_txt fs' = Some (save_users_text format_number (users g')))
  /\ (PyNum.is_zero total = true -> r = Some (CartIsEmpty, g, fs)).
Proof.
  intros Hv Hcu Hu. simpl. unfold checkout. rewrite Hv. simpl.
  split; [|split].
  - intros Hgt. split.
    + destruct (PyNum.is_zero total); [eauto|].
      rewrite Hcu. simpl. rewrite Hu. simpl. rewrite Hgt. eauto.
    + intros Hneg. rewrite (above_nonnegative_not_zero _ _ Hgt Hneg).
      rewrite Hcu. simpl. rewrite Hu. simpl. by rewrite Hgt.
  - intros Hpos Hle Hy Hw.
    rewrite (positive_not_zero _ Hpos). rewrite Hcu. simpl. rewrite Hu. simpl.
    rewrite (leb_not_gt _ _ Hle), Hy.
    destruct (eqb _ _) eqn:Ey; [|by apply eqb_false in Ey].
    unfold save_users, write_accounts. rewrite Hw. simpl. eauto 10.
  - intros ->. done.
Qed.

(** C10. With a cart that is not empty and a total that is not above the
    balance, an answer that, stripped and lowercased, is not exactly y leaves
    the users with their balances, the cart, the inventory and the accounts file
    as they were; the report is PurchaseCancelled whenever the total is not 0
    (a total of 0 leaves before the question is asked, with nothing changed
    either). *)
Theorem checkout_needs_confirmation (confirm : pystr) (now : Z) (g : globals) (fs : files)
  (total : float) (k : nat) (user : User.t) :
  view_cart g = Some total -> current_user g = Some k -> users g !! k = Some user ->
  cart g <> [] -> PyNum.gt total (User.balance user) = false ->
  lower (strip confirm) <> str "y" ->
  exists m, checkout format_number confirm now g fs = Some (m, g, fs)
            /\ (PyNum.is_zero total = false -> m = PurchaseCancelled).
Proof.
  intros Hv Hcu Hu _ Hgt Hn. unfold checkout. rewrite Hv. simpl.
  destruct (PyNum.is_zero total); [eexists; split; [done|done]|].
  rewrite Hcu. simpl. rewrite Hu. simpl. rewrite Hgt.
  destruct (eqb _ _) eqn:Ey; [by apply eqb_true in Ey|]. eauto.
Qed.

End Checkout.

(** bob pays 50 for his apple out of 100: 50 are left, the cart is empty,
    the nine apples in stock stay nine, the file is written. *)
Lemma checkout_cases_witness :
  exists g' fs',
    checkout Reference.format_number (str " Y ") 1700000000 demo_session data_dir
    = Some (PurchaseSuccessful 1700000000, g', fs')
    /\ users g' = [User.set_balance 50 bob]
    /\ cart g' = []
    /\ products g' = [apple]
    /\ accounts_txt fs' = Some (str "bob,bob@shop.ng,5e88,50.0" ++ [LF]).
Proof.
  destruct (checkout_cases Reference.format_number (str " Y ") 1700000000 demo_session
              data_dir 50%float 0%nat bob eq_refl eq_refl eq_refl) as (_ & H & _).
  destruct (H eq_refl eq_refl eq_refl eq_refl) as (g' & fs' & Hr & Hu & Hc & Hp & _ & Hf).
  exists g', fs'. split; [exact Hr|]. split; [exact Hu|]. split; [exact Hc|].
  split; [exact Hp|]. rewrite Hf, Hu. reflexivity.
Defined.

(** Without the condition on the file the second case does not hold: the
    purchase is confirmed and affordable, the accounts file cannot be written;
    bob is debited and the cart keeps its line. *)
Lemma checkout_save_failure_keeps_cart :
  view_cart demo_session = Some 50%float
  /\ PrimFloat.ltb 0 50 = true /\ PrimFloat.leb 50 (User.balance bob) = true
  /\ lower (strip (str "y")) = str "y"
  /\ exists g',
      checkout Reference.format_number (str "y") 1700000000 demo_session read_only_dir
      = Some (ErrorSavingTransaction, g', read_only_dir)
      /\ users g' = [User.set_balance 50 bob]
      /\ cart g' = [apple_line] /\ cart g' <> [].
Proof.
  repeat split; try reflexivity.
  eexists. repeat split; try reflexivity. discriminate.
Qed.

(** bob answers n: nothing happens. *)
Lemma checkout_needs_confirmation_witness :
  checkout Reference.format_number (str "n") 1700000000 demo_session data_dir
  = Some (PurchaseCancelled, demo_session, data_dir).
Proof.
  destruct (checkout_needs_confirmation Reference.format_number (str "n") 1700000000
              demo_session data_dir 50%float 0%nat bob eq_refl eq_refl eq_refl
              ltac:(discriminate) eq_refl ltac:(discriminate)) as (m & Hr & Hm).
  rewrite Hr, (Hm eq_refl). reflexivity.
Defined.

(* ------------------------------------------------------------------------- *)
(** ** The accounts file *)

(** *** [strip] *)

Lemma length_lstrip s : (length (lstrip s) <= length s)%nat.
Proof. induction s as [|c s IH]; simpl; [lia|]. destruct (isspace c); simpl; lia. Qed.

Lemma length_rstrip s : (length (rstrip s) <= length s)%nat.
Proof.
  unfold rstrip. rewrite length_rev. etrans; [apply length_lstrip|]. by rewrite length_rev.
Qed.

Lemma lstrip_head c s : isspace c = false -> lstrip (c :: s) = c :: s.
Proof. simpl. by intros ->. Qed.

Lemma rstrip_last s c : isspace c = false -> rstrip (s ++ [c]) = s ++ [c].
Proof.
  intros Hc. unfold rstrip. rewrite rev_app_distr. simpl. rewrite Hc.
  change (rev (c :: rev s)) with (rev (rev s) ++ [c]). by rewrite rev_involutive.
Qed.

Lemma lstrip_cases s :
  lstrip s = [] \/ exists c s', lstrip s = c :: s' /\ isspace c = false.
Proof.
  induction s as [|c s IH]; simpl; [by left|].
  destruct (isspace c) eqn:E; [done|]. right. eauto.
Qed.

Lemma rstrip_cases s :
  rstrip s = [] \/ exists s' d, rstrip s = s' ++ [d] /\ isspace d = false.
Proof.
  unfold rstrip. destruct (lstrip_cases (rev s)) as [->|(c & s' & -> & Hc)]; [by left|].
  right. exists (rev s'), c. done.
Qed.

(** A text whose first and last characters are not blank is its own strip. *)
Lemma strip_tight s c d :
  (s = [c] \/ exists m, s = c :: m ++ [d]) -> isspace c = false -> isspace d = false ->
  strip s = s.
Proof.
  intros Hs Hc Hd. unfold strip. destruct Hs as [->|[m ->]].
  - rewrite lstrip_head by done. by apply (rstrip_last []).
  - rewrite lstrip_head by done. by apply (rstrip_last (c :: m)).
Qed.

Lemma strip_fixed_head c s : strip (c :: s) = c :: s -> isspace c = false.
Proof.
  intros H. destruct (isspace c) eqn:E; [|done]. exfalso.
  assert (length (strip (c :: s)) <= length s)%nat as Hlen.
  { unfold strip. etrans; [apply length_rstrip|]. simpl. rewrite E. apply length_lstrip. }
  rewrite H in Hlen. simpl in Hlen. lia.
Qed.

Lemma strip_fixed_last s c : strip (s ++ [c]) = s ++ [c] -> isspace c = false.
Proof.
  unfold strip. intros H.
  destruct (rstrip_cases (lstrip (s ++ [c]))) as [E|(s' & d & E & Hd)]; rewrite E in H.
  - by destruct s.
  - by apply app_inj_tail in H as [_ ->].
Qed.

Lemma clean_ends s :
  clean s ->
  exists c d, (s = [c] /\ d = c \/ exists m, s = c :: m ++ [d])
              /\ isspace c = false /\ isspace d = false.
Proof.
  intros (Hne & Hs & _).
  destruct s as [|c s]; [done|].
  pose proof (strip_fixed_head _ _ Hs) as Hc.
  destruct (decide (s = [])) as [->|Hs'].
  - exists c, c. auto.
  - destruct (exists_last Hs') as (m & d & ->).
    exists c, d. split; [eauto|]. split; [done|].
    by apply (strip_fixed_last (c :: m)).
Qed.

Lemma clean_no_comma s : clean s -> Forall (fun c => c <> ","%char) s.
Proof. intros (_ & _ & H). eapply Forall_impl; [exact H|]. unfold plain. tauto. Qed.

Lemma clean_not_empty s : clean s -> is_empty s = false.
Proof. intros (H & _). by destruct s. Qed.

(** *** [split], [lines] and universal newlines on texts built with separators *)

Lemma split_none sep s : Forall (fun c => c <> sep) s -> split sep s = [s].
Proof.
  induction 1 as [|c s Hc _ IH]; simpl; [done|].
  destruct (Ascii.eqb_spec c sep); [done|]. by rewrite IH.
Qed.

Lemma split_app sep a b :
  Forall (fun c => c <> sep) a -> split sep (a ++ sep :: b) = a :: split sep b.
Proof.
  induction 1 as [|c s Hc _ IH]; simpl.
  - by rewrite Ascii.eqb_refl.
  - destruct (Ascii.eqb_spec c sep); [done|]. by rewrite IH.
Qed.

Lemma lines_app l rest :
  Forall (fun c => c <> LF) l -> lines (l ++ LF :: rest) = l :: lines rest.
Proof.
  induction 1 as [|c s Hc _ IH]; simpl; [done|].
  destruct (Ascii.eqb_spec c LF); [done|]. by rewrite IH.
Qed.

Lemma universal_newlines_app a b :
  Forall (fun c => c <> CR) a ->
  universal_newlines false (a ++ LF :: b) = a ++ LF :: universal_newlines false b.
Proof.
  induction 1 as [|c a Hc _ IH]; simpl; [done|].
  destruct (Ascii.eqb_spec c CR); [done|].
  destruct (Ascii.eqb_spec c LF) as [->|]; by rewrite IH.
Qed.

(** *** Writing the users and reading them back *)

Section RoundTrip.
Variable float_of_str : pystr -> option float.
Variable format_number : float -> pystr.

Local Abbreviation stored := (stored_exactly float_of_str format_number).
Local Abbreviation text_of := (record_text format_number).

Lemma save_users_line_text u : save_users_line format_number u = text_of u ++ [LF].
Proof. unfold save_users_line, record_text. by rewrite <- !app_assoc. Qed.

Lemma record_text_plain u :
  stored u -> Forall (fun c => c <> LF) (text_of u) /\ Forall (fun c => c <> CR) (text_of u).
Proof.
  intros ((_ & _ & H1) & (_ & _ & H2) & (_ & _ & H3) & (_ & _ & H4) & _).
  unfold record_text.
  split; repeat (apply Forall_app; split);
    try (eapply Forall_impl; [eassumption|]; unfold plain; tauto);
    repeat constructor; done.
Qed.

Lemma record_text_strip u : stored u -> strip (text_of u) = text_of u.
Proof.
  intros (Hu & _ & _ & Hb & _).
  destruct (clean_ends _ Hu) as (c & c' & Hc & Hcs & _).
  destruct (clean_ends _ Hb) as (d' & d & Hd & _ & Hds).
  apply (strip_tight _ c d); [|done|done]. right.
  unfold record_text.
  assert (exists m, User.username u = c :: m) as [m ->].
  { destruct Hc as [[-> _]|[m ->]]; eauto. }
  assert (exists m', format_number (User.balance u) = m' ++ [d]) as [m' ->].
  { destruct Hd as [[-> ->]|[m' ->]]; [by exists []|by exists (d' :: m')]. }
  exists (m ++ str "," ++ User.email u ++ str "," ++ User.password_hash u ++ str "," ++ m').
  simpl. f_equal. repeat (rewrite <- app_assoc; simpl). reflexivity.
Qed.

(** The loop body of [load_users] reads a stored line back as the record. *)
Lemma load_users_line_record u : stored u -> load_users_line float_of_str (text_of u) = Some u.
Proof.
  intros Hu. unfold load_users_line.
  rewrite (record_text_strip u Hu).
  destruct Hu as (Hn & He & Hh & Hb & Hf & Hneg).
  unfold record_text. change (str ",") with [","%char]. simpl.
  assert (forall rest, is_empty (User.username u ++ rest) = false) as ->.
  { intros rest. destruct Hn as (Hne & _). by destruct (User.username u). }
  rewrite !split_app by by apply clean_no_comma.
  rewrite split_none by by apply clean_no_comma.
  pose proof Hn as (_ & -> & _). pose proof He as (_ & -> & _).
  pose proof Hh as (_ & -> & _). pose proof Hb as (_ & -> & _).
  rewrite (clean_not_empty _ Hn), (clean_not_empty _ He), (clean_not_empty _ Hh). simpl.
  rewrite Hf, Hneg. by destruct u.
Qed.

Lemma load_users_lines us :
  Forall stored us ->
  omap (load_users_line float_of_str) (readlines (save_users_text format_number us)) = us.
Proof.
  unfold readlines, save_users_text.
  induction 1 as [|u us Hu _ IH]; simpl; [done|].
  rewrite save_users_line_text.
  destruct (record_text_plain u Hu) as [Hlf Hcr].
  rewrite <- app_assoc. simpl.
  rewrite universal_newlines_app by done. rewrite lines_app by done.
  change (omap ?f (?x :: ?l))
    with (match f x with Some y => y :: omap f l | None => omap f l end).
  rewrite (load_users_line_record u Hu). by rewrite IH.
Qed.

(** C6, as the code has it. When every user's username, email and password
    hash is not empty, has no blank at either end and holds no comma, line feed
    or carriage return, and every balance is not negative and has a text of
    that kind from which [float] gives the balance back, then [save_users]
    followed by [load_users] yields the same users: the same records in the
    same order. *)
Theorem save_then_load (g : globals) (fs fs' : files) :
  Forall stored (users g) ->
  save_users format_number g fs = Some fs' ->
  load_users float_of_str fs' = users g.
Proof.
  intros Hus. unfold save_users, write_accounts.
  destruct (writable fs); [|done]. intros [= <-].
  unfold load_users. simpl. by apply load_users_lines.
Qed.

End RoundTrip.

(** bob's record is written as one line and read back. *)
Lemma save_then_load_witness :
  save_users_text Reference.format_number [bob] = str "bob,bob@shop.ng,5e88,100.0" ++ [LF]
  /\ load_users Reference.float_of_str
       (Files (Some (save_users_text Reference.format_number [bob])) true [])
     = [bob].
Proof.
  split; [reflexivity|].
  apply (save_then_load Reference.float_of_str Reference.format_number signed_out data_dir).
  - repeat constructor; try discriminate; try reflexivity.
  - reflexivity.
Defined.

(** Validity in the specification's words is not enough: a username with
    a blank in front is not empty after trimming and holds no comma and no line
    break; it is read back without the blank. *)
Lemma padded_username_is_not_read_back :
  valid_as_claimed padded_bob
  /\ exists fs',
      save_users Reference.format_number (Globals [padded_bob] None [] []) data_dir = Some fs'
      /\ load_users Reference.float_of_str fs' = [bob]
      /\ load_users Reference.float_of_str fs' <> [padded_bob].
Proof.
  split.
  - unfold valid_as_claimed, plain. simpl.
    repeat split; try discriminate; repeat constructor; discriminate.
  - eexists. split; [reflexivity|]. split; [reflexivity|]. discriminate.
Qed.

(* ------------------------------------------------------------------------- *)
(** ** Validation *)

(** *** What the matcher computes on one-character steps *)

Lemma cursor_eq i j : pos i = pos j -> ahead i = ahead j -> i = j.
Proof. destruct i, j. simpl. by intros -> ->. Qed.

Lemma reads_nil p i : reads p [] i i.
Proof. unfold reads. simpl. repeat split; [lia|constructor]. Qed.

Lemma reads_nil_inv p i j : reads p [] i j -> j = i.
Proof. intros (Ha & Hp & _). simpl in *. apply cursor_eq; [lia|done]. Qed.

Lemma reads_app p w1 w2 i k j : reads p w1 i k -> reads p w2 k j -> reads p (w1 ++ w2) i j.
Proof.
  intros (Ha1 & Hp1 & Hf1) (Ha2 & Hp2 & Hf2). unfold reads.
  rewrite Ha1, Ha2, length_app, <- app_assoc. repeat split; [lia|]. by apply Forall_app.
Qed.

Lemma reads_split p w1 w2 i j :
  reads p (w1 ++ w2) i j ->
  reads p w1 i (Cursor (pos i + length w1) (w2 ++ ahead j))
  /\ reads p w2 (Cursor (pos i + length w1) (w2 ++ ahead j)) j.
Proof.
  intros (Ha & Hp & Hf). apply Forall_app in Hf as [Hf1 Hf2]. unfold reads. simpl.
  rewrite Ha, <- app_assoc. rewrite length_app in Hp. repeat split; try done; lia.
Qed.

Lemma reads_length p w i j :
  reads p w i j -> length (ahead i) = (length w + length (ahead j))%nat.
Proof. intros (-> & _). by rewrite length_app. Qed.

Lemma in_one p i j : In j (one p i) <-> exists c, p c = true /\ reads p [c] i j.
Proof.
  unfold one, reads. destruct i as [n s]. simpl. destruct s as [|c s]; simpl.
  - split; [done|]. by intros (c & _ & ? & _).
  - destruct (p c) eqn:E; simpl; split.
    + intros [<-|[]]. exists c. simpl. repeat split; [done|lia|by constructor].
    + intros (c' & Hc' & [= <- Hs] & Hp & _). left. apply cursor_eq; simpl; [lia|done].
    + done.
    + intros (c' & Hc' & [= <- Hs] & _). congruence.
Qed.

(** One step of the word [c :: w], then the rest. *)
Lemma reads_cons p c w i j :
  reads p (c :: w) i j ->
  exists k, In k (one p i) /\ reads p w k j /\ (length (ahead k) < length (ahead i))%nat.
Proof.
  intros Hw. apply (reads_split p [c] w) in Hw as [H1 H2].
  eexists. split; [|split; [exact H2|]].
  - apply in_one. exists c. split; [|exact H1].
    destruct H1 as (_ & _ & Hf). by inversion Hf.
  - apply reads_length in H1. simpl in *. lia.
Qed.

Lemma in_loop_step greedy step fuel i j :
  In j (loop greedy step (S fuel) i) <->
  j = i \/ exists k, In k (step i)
                     /\ (length (ahead k) < length (ahead i))%nat
                     /\ In j (loop greedy step fuel k).
Proof.
  simpl. destruct greedy.
  - rewrite in_app_iff, in_flat_map. simpl. split.
    + intros [(k & Hk & Hj)|[<-|[]]]; [right|by left].
      exists k. destruct (Nat.ltb_spec (length (ahead k)) (length (ahead i))); [done|].
      by destruct Hj.
    + intros [->|(k & Hk & Hlt & Hj)]; [by right; left|left].
      exists k. split; [done|].
      by destruct (Nat.ltb_spec (length (ahead k)) (length (ahead i))); [|lia].
  - simpl. rewrite in_flat_map. split.
    + intros [<-|(k & Hk & Hj)]; [by left|right].
      exists k. destruct (Nat.ltb_spec (length (ahead k)) (length (ahead i))); [done|].
      by destruct Hj.
    + intros [->|(k & Hk & Hlt & Hj)]; [by left|right].
      exists k. split; [done|].
      by destruct (Nat.ltb_spec (length (ahead k)) (length (ahead i))); [|lia].
Qed.

(** Repeating a one-character step reads any word of such characters, in
    either order of preference, once the fuel covers the characters ahead. *)
Lemma in_loop_one greedy p fuel i j :
  (length (ahead i) <= fuel)%nat ->
  In j (loop greedy (one p) fuel i) <-> exists w, reads p w i j.
Proof.
  revert i. induction fuel as [|fuel IH]; intros i Hfuel.
  - simpl. split.
    + intros [<-|[]]. exists []. apply reads_nil.
    + intros (w & Hw). left. pose proof (reads_length _ _ _ _ Hw).
      destruct w; [|simpl in *; lia]. symmetry. by eapply reads_nil_inv.
  - rewrite in_loop_step. split.
    + intros [->|(k & Hk & Hlt & Hj)]; [exists []; apply reads_nil|].
      apply in_one in Hk as (c & Hc & Hk).
      apply IH in Hj as [w Hw]; [|lia].
      exists ([c] ++ w). by eapply reads_app.
    + intros ([|c w] & Hw); [left; by eapply reads_nil_inv|right].
      apply reads_cons in Hw as (k & Hk & Hw & Hlt).
      exists k. split; [done|]. split; [done|]. apply IH; [lia|by exists w].
Qed.

Lemma in_times_one p n i j :
  In j (times n (one p) i) <-> exists w, length w = n /\ reads p w i j.
Proof.
  revert i. induction n as [|n IH]; intros i; simpl.
  - split.
    + intros [<-|[]]. exists []. split; [done|apply reads_nil].
    + intros ([|] & Hl & Hw); [|done]. left. symmetry. by eapply reads_nil_inv.
  - rewrite in_flat_map. split.
    + intros (k & Hk & Hj). apply in_one in Hk as (c & Hc & Hk).
      apply IH in Hj as (w & Hl & Hw). exists ([c] ++ w). split; [simpl; lia|].
      by eapply reads_app.
    + intros ([|c w] & Hl & Hw); [done|].
      apply reads_cons in Hw as (k & Hk & Hw & _).
      exists k. split; [done|]. apply IH. exists w. split; [simpl in Hl; lia|done].
Qed.

(** *** The constructs of the two patterns *)

Lemma re_match_true r s : re_match r s = true <-> exists j, In j (exec r (Cursor 0 s)).
Proof.
  unfold re_match. destruct (exec r (Cursor 0 s)) as [|j l]; split; try done.
  - by intros [j []].
  - intros _. exists j. by left.
Qed.

Lemma in_exec_seq r1 r2 i j :
  In j (exec (Seq r1 r2) i) <-> exists k, In k (exec r1 i) /\ In j (exec r2 k).
Proof. simpl. apply in_flat_map. Qed.

Lemma in_exec_chr c i j :
  In j (exec (Chr c) i) <-> ahead i = c :: ahead j /\ pos j = S (pos i).
Proof.
  simpl. rewrite in_one. unfold reads. simpl. split.
  - intros (c' & Hc & Ha & Hp & _). apply Ascii.eqb_eq in Hc as ->. split; [done|lia].
  - intros [Ha Hp]. exists c. rewrite Ascii.eqb_refl. repeat split; try done; [lia|].
    constructor; [apply Ascii.eqb_refl|constructor].
Qed.

Lemma in_exec_plus_class p i j :
  In j (exec (Plus (Class p)) i) <-> exists w, w <> [] /\ reads p w i j.
Proof.
  simpl. rewrite in_flat_map. split.
  - intros (k & Hk & Hj). apply in_one in Hk as (c & Hc & Hk).
    apply in_loop_one in Hj as [w Hw]; [|done].
    exists ([c] ++ w). split; [done|]. by eapply reads_app.
  - intros ([|c w] & Hne & Hw); [done|].
    apply reads_cons in Hw as (k & Hk & Hw & _).
    exists k. split; [done|]. apply in_loop_one; [done|]. by exists w.
Qed.

Lemma in_exec_eol i j : In j (exec Eol i) <-> j = i /\ (ahead i = [] \/ ahead i = [LF]).
Proof.
  simpl. destruct (ahead i) as [|c [|c' s]]; simpl.
  - split; [intros [<-|[]]; auto|]. intros [-> _]. by left.
  - destruct (Ascii.eqb_spec c LF) as [->|Hc]; simpl.
    + split; [intros [<-|[]]; auto|]. intros [-> _]. by left.
    + split; [done|]. intros [_ [|[=]]]; done.
  - split; [done|]. intros [_ [|]]; done.
Qed.

Lemma in_exec_bol i j : In j (exec Bol i) <-> j = i /\ pos i = 0%nat.
Proof.
  simpl. destruct (Nat.eqb_spec (pos i) 0); simpl.
  - split; [intros [<-|[]]; auto|]. intros [-> _]. by left.
  - split; [done|]. by intros [_ ?].
Qed.

Lemma in_exec_lookahead r i j :
  In j (exec (Lookahead r) i) <-> j = i /\ exists k, In k (exec r i).
Proof.
  simpl. destruct (exec r i) as [|k l]; simpl.
  - split; [done|]. by intros [_ [k []]].
  - split.
    + intros [<-|[]]. split; [done|]. exists k. by left.
    + intros [-> _]. by left.
Qed.

Lemma reads_not_space w i j :
  reads not_space w i j
  <-> ahead i = w ++ ahead j /\ pos j = (pos i + length w)%nat /\ no_space w.
Proof.
  unfold reads, no_space, not_space.
  assert (Forall (fun c => negb (isspace c) = true) w
          <-> Forall (fun c => isspace c = false) w) as ->.
  { apply Forall_proper; [|done]. intros c. apply negb_true_iff. }
  done.
Qed.

Lemma reads_dot w i j :
  reads dot w i j <-> ahead i = w ++ ahead j /\ pos j = (pos i + length w)%nat /\ one_line w.
Proof.
  unfold reads, one_line, dot.
  assert (Forall (fun c => negb (Ascii.eqb c LF) = true) w
          <-> Forall (fun c => c <> LF) w) as ->.
  { apply Forall_proper; [|done]. intros c. rewrite negb_true_iff. apply Ascii.eqb_neq. }
  done.
Qed.

(** (?=.*?[set]) : some character of the set stands on the current line. *)
Lemma in_exec_lookahead_class p i j :
  In j (exec (Lookahead (Seq (LazyStar Dot) (Class p))) i) <->
  j = i /\ exists w c rest, ahead i = w ++ c :: rest /\ one_line w /\ p c = true.
Proof.
  rewrite in_exec_lookahead. apply and_iff_compat_l. split.
  - intros (k & (k1 & Hk1 & Hk)%in_exec_seq).
    simpl in Hk1, Hk.
    apply in_loop_one in Hk1; [|done]. destruct Hk1 as (w & (Ea & _ & Hw)%reads_dot).
    apply in_one in Hk as (c & Hc & (Ec & _)).
    exists w, c, (ahead k). rewrite Ea, Ec. done.
  - intros (w & c & rest & Ea & Hw & Hc).
    exists (Cursor (pos i + length w + 1) rest). apply in_exec_seq.
    exists (Cursor (pos i + length w) (c :: rest)). split.
    + apply in_loop_one; [done|]. exists w. by apply reads_dot.
    + apply in_one. exists c. split; [done|].
      unfold reads. simpl. split; [done|]. split; [lia|]. by repeat constructor.
Qed.

(** .{n,} *)
Lemma in_exec_at_least_dot n i j :
  In j (exec (AtLeast n Dot) i) <-> exists w, (n <= length w)%nat /\ reads dot w i j.
Proof.
  simpl. rewrite in_flat_map. split.
  - intros (k & (w1 & Hl & H1)%in_times_one & H2).
    apply in_loop_one in H2; [|done]. destruct H2 as (w2 & H2).
    exists (w1 ++ w2). split; [rewrite length_app; lia|]. by eapply reads_app.
  - intros (w & Hl & Hw).
    rewrite <- (take_drop n w) in Hw. apply reads_split in Hw as [H1 H2].
    eexists. split.
    + apply in_times_one. eexists. split; [|exact H1]. rewrite length_take. lia.
    + apply in_loop_one; [done|]. eauto.
Qed.

(** On a subject that is one line [w] and perhaps a final line feed, a
    lookahead for a set without the line feed finds its character in [w]. *)
Lemma has_on_line p w tail s :
  p LF = false -> s = w ++ tail -> (tail = [] \/ tail = [LF]) -> one_line w ->
  (exists w' c rest, s = w' ++ c :: rest /\ one_line w' /\ p c = true) <-> has p w.
Proof.
  intros HLF -> Htail Hw. unfold has. rewrite Exists_exists. split.
  - intros (w' & c & rest & E & _ & Hc). exists c. split; [|done].
    assert (c ∈ w ++ tail) as Hin by (rewrite E, elem_of_app, elem_of_cons; auto).
    apply elem_of_app in Hin as [H|H]; [done|].
    destruct Htail as [->| ->]; [by apply elem_of_nil in H|].
    apply list_elem_of_singleton in H as ->. congruence.
  - intros (c & Hin & Hc). apply list_elem_of_split in Hin as (w' & r & ->).
    exists w', c, (r ++ tail). rewrite <- app_assoc. split; [done|]. split; [|done].
    unfold one_line in *. by apply Forall_app in Hw as [? _].
Qed.

(** *** [validate_email] *)

Ltac enter k := apply in_exec_seq; exists k; split.

(** C8, as the pattern has it. [validate_email] accepts a string exactly
    when it is local @ domain . suffix, the three parts not empty and free of
    whitespace, with nothing behind the suffix or one final line feed. *)
Theorem validate_email_shape (mail : pystr) :
  validate_email mail = true <->
  exists local domain suffix tail,
    mail = local ++ "@"%char :: domain ++ "."%char :: suffix ++ tail
    /\ local <> [] /\ domain <> [] /\ suffix <> []
    /\ no_space local /\ no_space domain /\ no_space suffix
    /\ (tail = [] \/ tail = [LF]).
Proof.
  unfold validate_email.
  assert ((if re_match EMAIL_VALIDATE_PATTERN mail then true else false)
          = re_match EMAIL_VALIDATE_PATTERN mail) as -> by by destruct (re_match _ _).
  rewrite re_match_true. unfold EMAIL_VALIDATE_PATTERN. cbn [sequence]. split.
  - intros (j & Hj).
    apply in_exec_seq in Hj as (k0 & [-> _]%in_exec_bol & Hj).
    apply in_exec_seq in Hj as (k1 & (a & Ha & Hra%reads_not_space)%in_exec_plus_class & Hj).
    apply in_exec_seq in Hj as (k2 & [Hat _]%in_exec_chr & Hj).
    apply in_exec_seq in Hj as (k3 & (b & Hb & Hrb%reads_not_space)%in_exec_plus_class & Hj).
    apply in_exec_seq in Hj as (k4 & [Hdot _]%in_exec_chr & Hj).
    apply in_exec_seq in Hj as (k5 & (c & Hc & Hrc%reads_not_space)%in_exec_plus_class & Hj).
    apply in_exec_eol in Hj as [-> Hend].
    destruct Hra as (E1 & _ & Fa), Hrb as (E2 & _ & Fb), Hrc as (E3 & _ & Fc).
    simpl in E1. exists a, b, c, (ahead k5).
    rewrite E1, Hat, E2, Hdot, E3. done.
  - intros (a & b & c & tail & -> & Ha & Hb & Hc & Fa & Fb & Fc & Hend).
    set (n1 := length a). set (n2 := (S n1 + length b)%nat). set (n3 := (S n2 + length c)%nat).
    exists (Cursor n3 tail).
    enter (Cursor 0 (a ++ "@"%char :: b ++ "."%char :: c ++ tail)); [by apply in_exec_bol|].
    enter (Cursor n1 ("@"%char :: b ++ "."%char :: c ++ tail));
      [apply in_exec_plus_class; exists a; split; [done|]; by apply reads_not_space|].
    enter (Cursor (S n1) (b ++ "."%char :: c ++ tail)); [by apply in_exec_chr|].
    enter (Cursor n2 ("."%char :: c ++ tail));
      [apply in_exec_plus_class; exists b; split; [done|]; by apply reads_not_space|].
    enter (Cursor (S n2) (c ++ tail)); [by apply in_exec_chr|].
    enter (Cursor n3 tail);
      [apply in_exec_plus_class; exists c; split; [done|]; by apply reads_not_space|].
    by apply in_exec_eol.
Qed.

(** The shape in the specification's words is another set of strings. A
    blank between domain and suffix, or the full stop before the at sign, still
    gives a string with the three things that shape asks for, and it is refused;
    and an address with a line feed behind it is accepted although that
    character is whitespace. *)
Lemma validate_email_is_not_the_claimed_shape :
  (claimed_email_shape (str "a@b c.d") /\ validate_email (str "a@b c.d") = false)
  /\ (claimed_email_shape (str "a.b@c") /\ validate_email (str "a.b@c") = false)
  /\ (validate_email (str "a@b.c" ++ [LF]) = true /\ isspace LF = true).
Proof.
  split; [|split]; split; try reflexivity.
  - split; [|split].
    + exists "a"%char. split; [by left|reflexivity].
    + by exists [], "a"%char, "b"%char, (str " c.d").
    + by exists (str "a@b "), "c"%char, "d"%char, [].
  - split; [|split].
    + exists "a"%char. split; [by left|reflexivity].
    + by exists (str "a."), "b"%char, "c"%char, [].
    + by exists [], "a"%char, "b"%char, (str "@c").
Qed.

(** *** [validate_password] *)

(** The password policy as the pattern has it: one line of at least 16
    characters, perhaps with a final line feed, that holds an uppercase letter,
    a lowercase letter, a digit and a character of the set. *)
Lemma validate_password_policy (password : pystr) :
  validate_password password = true <->
  exists w tail,
    password = w ++ tail /\ (tail = [] \/ tail = [LF]) /\ one_line w
    /\ (16 <= length w)%nat
    /\ has is_upper w /\ has is_lower w /\ has is_digit w /\ has is_special w.
Proof.
  unfold validate_password.
  assert ((if re_match PASSWORD_VALIDATE_PATTERN password then true else false)
          = re_match PASSWORD_VALIDATE_PATTERN password) as -> by by destruct (re_match _ _).
  rewrite re_match_true. unfold PASSWORD_VALIDATE_PATTERN. cbn [sequence]. split.
  - intros (j & Hj).
    apply in_exec_seq in Hj as (k0 & [-> _]%in_exec_bol & Hj).
    apply in_exec_seq in Hj as (k1 & [-> Hu]%in_exec_lookahead_class & Hj).
    apply in_exec_seq in Hj as (k2 & [-> Hl]%in_exec_lookahead_class & Hj).
    apply in_exec_seq in Hj as (k3 & [-> Hd]%in_exec_lookahead_class & Hj).
    apply in_exec_seq in Hj as (k4 & [-> Hs]%in_exec_lookahead_class & Hj).
    apply in_exec_seq in Hj
      as (k5 & (w & Hlen & (E & _ & Hw)%reads_dot)%in_exec_at_least_dot & Hj).
    apply in_exec_eol in Hj as [-> Hend]. simpl in E, Hu, Hl, Hd, Hs.
    exists w, (ahead k5). repeat split; try done.
    + by apply (has_on_line is_upper w (ahead k5) password).
    + by apply (has_on_line is_lower w (ahead k5) password).
    + by apply (has_on_line is_digit w (ahead k5) password).
    + by apply (has_on_line is_special w (ahead k5) password).
  - intros (w & tail & -> & Hend & Hw & Hlen & Hu & Hl & Hd & Hs).
    exists (Cursor (length w) tail).
    enter (Cursor 0 (w ++ tail)); [by apply in_exec_bol|].
    enter (Cursor 0 (w ++ tail));
      [apply in_exec_lookahead_class; split; [done|];
       by apply (has_on_line is_upper w tail (w ++ tail))|].
    enter (Cursor 0 (w ++ tail));
      [apply in_exec_lookahead_class; split; [done|];
       by apply (has_on_line is_lower w tail (w ++ tail))|].
    enter (Cursor 0 (w ++ tail));
      [apply in_exec_lookahead_class; split; [done|];
       by apply (has_on_line is_digit w tail (w ++ tail))|].
    enter (Cursor 0 (w ++ tail));
      [apply in_exec_lookahead_class; split; [done|];
       by apply (has_on_line is_special w tail (w ++ tail))|].
    enter (Cursor (length w) tail).
    + apply in_exec_at_least_dot. exists w. split; [done|]. by apply reads_dot.
    + by apply in_exec_eol.
Qed.

(** The two passwords of the specification's scenario. *)
Example scenario_passwords :
  validate_password (str "Short1!") = false
  /\ validate_password (str "ValidPass123!@#$%") = true.
Proof. split; reflexivity. Qed.

(** *** [generate_password] *)

Lemma choice_in (chars : pystr) (r : nat) : chars <> [] -> choice chars r ∈ chars.
Proof.
  intros Hne. unfold choice. apply list_elem_of_In, nth_In.
  apply Nat.mod_upper_bound. by destruct chars.
Qed.

Lemma length_swap i j x : length (swap i j x) = length x.
Proof.
  unfold swap. destruct (x !! i), (x !! j); try done. by rewrite !length_insert.
Qed.

(** A swap moves characters, it neither adds nor loses one. *)
Lemma swap_same_chars i j x c : c ∈ swap i j x <-> c ∈ x.
Proof.
  unfold swap.
  destruct (x !! i) as [a|] eqn:Hi; [|done].
  destruct (x !! j) as [b|] eqn:Hj; [|done].
  pose proof (lookup_lt_Some _ _ _ Hi) as Li. pose proof (lookup_lt_Some _ _ _ Hj) as Lj.
  rewrite !list_elem_of_lookup. split; intros [k Hk].
  - destruct (decide (k = i)) as [->|Hki].
    + rewrite list_lookup_insert_eq in Hk by (by rewrite length_insert). simplify_eq. eauto.
    + rewrite list_lookup_insert_ne in Hk by done.
      destruct (decide (k = j)) as [->|Hkj].
      * rewrite list_lookup_insert_eq in Hk by done. simplify_eq. eauto.
      * rewrite list_lookup_insert_ne in Hk by done. eauto.
  - destruct (decide (k = j)) as [->|Hkj].
    + exists i. rewrite list_lookup_insert_eq by (by rewrite length_insert). congruence.
    + destruct (decide (k = i)) as [->|Hki].
      * exists j. rewrite list_lookup_insert_ne by done.
        rewrite list_lookup_insert_eq by done. congruence.
      * exists k. by rewrite !list_lookup_insert_ne.
Qed.

Lemma shuffle_from_same i draw x :
  length (shuffle_from i draw x) = length x
  /\ forall c, c ∈ shuffle_from i draw x <-> c ∈ x.
Proof.
  revert x. induction i as [|i IH]; intros x; [done|].
  change (shuffle_from (S i) draw x)
    with (shuffle_from i draw (swap (S i) (draw (S i) mod S (S i)) x)).
  destruct (IH (swap (S i) (draw (S i) mod S (S i)) x)) as [Hl Hc]. split.
  - by rewrite Hl, length_swap.
  - intros c. by rewrite Hc, swap_same_chars.
Qed.

Lemma generate_password_drawn rng :
  length (generate_password rng) = 16%nat
  /\ forall c, c ∈ generate_password rng <-> c ∈ drawn rng.
Proof.
  unfold generate_password, shuffle.
  destruct (shuffle_from_same (length (drawn rng) - 1) (fun i => rng (16 + i)%nat) (drawn rng))
    as [Hl Hc].
  split; [exact Hl|exact Hc].
Qed.

Lemma drawn_in_alphabet rng c : c ∈ drawn rng -> c ∈ alphabet.
Proof.
  unfold drawn, alphabet. rewrite elem_of_app. intros [H|H].
  - rewrite !elem_of_cons in H. rewrite !elem_of_app.
    destruct H as [->|[->|[->|[->|H]]]]; [| | | |by apply elem_of_nil in H].
    + left. by apply choice_in.
    + right; left. by apply choice_in.
    + right; right; left. by apply choice_in.
    + right; right; right. by apply choice_in.
  - apply list_elem_of_fmap in H as (k & -> & _).
    pose proof (choice_in (digits ++ ascii_lowercase ++ ascii_uppercase ++ take 1 punctuation)
                  (rng (4 + k)%nat) ltac:(done)) as Hin.
    rewrite !elem_of_app in *. destruct Hin as [?|[?|[?|Hin]]]; auto.
    right; right; right. apply list_elem_of_singleton in Hin as ->. by left.
Qed.


Lemma forallb_elem (p : ascii -> bool) (chars : pystr) c :
  forallb p chars = true -> c ∈ chars -> p c = true.
Proof. intros H Hin. rewrite forallb_forall in H. by apply H, list_elem_of_In. Qed.






(* ------------------------------------------------------------------------- *)
(** ** Sign-up *)

Section SignUp.
Variable format_number : float -> pystr.
Variable sha256_hexdigest : pystr -> pystr.

(** What the loop over the users prints for a name: one message for every
    user of that name. *)
Lemma printed_for_taken_name (name : pystr) (us : list User.t) :
  let printed :=
    flat_map (fun user => if eqb (User.username user) name
                          then [UsernameAlreadyExist] else []) us in
  Forall (fun m => m = UsernameAlreadyExist) printed
  /\ length printed = length (filter (fun u => User.username u = name) us).
Proof.
  induction us as [|u us [IH1 IH2]]; [by split|].
  cbn [flat_map]. rewrite filter_cons.
  destruct (eqb (User.username u) name) eqn:E.
  - apply eqb_true in E. rewrite decide_True by done.
    split; [by constructor|]. simpl. by f_equal.
  - apply eqb_false in E. rewrite decide_False by done. by split.
Qed.

(** The username prompt takes every name of the right shape, taken or not:
    for each user of that name it prints the message and goes on. *)
Lemma sign_up_username_takes_any (us : list User.t) (line : pystr) (rest : list pystr)
  (out : list message) :
  is_empty (strip line) = false -> (2 <= length (strip line))%nat ->
  isalnum (strip line) = true ->
  exists printed,
    sign_up_username us (line :: rest) out = Some (strip line, rest, out ++ printed)
    /\ Forall (fun m => m = UsernameAlreadyExist) printed
    /\ length printed
       = length (filter (fun u => User.username u = strip line) us).
Proof.
  intros He Hl Ha. cbn [sign_up_username]. rewrite He, Ha.
  destruct (Nat.ltb_spec (length (strip line)) 2); [lia|]. cbn [negb].
  eexists. split; [reflexivity|]. apply printed_for_taken_name.
Qed.

(** The email prompt, next to it, does ask again when the address is taken. *)
Lemma sign_up_email_asks_again (us : list User.t) (line : pystr) (rest : list pystr)
  (out : list message) :
  validate_email (lower (strip line)) = true ->
  Exists (fun u => User.email u = lower (strip line)) us ->
  sign_up_email us (line :: rest) out = sign_up_email us rest (out ++ [EmailAlreadyExist]).
Proof.
  intros Hv Hex. simpl. rewrite Hv.
  assert (is_empty (lower (strip line)) = false) as ->.
  { destruct (lower (strip line)); [discriminate Hv|done]. }
  simpl.
  assert (existsb (fun user => eqb (User.email user) (lower (strip line))) us = true) as ->.
  { apply existsb_exists. apply Exists_exists in Hex as (u & Hin & Hu).
    exists u. split; [by apply list_elem_of_In|]. by apply eqb_true. }
  done.
Qed.

(** C5 on the code: in a shop where bob has an account, a visitor who
    types bob, a new address and y is told that the username exists and gets
    an account all the same; the store then holds two users named bob. *)
Theorem sign_up_user_duplicate_username (rng : nat -> nat) :
  exists out g' fs',
    sign_up_user format_number sha256_hexdigest rng
      [str "bob"; str "bob2@shop.ng"; str "y"] signed_out data_dir
    = Some (true, out, g', fs')
    /\ out = [UsernameAlreadyExist; YourPasswordIs (generate_password rng); AccountCreated]
    /\ map User.username (users g') = [str "bob"; str "bob"]
    /\ current_user g' = Some 1%nat
    /\ accounts_txt fs' = Some (save_users_text format_number (users g')).
Proof.
  eexists _, _, _. split; [reflexivity|]. repeat split.
Qed.

End SignUp.

(* ========================================================================= *)
(** * Further properties: the states reached, the files, the account, the menus *)

(* ------------------------------------------------------------------------- *)
(** ** The states a session reaches *)

Lemma insert_set_quantity_ids j it n c :
  c !! j = Some it ->
  map CartItem.product_id (<[j := CartItem.set_quantity n it]> c) = map CartItem.product_id c.
Proof.
  intros Hj. apply list_eq. intros i. rewrite !list_lookup_fmap.
  destruct (decide (i = j)) as [->|Hne].
  - rewrite list_lookup_insert_eq by (by eapply lookup_lt_Some). by rewrite Hj.
  - by rewrite list_lookup_insert_ne.
Qed.

Lemma Forall_insert_stock k p n ps :
  Forall (fun p => 0 <= Product.stock p) ps -> 0 <= n ->
  Forall (fun p => 0 <= Product.stock p) (<[k := Product.set_stock n p]> ps).
Proof. intros H Hn. by apply Forall_insert. Qed.

Lemma restock_nonneg pid n ps :
  Forall (fun p => 0 <= Product.stock p) ps -> 0 <= n ->
  Forall (fun p => 0 <= Product.stock p) (restock pid n ps).
Proof.
  intros H Hn. unfold restock. destruct (find_product pid ps) as [[k p]|] eqn:E; [|done].
  apply find_product_Some in E as [Hk _].
  apply Forall_insert; [done|]. simpl.
  rewrite Forall_lookup in H. specialize (H _ _ Hk). simpl in H. lia.
Qed.

Lemma tidy_lines_ids g c' ps' :
  map Product.id ps' = map Product.id (products g) ->
  Forall (fun it => 1 <= CartItem.quantity it
                    /\ CartItem.product_id it ∈ map Product.id (products g)) c' ->
  Forall (fun it => 1 <= CartItem.quantity it
                    /\ CartItem.product_id it ∈ map Product.id ps') c'.
Proof. intros ->. done. Qed.

Lemma add_to_cart_tidy product g : tidy g -> tidy (add_to_cart product g).2.
Proof.
  intros (Hs & Hl & Hd). unfold add_to_cart.
  destruct (find_product _ _) as [[k p]|] eqn:E; [|done].
  destruct (Z.leb_spec (Product.stock p) 0); [done|]. simpl.
  pose proof E as [Hk Hid]%find_product_Some.
  split; [|split]; simpl.
  - apply Forall_insert_stock; [done|lia].
  - apply (tidy_lines_ids g); [by apply insert_set_stock_ids|].
    destruct (find_item _ _) as [[j it]|] eqn:F.
    + apply list_find_Some in F as (Hj & Hi & _).
      apply Forall_insert; [done|]. simpl.
      rewrite Forall_lookup in Hl. destruct (Hl _ _ Hj) as [Hq Hin]. split; [lia|done].
    + apply Forall_app. split; [done|]. constructor; [|constructor]. simpl.
      split; [lia|]. rewrite <- Hid. apply list_elem_of_fmap. exists p. split; [done|].
      by eapply list_elem_of_lookup_2.
  - destruct (find_item _ _) as [[j it]|] eqn:F.
    + apply list_find_Some in F as (Hj & Hi & _). by rewrite insert_set_quantity_ids.
    + rewrite map_app. simpl. apply NoDup_app. split; [done|]. split.
      * intros x Hx ->%list_elem_of_singleton.
        apply list_elem_of_fmap in Hx as (it & Hit & Hin).
        apply list_find_None in F. rewrite Forall_forall in F. by apply (F it).
      * apply NoDup_singleton.
Qed.

Lemma update_cart_item_tidy i n g : tidy g -> tidy (update_cart_item i n g).2.
Proof.
  intros (Hs & Hl & Hd). unfold update_cart_item.
  destruct (_ || _); [done|].
  destruct (Z.leb_spec n 0); [done|].
  destruct (cart g !! _) as [it|] eqn:Hit; [|done].
  destruct (find_product _ _) as [[k p]|] eqn:E; [|done].
  destruct (_ && _) eqn:Hc; [done|]. simpl.
  pose proof E as [Hk Hid]%find_product_Some.
  split; [|split]; simpl.
  - apply Forall_insert_stock; [done|].
    rewrite Forall_lookup in Hs. specialize (Hs _ _ Hk). simpl in Hs.
    apply andb_false_iff in Hc as [Hc|Hc].
    + destruct (Z.gtb_spec (n - CartItem.quantity it) 0); [done|lia].
    + apply Z.ltb_ge in Hc. lia.
  - apply (tidy_lines_ids g); [by apply insert_set_stock_ids|].
    apply Forall_insert; [done|]. simpl.
    rewrite Forall_lookup in Hl. destruct (Hl _ _ Hit) as [_ Hin]. split; [lia|done].
  - by rewrite insert_set_quantity_ids.
Qed.

Lemma remove_from_cart_tidy i g : tidy g -> tidy (remove_from_cart i g).2.
Proof.
  intros (Hs & Hl & Hd). unfold remove_from_cart.
  destruct (_ || _); [done|].
  destruct (cart g !! _) as [it|] eqn:Hit; [|done]. simpl.
  pose proof Hl as Hl'. rewrite Forall_lookup in Hl'. destruct (Hl' _ _ Hit) as [Hq _].
  split; [|split]; simpl.
  - apply restock_nonneg; [done|lia].
  - apply (tidy_lines_ids g); [apply restock_ids|]. by apply Forall_delete.
  - change (NoDup (CartItem.product_id <$> delete (Z.to_nat i) (cart g))).
    rewrite list_fmap_delete. eapply sublist_NoDup; [exact Hd|apply sublist_delete].
Qed.

Lemma foldl_restock_nonneg c ps :
  Forall (fun it => 1 <= CartItem.quantity it) c ->
  Forall (fun p => 0 <= Product.stock p) ps ->
  Forall (fun p => 0 <= Product.stock p)
    (foldl (fun ps item => restock (CartItem.product_id item) (CartItem.quantity item) ps) ps c).
Proof.
  intros Hc. revert ps. induction Hc as [|it c Hq _ IH]; intros ps Hs; simpl; [done|].
  apply IH. apply restock_nonneg; [done|lia].
Qed.

Lemma clear_cart_tidy g : tidy g -> tidy (clear_cart g).2.
Proof.
  intros Hg. unfold clear_cart.
  destruct (cart g) eqn:E; [done|]. rewrite <- E. simpl.
  destruct Hg as (Hs & Hl & Hd).
  split; [|split]; simpl; [|constructor|constructor].
  apply foldl_restock_nonneg; [|done].
  eapply Forall_impl; [exact Hl|]. by intros it [? _].
Qed.

Lemma call_tidy c g : tidy g -> tidy (call c g).
Proof.
  destruct c; simpl;
    auto using add_to_cart_tidy, remove_from_cart_tidy, update_cart_item_tidy, clear_cart_tidy.
Qed.

Lemma run_tidy calls g : tidy g -> tidy (run calls g).
Proof.
  revert g. induction calls as [|c calls IH]; intros g Hg; simpl; [done|].
  by apply IH, call_tidy.
Qed.

Lemma cart_quantity_nonneg pid c :
  Forall (fun it => 1 <= CartItem.quantity it) c -> 0 <= cart_quantity pid c.
Proof. induction 1 as [|it c Hq _ IH]; simpl; [done|]. case_decide; lia. Qed.

Lemma cart_quantity_line pid c it :
  Forall (fun it => 1 <= CartItem.quantity it) c -> it ∈ c -> CartItem.product_id it = pid ->
  CartItem.quantity it <= cart_quantity pid c.
Proof.
  intros Hc Hin Hid. induction Hc as [|x c Hq Hc IH]; [by apply elem_of_nil in Hin|].
  simpl. apply elem_of_cons in Hin as [<-|Hin].
  - rewrite decide_True by done. pose proof (cart_quantity_nonneg pid c Hc). lia.
  - specialize (IH Hin). case_decide; lia.
Qed.

Section Reachable.
Variable float_of_str : pystr -> option float.

Lemma fresh_session_tidy fs us cu : tidy (fresh_session float_of_str fs us cu).
Proof.
  unfold fresh_session, tidy. simpl. split; [|split; constructor].
  destruct (load_products_fresh float_of_str fs) as [_ H].
  eapply Forall_impl; [exact H|]. simpl. intros p ->. lia.
Qed.

(** From a fresh session the calls keep the state tidy, and every product's
    stock and the units of it in the cart add up to ten. *)
Lemma run_fresh_session_sums (fs : files) (us : list User.t) (cu : option nat)
  (calls : list cart_call) :
  let g := run calls (fresh_session float_of_str fs us cu) in
  tidy g
  /\ forall p, p ∈ products g ->
               Product.stock p + cart_quantity (Product.id p) (cart g) = 10.
Proof.
  simpl.
  set (g0 := fresh_session float_of_str fs us cu). set (g := run calls g0).
  split; [apply run_tidy, fresh_session_tidy|].
  assert (conserved (products g0) g) as Hc.
  { apply run_conserved; [apply load_products_NoDup|apply conserved_start]. }
  assert (Forall (fun p0 => Product.stock p0 = 10) (products g0)) as H10
      by apply load_products_fresh.
  unfold conserved in Hc.
  intros p Hp. apply list_elem_of_lookup in Hp as [i Hi].
  destruct (Forall2_lookup_r _ _ _ _ _ Hc Hi) as (p0 & Hp0 & _ & Heq).
  rewrite Forall_lookup in H10. specialize (H10 _ _ Hp0). simpl in H10. lia.
Qed.

Lemma run_fresh_session_quantities (fs : files) (us : list User.t) (cu : option nat)
  (calls : list cart_call) :
  Forall (fun it => 1 <= CartItem.quantity it <= 10)
         (cart (run calls (fresh_session float_of_str fs us cu))).
Proof.
  destruct (run_fresh_session_sums fs us cu calls) as ((Hs & Hl & _) & Hsum).
  set (g := run calls (fresh_session float_of_str fs us cu)) in *.
  assert (Forall (fun it => 1 <= CartItem.quantity it) (cart g)) as Hq.
  { eapply Forall_impl; [exact Hl|]. by intros it [? _]. }
  apply Forall_forall. intros it Hit.
  rewrite Forall_forall in Hl. destruct (Hl it Hit) as [H1 Hin].
  split; [done|].
  apply list_elem_of_fmap in Hin as (p & Hid & Hp).
  specialize (Hsum p Hp). rewrite Forall_forall in Hs. specialize (Hs p Hp).
  pose proof (cart_quantity_line (Product.id p) (cart g) it Hq Hit Hid). lia.
Qed.

(** X1. In every state that calls of the cart interface reach from a freshly
    loaded inventory, whatever their arguments, the stock of every product lies
    between 0 and 10 and every cart line holds between 1 and 10 units. *)
Theorem reachable_stock_and_quantities (fs : files) (us : list User.t) (cu : option nat)
  (calls : list cart_call) :
  let g := run calls (fresh_session float_of_str fs us cu) in
  Forall (fun p => 0 <= Product.stock p <= 10) (products g)
  /\ Forall (fun it => 1 <= CartItem.quantity it <= 10) (cart g).
Proof.
  simpl. split; [|apply run_fresh_session_quantities].
  destruct (run_fresh_session_sums fs us cu calls) as ((Hs & Hl & _) & Hsum).
  set (g := run calls (fresh_session float_of_str fs us cu)) in *.
  assert (Forall (fun it => 1 <= CartItem.quantity it) (cart g)) as Hq.
  { eapply Forall_impl; [exact Hl|]. by intros it [? _]. }
  apply Forall_forall. intros p Hp.
  rewrite Forall_forall in Hs. specialize (Hs p Hp). specialize (Hsum p Hp).
  pose proof (cart_quantity_nonneg (Product.id p) (cart g) Hq). lia.
Qed.

(** X2. In every such state no two cart lines name the same product, every
    line names a product of the inventory, and the cart has no more lines than
    the inventory has products. *)
Theorem reachable_cart_lines (fs : files) (us : list User.t) (cu : option nat)
  (calls : list cart_call) :
  let g := run calls (fresh_session float_of_str fs us cu) in
  NoDup (map CartItem.product_id (cart g))
  /\ Forall (fun it => exists n, stock_of (CartItem.product_id it) (products g) = Some n)
            (cart g)
  /\ (length (cart g) <= length (products g))%nat.
Proof.
  simpl.
  set (g0 := fresh_session float_of_str fs us cu). set (g := run calls g0).
  destruct (run_tidy calls g0 (fresh_session_tidy fs us cu)) as (_ & Hl & Hd). fold g in Hl, Hd.
  split; [done|]. split.
  - eapply Forall_impl; [exact Hl|]. intros it [_ Hin]. simpl in Hin.
    unfold stock_of. destruct (find_product _ _) as [[k p]|] eqn:E; [eauto|].
    apply find_product_None in E. apply list_elem_of_fmap in Hin as (p & Hid & Hp).
    rewrite Forall_forall in E. by destruct (E p Hp).
  - rewrite <- (length_map CartItem.product_id), <- (length_map Product.id (products g)).
    apply submseteq_length, NoDup_submseteq; [done|].
    intros x (it & -> & Hit)%list_elem_of_fmap.
    rewrite Forall_forall in Hl. by destruct (Hl it Hit).
Qed.
End Reachable.

(** *** How the cart calls compose *)

Lemma float_of_int_small n : 1 <= n <= 10 -> exists x, PyNum.float_of_int n = Some x.
Proof.
  intros Hn.
  assert (n = 1 \/ n = 2 \/ n = 3 \/ n = 4 \/ n = 5 \/ n = 6 \/ n = 7 \/ n = 8 \/ n = 9 \/ n = 10)
    as H by lia.
  repeat (destruct H as [->|H]; [eexists; reflexivity|]). subst. eexists; reflexivity.
Qed.

Lemma view_cart_small_quantities g :
  Forall (fun it => 1 <= CartItem.quantity it <= 10) (cart g) ->
  exists total, view_cart g = Some total.
Proof.
  unfold view_cart. intros H. destruct (cart g) as [|it0 c0] eqn:E; [eauto|]. rewrite <- E in *.
  clear E. generalize 0%float as acc. induction H as [|it c Hq _ IH]; intros acc; simpl; [eauto|].
  destruct (float_of_int_small _ Hq) as [x Hx]. unfold PyNum.mul_int. rewrite Hx. simpl. apply IH.
Qed.

(** X3. In every such state [view_cart] returns a total: no quantity is too
    large for the product [price * quantity], so the OverflowError cannot occur. *)
Theorem view_cart_total_exists (float_of_str : pystr -> option float) (fs : files)
  (us : list User.t) (cu : option nat) (calls : list cart_call) :
  exists total, view_cart (run calls (fresh_session float_of_str fs us cu)) = Some total.
Proof.
  apply view_cart_small_quantities.
  apply (run_fresh_session_quantities float_of_str fs us cu calls).
Qed.

Lemma set_stock_same p n : n = Product.stock p -> Product.set_stock n p = p.
Proof. intros ->. by destruct p. Qed.
Lemma globals_eq g us cu c ps :
  users g = us -> current_user g = cu -> cart g = c -> products g = ps -> Globals us cu c ps = g.
Proof. destruct g. simpl. by intros -> -> -> ->. Qed.

(** X4. An [add_to_cart] that took a unit is taken back by the cart's own
    calls. When the product had no line, removing the line that was appended
    gives the state before the call; when it had a line, setting that line's
    quantity to what it was does. *)
Theorem add_to_cart_undone (product : Product.t) (g : globals) (n : Z) :
  stock_of (Product.id product) (products g) = Some n -> 0 < n ->
  let g' := (add_to_cart product g).2 in
  match find_item (Product.id product) (cart g) with
  | None => remove_from_cart (Z.of_nat (length (cart g))) g' = (true, g)
  | Some (j, item) =>
      0 < CartItem.quantity item ->
      update_cart_item (Z.of_nat j) (CartItem.quantity item) g' = (true, UpdatedQuantity, g)
  end.
Proof.
  intros (k & p & E & <-)%stock_of_Some Hpos. simpl. unfold add_to_cart. rewrite E.
  destruct (Z.leb_spec (Product.stock p) 0); [lia|]. simpl.
  pose proof E as [Hk Hid]%find_product_Some.
  pose proof (lookup_lt_Some _ _ _ Hk) as Hlt.
  destruct (find_item _ _) as [[j item]|] eqn:F.
  - intros Hq. apply list_find_Some in F as (Hj & Hi & _).
    pose proof (lookup_lt_Some _ _ _ Hj) as Hjl.
    unfold update_cart_item. simpl. rewrite length_insert.
    destruct (Z.ltb_spec (Z.of_nat j) 0); [lia|].
    destruct (Z.geb_spec (Z.of_nat j) (Z.of_nat (length (cart g)))); [lia|]. simpl.
    destruct (Z.leb_spec (CartItem.quantity item) 0); [lia|].
    rewrite Nat2Z.id, list_lookup_insert_eq by done. simpl. rewrite Hi.
    rewrite (find_product_insert _ _ _ _ _ E). simpl.
    destruct (Z.gtb_spec (CartItem.quantity item - (CartItem.quantity item + 1)) 0); [lia|].
    simpl. f_equal. unfold set_products, set_cart. simpl.
    apply globals_eq; try done.
    + symmetry. rewrite list_insert_insert_eq. apply list_insert_id.
      rewrite Hj. f_equal. by destruct item.
    + symmetry. rewrite list_insert_insert_eq. apply list_insert_id.
      rewrite Hk. f_equal. symmetry. apply (set_stock_same p). simpl. lia.
  - unfold remove_from_cart. simpl. rewrite length_app. simpl.
    destruct (Z.ltb_spec (Z.of_nat (length (cart g))) 0); [lia|].
    destruct (Z.geb_spec (Z.of_nat (length (cart g))) (Z.of_nat (length (cart g) + 1))); [lia|].
    simpl. rewrite Nat2Z.id.
    rewrite lookup_app_r by done. rewrite Nat.sub_diag. simpl.
    f_equal. unfold set_products, set_cart. simpl.
    apply globals_eq; try done.
    + symmetry. rewrite delete_middle. apply app_nil_r.
    + symmetry. unfold restock. rewrite (find_product_insert _ _ _ _ _ E). simpl.
      rewrite list_insert_insert_eq. apply list_insert_id.
      rewrite Hk. f_equal. symmetry. apply (set_stock_same p). simpl. lia.
Qed.

(** X5. [clear_cart] leaves the state that [remove_from_cart(0)] leaves when
    it is called once for every line of the cart. *)
Theorem clear_cart_removes_line_by_line (g : globals) :
  (clear_cart g).2 = run (replicate (length (cart g)) (RemoveFromCart 0)) g.
Proof.
  destruct g as [us cu c ps]. unfold clear_cart. simpl.
  destruct c as [|it0 c0] eqn:Ec; [done|]. rewrite <- Ec. clear Ec it0 c0.
  unfold set_products, set_cart. simpl.
  revert ps. induction c as [|it c IH]; intros ps; [done|].
  change (replicate (length (it :: c)) (RemoveFromCart 0))
    with (RemoveFromCart 0 :: replicate (length c) (RemoveFromCart 0)).
  cbn [run foldl call]. unfold remove_from_cart. cbn [cart length].
  destruct (Z.geb_spec 0 (Z.of_nat (S (length c)))); [lia|].
  rewrite (IH (restock (CartItem.product_id it) (CartItem.quantity it) ps)). reflexivity.
Qed.

(** X6. [remove_from_cart] with an index outside the cart returns False and
    changes nothing. With an index inside the cart whose line names a product of
    the inventory, that product's stock grows by the line's quantity, the stock
    of every other id stays, and the cart holds that many units of it less. *)
Theorem remove_from_cart_returns_units (item_index : Z) (g : globals) :
  let r := remove_from_cart item_index g in
  ((item_index < 0 \/ Z.of_nat (length (cart g)) <= item_index) -> r = (false, g))
  /\ (forall item n,
        0 <= item_index -> cart g !! Z.to_nat item_index = Some item ->
        stock_of (CartItem.product_id item) (products g) = Some n ->
        stock_of (CartItem.product_id item) (products r.2) = Some (n + CartItem.quantity item)
        /\ (forall q, q <> CartItem.product_id item ->
                      stock_of q (products r.2) = stock_of q (products g))
        /\ cart_quantity (CartItem.product_id item) (cart r.2)
           = cart_quantity (CartItem.product_id item) (cart g) - CartItem.quantity item).
Proof.
  simpl. unfold remove_from_cart. split.
  - intros H. destruct (Z.ltb_spec item_index 0); [done|].
    destruct (Z.geb_spec item_index (Z.of_nat (length (cart g)))); [done|lia].
  - intros item n Hi Hit (k & p & E & <-)%stock_of_Some.
    pose proof (lookup_lt_Some _ _ _ Hit) as Hlen.
    destruct (Z.ltb_spec item_index 0); [lia|].
    destruct (Z.geb_spec item_index (Z.of_nat (length (cart g)))); [lia|]. simpl.
    rewrite Hit. simpl. rewrite (restock_found _ _ _ _ _ E).
    pose proof E as [Hk Hid]%find_product_Some.
    split; [|split].
    + unfold stock_of. by rewrite (find_product_insert _ _ _ _ _ E).
    + intros q Hq. unfold stock_of.
      by rewrite (find_product_insert_other q _ _ _ _ _ Hk Hid Hq).
    + rewrite (cart_quantity_delete _ _ _ _ Hit). by rewrite decide_True.
Qed.

(** X7. When no two products share an id, [clear_cart] empties the cart and
    the stock of every product grows by exactly the units of it that the cart
    held. *)
Theorem clear_cart_returns_every_unit (g : globals) :
  well_keyed g ->
  let g' := (clear_cart g).2 in
  cart g' = []
  /\ Forall2 (fun p p' =>
                Product.id p' = Product.id p
                /\ Product.stock p' = Product.stock p + cart_quantity (Product.id p) (cart g))
             (products g) (products g').
Proof.
  intros Hk. simpl. split.
  { unfold clear_cart. by destruct (cart g) eqn:E. }
  set (initial := map (fun p => Product.set_stock
                          (Product.stock p + cart_quantity (Product.id p) (cart g)) p)
                      (products g)).
  assert (conserved initial g) as Hc.
  { unfold conserved, initial. apply Forall2_fmap_l, Forall_Forall2_diag.
    apply Forall_forall. intros p _. simpl. split; [done|lia]. }
  apply (clear_cart_conserved initial g Hk) in Hc.
  assert (cart (clear_cart g).2 = []) as Hempty.
  { unfold clear_cart. by destruct (cart g) eqn:E. }
  unfold conserved in Hc. rewrite Hempty in Hc. unfold initial in Hc.
  apply Forall2_fmap_l in Hc. eapply Forall2_impl; [exact Hc|].
  simpl. intros p p' [Hid Hs]. split; [done|lia].
Qed.

Lemma update_cart_item_granted item_id q g item k p :
  0 <= item_id -> cart g !! Z.to_nat item_id = Some item -> 0 < q ->
  find_product (CartItem.product_id item) (products g) = Some (k, p) ->
  (q - CartItem.quantity item <= 0 \/ q - CartItem.quantity item <= Product.stock p) ->
  update_cart_item item_id q g = (true, UpdatedQuantity, updated item_id q item k p g).
Proof.
  intros Hi Hit Hq E Hs. unfold update_cart_item.
  pose proof (lookup_lt_Some _ _ _ Hit) as Hlen.
  destruct (Z.ltb_spec item_id 0); [lia|].
  destruct (Z.geb_spec item_id (Z.of_nat (length (cart g)))); [lia|]. simpl.
  destruct (Z.leb_spec q 0); [lia|]. rewrite Hit, E.
  destruct (Z.gtb_spec (q - CartItem.quantity item) 0);
    destruct (Z.ltb_spec (Product.stock p) (q - CartItem.quantity item)); simpl; try done; lia.
Qed.

Lemma update_cart_item_granted_inv item_id q g :
  (update_cart_item item_id q g).1.1 = true ->
  exists item k p,
    0 <= item_id /\ cart g !! Z.to_nat item_id = Some item /\ 0 < q
    /\ find_product (CartItem.product_id item) (products g) = Some (k, p)
    /\ (q - CartItem.quantity item <= 0 \/ q - CartItem.quantity item <= Product.stock p).
Proof.
  unfold update_cart_item.
  destruct (Z.ltb_spec item_id 0); [done|].
  destruct (Z.geb_spec item_id (Z.of_nat (length (cart g)))); [done|]. simpl.
  destruct (Z.leb_spec q 0); [done|].
  destruct (cart g !! Z.to_nat item_id) as [item|] eqn:Hit; [|done].
  destruct (find_product _ _) as [[k p]|] eqn:E; [|done].
  destruct (Z.gtb_spec (q - CartItem.quantity item) 0);
    destruct (Z.ltb_spec (Product.stock p) (q - CartItem.quantity item)); simpl; try done;
    intros _; exists item, k, p; repeat split; try done; lia.
Qed.

(** X8. Two granted updates of the same line amount to the second one alone:
    the result, the message and the whole state are those of calling
    [update_cart_item] once with the second quantity. *)
Theorem update_cart_item_twice (item_id q q' : Z) (g : globals) :
  (update_cart_item item_id q g).1.1 = true ->
  (update_cart_item item_id q' (update_cart_item item_id q g).2).1.1 = true ->
  update_cart_item item_id q' (update_cart_item item_id q g).2 = update_cart_item item_id q' g.
Proof.
  intros (item & k & p & Hi & Hit & Hq & E & Hs)%update_cart_item_granted_inv.
  rewrite (update_cart_item_granted _ _ _ _ _ _ Hi Hit Hq E Hs). simpl.
  pose proof (lookup_lt_Some _ _ _ Hit) as Hlen.
  intros (item' & k' & p' & _ & Hit' & Hq' & E' & Hs')%update_cart_item_granted_inv.
  unfold updated in Hit', E', Hs'. simpl in Hit', E', Hs'.
  rewrite list_lookup_insert_eq in Hit' by done. injection Hit' as <-. simpl in *.
  rewrite (find_product_insert _ _ _ _ _ E) in E'. injection E' as <- <-. simpl in Hs'.
  rewrite (update_cart_item_granted item_id q' (updated item_id q item k p g)
             (CartItem.set_quantity q item) k
             (Product.set_stock (Product.stock p - (q - CartItem.quantity item)) p));
    try done.
  - rewrite (update_cart_item_granted item_id q' g item k p); try done;
      [|destruct Hs as [Hs|Hs], Hs' as [Hs'|Hs']; [left|right|right|right]; lia].
    unfold updated. simpl. rewrite !list_insert_insert_eq. do 3 f_equal.
    unfold Product.set_stock. simpl. f_equal. lia.
  - unfold updated. simpl. by apply list_lookup_insert_eq.
  - unfold updated. simpl. by apply find_product_insert.
Qed.

Lemma add_to_cart_undone_witness :
  update_cart_item 0 1 (add_to_cart apple demo_session).2 = (true, UpdatedQuantity, demo_session)
  /\ remove_from_cart 0 (add_to_cart apple signed_out).2 = (true, signed_out).
Proof.
  split.
  - exact (add_to_cart_undone apple demo_session 9 eq_refl eq_refl eq_refl).
  - exact (add_to_cart_undone apple signed_out 9 eq_refl eq_refl).
Defined.

Lemma remove_from_cart_returns_units_witness :
  stock_of 1 (products (remove_from_cart 0 demo_session).2) = Some (9 + 1)
  /\ cart_quantity 1 (cart (remove_from_cart 0 demo_session).2)
     = cart_quantity 1 (cart demo_session) - 1.
Proof.
  destruct (proj2 (remove_from_cart_returns_units 0 demo_session) apple_line 9
              ltac:(done) eq_refl eq_refl) as (H1 & _ & H2).
  exact (conj H1 H2).
Defined.

Lemma clear_cart_returns_every_unit_witness :
  well_keyed demo_session
  /\ cart (clear_cart demo_session).2 = []
  /\ Forall2 (fun p p' =>
                Product.id p' = Product.id p
                /\ Product.stock p' = Product.stock p + cart_quantity (Product.id p)
                                                          (cart demo_session))
             (products demo_session) (products (clear_cart demo_session).2).
Proof.
  assert (well_keyed demo_session) as H by apply NoDup_singleton.
  exact (conj H (clear_cart_returns_every_unit demo_session H)).
Defined.

Lemma update_cart_item_twice_witness :
  update_cart_item 0 2 (update_cart_item 0 5 demo_session).2 = update_cart_item 0 2 demo_session.
Proof. exact (update_cart_item_twice 0 5 2 demo_session eq_refl eq_refl). Defined.

(* ------------------------------------------------------------------------- *)
(** ** The data files and the checkout, further *)

(** *** What [strip] keeps *)

Lemma lstrip_suffix s : exists l, s = l ++ lstrip s /\ Forall (fun c => isspace c = true) l.
Proof.
  induction s as [|c s (l & E & F)]; [by exists []|]. simpl.
  destruct (isspace c) eqn:Ec; [|by exists []].
  exists (c :: l). split; [by rewrite E at 1|by constructor].
Qed.

Lemma rstrip_prefix s : exists r, s = rstrip s ++ r /\ Forall (fun c => isspace c = true) r.
Proof.
  destruct (lstrip_suffix (rev s)) as (l & E & F). exists (rev l). split.
  - unfold rstrip. rewrite <- rev_app_distr, <- E. by rewrite rev_involutive.
  - by apply Forall_rev.
Qed.

Lemma strip_middle s :
  exists l r, s = l ++ strip s ++ r
              /\ Forall (fun c => isspace c = true) l /\ Forall (fun c => isspace c = true) r.
Proof.
  destruct (lstrip_suffix s) as (l & E & F), (rstrip_prefix (lstrip s)) as (r & E' & F').
  exists l, r. unfold strip. by rewrite <- E', <- E.
Qed.

Lemma Forall_strip (P : ascii -> Prop) s : Forall P s -> Forall P (strip s).
Proof.
  destruct (strip_middle s) as (l & r & E & _). rewrite E at 1.
  by intros [_ [H _]%Forall_app]%Forall_app.
Qed.

Lemma strip_strip s : strip (strip s) = strip s.
Proof.
  unfold strip at 2 3.
  destruct (lstrip_cases s) as [->|(c & t & -> & Hc)]; [done|].
  destruct (rstrip_prefix (c :: t)) as (r & E & _).
  destruct (rstrip_cases (c :: t)) as [E'|(s' & d & E' & Hd)].
  - by rewrite E'.
  - rewrite E' in *. apply (strip_tight _ c d); [|done..].
    destruct s' as [|c' m]; simpl in E; injection E as -> _; [by left|right; by exists m].
Qed.

(** *** The pieces of [split] and the lines of a text *)

Lemma split_pieces (P : ascii -> Prop) sep s :
  Forall P s -> Forall (Forall (fun c => P c /\ c <> sep)) (split sep s).
Proof.
  induction 1 as [|c s Hc _ IH]; simpl; [by repeat constructor|].
  destruct (Ascii.eqb_spec c sep) as [->|Hne]; [by constructor|].
  destruct (split sep s) as [|w ws]; [by repeat constructor|].
  inversion IH; subst. constructor; [by constructor|done].
Qed.

Lemma lines_pieces (P : ascii -> Prop) s :
  Forall P s -> Forall (Forall (fun c => P c /\ c <> LF)) (lines s).
Proof.
  induction 1 as [|c s Hc _ IH]; simpl; [by constructor|].
  destruct (Ascii.eqb_spec c LF) as [->|Hne]; [by constructor|].
  destruct (lines s) as [|w ws]; [by repeat constructor|].
  inversion IH; subst. constructor; [by constructor|done].
Qed.

Lemma universal_newlines_no_CR after_cr s :
  Forall (fun c => c <> CR) (universal_newlines after_cr s).
Proof.
  revert after_cr. induction s as [|c s IH]; intros after_cr; simpl; [done|].
  destruct (Ascii.eqb_spec c CR) as [->|Hne]; [by constructor|].
  destruct (Ascii.eqb_spec c LF) as [->|Hne']; [destruct after_cr|]; try constructor; auto.
Qed.

Lemma readlines_pieces text :
  Forall (Forall (fun c => c <> CR /\ c <> LF)) (readlines text).
Proof. apply lines_pieces, universal_newlines_no_CR. Qed.

Section LoadUsers.
Variable float_of_str : pystr -> option float.

(** A record that [load_users] takes from a line of text without line
    breaks has three clean fields and a balance that is not negative, read from
    a text without commas and line breaks. *)
Lemma load_users_line_clean line u :
  Forall (fun c => c <> CR /\ c <> LF) line ->
  load_users_line float_of_str line = Some u ->
  clean (User.username u) /\ clean (User.email u) /\ clean (User.password_hash u)
  /\ PyNum.negative (User.balance u) = false
  /\ exists text, Forall plain text /\ float_of_str (strip text) = Some (User.balance u).
Proof.
  intros Hl. unfold load_users_line.
  destruct (is_empty (strip line)); [done|].
  pose proof (split_pieces _ ","%char _ (Forall_strip _ _ Hl)) as Hp.
  destruct (split "," (strip line)) as [|a [|b [|c [|d [|]]]]]; try done.
  apply Forall_cons in Hp as [Ha Hp]. apply Forall_cons in Hp as [Hb Hp].
  apply Forall_cons in Hp as [Hc Hp]. apply Forall_cons in Hp as [Hd _].
  destruct (is_empty (strip a)) eqn:Ea; [done|].
  destruct (is_empty (strip b)) eqn:Eb; [done|].
  destruct (is_empty (strip c)) eqn:Ec; [done|]. simpl.
  destruct (float_of_str (strip d)) as [x|] eqn:Ex; [|done].
  destruct (PyNum.negative x) eqn:En; [done|]. intros [= <-]. simpl.
  assert (forall w, Forall (fun c => (c <> CR /\ c <> LF) /\ c <> ","%char) w ->
                    is_empty (strip w) = false -> clean (strip w)) as Hclean.
  { intros w Hw Hn. split; [by destruct (strip w)|]. split; [apply strip_strip|].
    apply Forall_strip. eapply Forall_impl; [exact Hw|]. intros ? [[??]?]. by repeat split. }
  do 3 (split; [by apply Hclean|]). split; [done|].
  exists d. split; [|done]. eapply Forall_impl; [exact Hd|]. intros ? [[??]?]. by repeat split.
Qed.

Lemma load_users_elem fs u :
  u ∈ load_users float_of_str fs ->
  exists line, Forall (fun c => c <> CR /\ c <> LF) line
               /\ load_users_line float_of_str line = Some u.
Proof.
  unfold load_users. destruct (accounts_txt fs) as [text|]; [|by intros ?%elem_of_nil].
  intros (line & Hin & E)%list_elem_of_omap. exists line. split; [|done].
  pose proof (readlines_pieces text) as H. rewrite Forall_forall in H. by apply H.
Qed.

(** X9. Every record that [load_users] takes from the accounts file has a
    username, an email and a password hash that are not empty, have no blank at
    either end and hold no comma and no line break, and a balance that is not
    negative and was read by [float] from a text without comma and line break. *)
Theorem load_users_records (fs : files) (u : User.t) :
  u ∈ load_users float_of_str fs ->
  clean (User.username u) /\ clean (User.email u) /\ clean (User.password_hash u)
  /\ PyNum.negative (User.balance u) = false
  /\ exists text, Forall plain text /\ float_of_str (strip text) = Some (User.balance u).
Proof.
  intros (line & Hl & E)%load_users_elem.
  by apply (load_users_line_clean line).
Qed.

Section SaveAgain.
Variable format_number : float -> pystr.

(** X10. Loading, saving and loading again gives the same users, provided
    each balance that was loaded is written as a clean text that [float] reads
    back to the same number. *)
Theorem load_save_load (fs fs' : files) (cu : option nat) (c : list CartItem.t)
  (ps : list Product.t) :
  Forall (fun u => clean (format_number (User.balance u))
                   /\ float_of_str (format_number (User.balance u)) = Some (User.balance u))
         (load_users float_of_str fs) ->
  save_users format_number (Globals (load_users float_of_str fs) cu c ps) fs = Some fs' ->
  load_users float_of_str fs' = load_users float_of_str fs.
Proof.
  intros Hb. unfold save_users, write_accounts. simpl.
  destruct (writable fs); [|done]. intros [= <-]. unfold load_users at 1. simpl.
  apply load_users_lines. rewrite Forall_forall in Hb. apply Forall_forall. intros u Hu.
  destruct (Hb u Hu) as [Hc Hf].
  destruct (load_users_elem _ _ Hu) as (line & Hl & E).
  destruct (load_users_line_clean _ _ Hl E) as (H1 & H2 & H3 & H4 & _).
  exact (conj H1 (conj H2 (conj H3 (conj Hc (conj Hf H4))))).
Qed.

End SaveAgain.
End LoadUsers.

Lemma load_users_records_witness :
  bob ∈ load_users Reference.float_of_str ledger
  /\ clean (User.username bob) /\ clean (User.email bob) /\ clean (User.password_hash bob)
  /\ PyNum.negative (User.balance bob) = false.
Proof.
  assert (bob ∈ load_users Reference.float_of_str ledger) as H by (by left).
  destruct (load_users_records Reference.float_of_str ledger bob H) as (H1 & H2 & H3 & H4 & _).
  exact (conj H (conj H1 (conj H2 (conj H3 H4)))).
Defined.

Lemma load_save_load_witness :
  exists fs',
    save_users Reference.format_number
      (Globals (load_users Reference.float_of_str ledger) None [] []) ledger = Some fs'
    /\ accounts_txt fs' = Some (str "bob,bob@shop.ng,5e88,100.0" ++ [LF])
    /\ load_users Reference.float_of_str fs' = load_users Reference.float_of_str ledger.
Proof.
  eexists. split; [reflexivity|]. split; [reflexivity|].
  apply (load_save_load Reference.float_of_str Reference.format_number ledger _ None [] []);
    [|reflexivity].
  repeat constructor; by vm_compute.
Defined.

(** *** Checkout, further *)

Section CheckoutMore.
Variable format_number : float -> pystr.

(** What a write that raised leaves: the listing as it was, and the file
    untouched or cut. *)
Lemma interrupted_cases (text : pystr) (fs : files) :
  listing (interrupted text fs) = listing fs
  /\ (interrupted text fs = fs
      \/ exists n, cut fs = Some n /\ accounts_txt (interrupted text fs) = Some (take n text)).
Proof. unfold interrupted. destruct (cut fs) as [n|]; simpl; eauto. Qed.


Lemma checkout_paid_cart (confirm : pystr) (now : Z) (g g' : globals) (fs fs' : files) :
  checkout format_number confirm now g fs = Some (PurchaseSuccessful now, g', fs') ->
  cart g' = [].
Proof.
  unfold checkout. destruct (view_cart g) as [total|]; [|done]. simpl.
  destruct (PyNum.is_zero total); [done|].
  destruct (current_user g) as [k|]; [|done]. simpl.
  destruct (users g !! k) as [user|]; [|done]. simpl.
  destruct (PyNum.gt total (User.balance user)); [done|].
  destruct (eqb _ _); [|done].
  destruct (save_users _ _ _); [|done]. by intros [= <- <-].
Qed.

(** X12. A cart is paid once: right after a successful [checkout], a second
    [checkout] finds the cart empty and changes nothing, whatever is typed. *)
Theorem checkout_paid_once (confirm confirm' : pystr) (now now' : Z) (g g' : globals)
  (fs fs' : files) :
  checkout format_number confirm now g fs = Some (PurchaseSuccessful now, g', fs') ->
  checkout format_number confirm' now' g' fs' = Some (CartIsEmpty, g', fs').
Proof.
  intros E%checkout_paid_cart. unfold checkout, view_cart. by rewrite E.
Qed.

End CheckoutMore.


Lemma checkout_paid_once_witness :
  checkout Reference.format_number (str "y") 1700000000 demo_session data_dir
  = Some (PurchaseSuccessful 1700000000,
          Globals [User.set_balance 50 bob] (Some 0%nat) [] [apple],
          Files (Some (str "bob,bob@shop.ng,5e88,50.0" ++ [LF])) true [])
  /\ checkout Reference.format_number (str "y") 1700000060
       (Globals [User.set_balance 50 bob] (Some 0%nat) [] [apple])
       (Files (Some (str "bob,bob@shop.ng,5e88,50.0" ++ [LF])) true [])
     = Some (CartIsEmpty, Globals [User.set_balance 50 bob] (Some 0%nat) [] [apple],
             Files (Some (str "bob,bob@shop.ng,5e88,50.0" ++ [LF])) true []).
Proof.
  assert (checkout Reference.format_number (str "y") 1700000000 demo_session data_dir
          = Some (PurchaseSuccessful 1700000000,
                  Globals [User.set_balance 50 bob] (Some 0%nat) [] [apple],
                  Files (Some (str "bob,bob@shop.ng,5e88,50.0" ++ [LF])) true [])) as E
    by reflexivity.
  split; [exact E|]. exact (checkout_paid_once _ _ (str "y") _ 1700000060 _ _ _ _ E).
Defined.

(** *** The inventory, further *)

Section InventoryMore.
Variable float_of_str : pystr -> option float.

Lemma load_products_items_names items n acc :
  trimmed_names acc -> trimmed_names (load_products_items float_of_str items n acc).1.
Proof.
  revert n acc. induction items as [|item items IH]; intros n acc Hacc; simpl; [done|].
  destruct (is_empty item); [by apply IH|].
  destruct (load_products_item float_of_str item) as [[name price]|] eqn:E; [|by apply IH].
  apply IH. apply Forall_app. split; [done|]. constructor; [|done]. simpl.
  unfold load_products_item in E.
  destruct (split ":" item) as [|a [|b [|]]]; try done.
  destruct (float_of_str (strip b)); [|done]. injection E as <- _. apply strip_strip.
Qed.

Lemma load_products_files_names contents n acc :
  trimmed_names acc -> trimmed_names (load_products_files float_of_str contents n acc).
Proof.
  revert n acc. induction contents as [|[text|] rest IH]; intros n acc Hacc; simpl; auto.
  destruct (is_empty _); [by apply IH|].
  pose proof (load_products_items_names
                (split ";" (strip (universal_newlines false text))) n acc Hacc) as H.
  destruct (load_products_items _ _ _ _) as [acc' n']. by apply IH.
Qed.

(** X13. The product at position k (from 0) of the inventory that
    [load_products] builds has id k + 1 and a stock of 10, its name has no blank
    at either end, and looking up id k + 1 finds exactly that product. *)
Theorem load_products_numbering (fs : files) (k : nat) (p : Product.t) :
  load_products float_of_str fs !! k = Some p ->
  Product.id p = Z.of_nat k + 1 /\ Product.stock p = 10
  /\ strip (Product.name p) = Product.name p
  /\ find_product (Z.of_nat k + 1) (load_products float_of_str fs) = Some (k, p).
Proof.
  intros Hk. destruct (load_products_fresh float_of_str fs) as [Hids Hstock].
  assert (forall j q, load_products float_of_str fs !! j = Some q ->
                      Product.id q = Z.of_nat j + 1) as Hid.
  { intros j q Hj.
    assert (map Product.id (load_products float_of_str fs) !! j = Some (Product.id q)) as H
      by (change (map Product.id ?l) with (Product.id <$> l); by rewrite list_lookup_fmap, Hj).
    rewrite Hids in H. apply lookup_seqZ in H as [-> _]. lia. }
  split; [by apply Hid|]. split.
  { rewrite Forall_forall in Hstock. apply Hstock. by eapply list_elem_of_lookup_2. }
  split.
  { pose proof (load_products_files_names
                  (map snd (filter (fun f => startswith (str "warehouse") (fst f)
                                             && endswith (str ".txt") (fst f) = true)
                                   (listing fs))) 1 [] (Forall_nil_2 _)) as H.
    unfold trimmed_names in H. rewrite Forall_forall in H. apply H.
    by eapply list_elem_of_lookup_2. }
  apply list_find_Some. split; [done|]. split; [by apply Hid|].
  intros j q Hj Hlt. rewrite (Hid j q Hj). lia.
Qed.

End InventoryMore.

Lemma load_products_numbering_witness :
  load_products Reference.float_of_str shelf !! 1%nat
  = Some (Product.Make 2 (str "Banana") 50 10)
  /\ find_product 2 (load_products Reference.float_of_str shelf)
     = Some (1%nat, Product.Make 2 (str "Banana") 50 10).
Proof.
  assert (load_products Reference.float_of_str shelf !! 1%nat
          = Some (Product.Make 2 (str "Banana") 50 10)) as E by reflexivity.
  split; [exact E|].
  exact (proj2 (proj2 (proj2 (load_products_numbering Reference.float_of_str shelf 1 _ E)))).
Defined.

(** *** The password policy on a trimmed input *)

(** X14. On a trimmed input, which is what sign-up and [change_password]
    hand over, [validate_password] is exactly the policy: one line of at least
    16 characters with an upper-case letter, a lower-case letter, a digit and
    one of the characters #?!@$%^&*-. *)
Theorem validate_password_trimmed (line : pystr) :
  let password := strip line in
  validate_password password = true <->
  one_line password /\ (16 <= length password)%nat
  /\ has is_upper password /\ has is_lower password
  /\ has is_digit password /\ has is_special password.
Proof.
  simpl. rewrite validate_password_policy. split.
  - intros (w & tail & E & [->| ->] & H).
    + rewrite app_nil_r in E. by rewrite E.
    + pose proof (strip_strip line) as Hs. rewrite E in Hs.
      by apply strip_fixed_last in Hs.
  - intros H. exists (strip line), []. rewrite app_nil_r. by split; [|split; [left|]].
Qed.

(* ------------------------------------------------------------------------- *)
(** ** Sign-up and sign-in *)

(** *** What the prompts of [sign_up_user] let through *)

Lemma sign_up_username_result us inputs out name rest out' :
  sign_up_username us inputs out = Some (name, rest, out') ->
  (exists line, name = strip line)
  /\ (2 <= length name)%nat /\ isalnum name = true.
Proof.
  revert out. induction inputs as [|line inputs IH]; intros out; simpl; [done|].
  destruct (is_empty (strip line)); [apply IH|].
  destruct (Nat.ltb_spec (length (strip line)) 2); [apply IH|].
  destruct (isalnum (strip line)) eqn:Ea; simpl; [|apply IH].
  intros [= <- <- <-]. eauto.
Qed.

Lemma existsb_eqb_false {A} (f : A -> pystr) (x : pystr) (l : list A) :
  existsb (fun a => eqb (f a) x) l = false <-> Forall (fun a => f a <> x) l.
Proof.
  induction l as [|a l IH]; simpl; [done|].
  rewrite orb_false_iff, IH, Forall_cons, eqb_false. done.
Qed.

Lemma sign_up_email_result us inputs out mail rest out' :
  sign_up_email us inputs out = Some (mail, rest, out') ->
  (exists line, mail = lower (strip line))
  /\ validate_email mail = true /\ Forall (fun u => User.email u <> mail) us.
Proof.
  revert out. induction inputs as [|line inputs IH]; intros out; simpl; [done|].
  destruct (is_empty (lower (strip line))); [apply IH|].
  destruct (validate_email (lower (strip line))) eqn:Ev; simpl; [|apply IH].
  destruct (existsb _ us) eqn:Ee; [apply IH|].
  intros [= <- <- <-]. apply existsb_eqb_false in Ee. eauto.
Qed.

Lemma sign_up_password_result rng inputs out password rest out' :
  sign_up_password rng inputs out = Some (password, rest, out') ->
  password = generate_password rng /\ YourPasswordIs password ∈ out'
  \/ (exists line, password = strip line) /\ validate_password password = true.
Proof.
  revert out. induction inputs as [inputs IH] using (induction_ltof1 _ (@length _)).
  intros out; unfold ltof in IH.
  destruct inputs as [|line inputs]; simpl; [done|].
  destruct (_ || _).
  { intros [= <- <- <-]. left. split; [done|]. apply elem_of_app. right. by left. }
  destruct (_ || _); [|apply IH; simpl; lia].
  destruct inputs as [|line' inputs]; [done|].
  destruct (validate_password (strip line')) eqn:Ev; simpl; [|apply IH; simpl; lia].
  intros [= <- <- <-]. right. eauto.
Qed.

Section SignUpMore.
Variable format_number : float -> pystr.
Variable sha256_hexdigest : pystr -> pystr.

Lemma sign_up_user_inv rng inputs g fs ok out g' fs' :
  sign_up_user format_number sha256_hexdigest rng inputs g fs = Some (ok, out, g', fs') ->
  exists name mail password in1 in2 in3 o1 o2 o3,
    sign_up_username (users g) inputs [] = Some (name, in1, o1)
    /\ sign_up_email (users g) in1 o1 = Some (mail, in2, o2)
    /\ sign_up_password rng in2 o2 = Some (password, in3, o3)
    /\ ok = true /\ out = o3 ++ [AccountCreated]
    /\ g' = Globals (users g ++ [User.Make name mail (hash_password sha256_hexdigest password)
                                           0%float])
                    (Some (length (users g))) (cart g) (products g)
    /\ save_users format_number g' fs = Some fs'.
Proof.
  unfold sign_up_user.
  destruct (sign_up_username _ _ _) as [[[name in1] o1]|] eqn:E1; [|done]. simpl.
  destruct (sign_up_email _ _ _) as [[[mail in2] o2]|] eqn:E2; [|done]. simpl.
  destruct (sign_up_password _ _ _) as [[[password in3] o3]|] eqn:E3; [|done]. simpl.
  destruct (save_users _ _ _) as [fs1|] eqn:Es; [|done]. simpl.
  intros [= <- <- <- <-]. exists name, mail, password, in1, in2, in3, o1, o2, o3.
  do 5 (split; [done|]).
  assert (set_current_user
            (Some (length (users g ++ [User.Make name mail
                                         (hash_password sha256_hexdigest password) 0%float])
                   - 1)%nat)
            (set_users (users g ++ [User.Make name mail
                                      (hash_password sha256_hexdigest password) 0%float]) g)
          = Globals (users g ++ [User.Make name mail
                                   (hash_password sha256_hexdigest password) 0%float])
                    (Some (length (users g))) (cart g) (products g)) as <-; [|done].
  unfold set_current_user, set_users. simpl. f_equal. f_equal.
  rewrite length_app. simpl. lia.
Qed.

(** X15. When [sign_up_user] returns, it returns True and has appended
    exactly one record, with balance 0, behind the users there were; that record
    is the current user; cart and inventory are untouched; and the accounts
    file holds exactly the users in memory. *)
Theorem sign_up_user_appends_one_account (rng : nat -> nat) (inputs : list pystr)
  (g g' : globals) (fs fs' : files) (ok : bool) (out : list message) :
  sign_up_user format_number sha256_hexdigest rng inputs g fs = Some (ok, out, g', fs') ->
  ok = true
  /\ (exists new_user,
        users g' = users g ++ [new_user]
        /\ PrimFloat.eqb (User.balance new_user) 0 = true
        /\ users g' !! length (users g) = Some new_user)
  /\ current_user g' = Some (length (users g))
  /\ cart g' = cart g /\ products g' = products g
  /\ accounts_txt fs' = Some (save_users_text format_number (users g'))
  /\ listing fs' = listing fs.
Proof.
  intros (name & mail & password & in1 & in2 & in3 & o1 & o2 & o3
          & _ & _ & _ & -> & _ & -> & Hs)%sign_up_user_inv.
  split; [done|]. split.
  { eexists. split; [done|]. split; [done|]. simpl.
    rewrite lookup_app_r by done. by rewrite Nat.sub_diag. }
  do 3 (split; [done|]).
  unfold save_users, write_accounts in Hs. destruct (writable fs); [|done].
  by injection Hs as <-.
Qed.

Lemma NoDup_emails_snoc (us : list User.t) (u : User.t) :
  Forall (fun v => User.email v <> User.email u) us ->
  NoDup (map User.email us) -> NoDup (map User.email (us ++ [u])).
Proof.
  intros Hnew Hnd. change (NoDup (User.email <$> us ++ [u])).
  rewrite fmap_app. apply NoDup_app. split; [done|]. split; [|apply NoDup_singleton].
  intros e (v & -> & Hv)%list_elem_of_fmap E%list_elem_of_singleton.
  rewrite Forall_forall in Hnew. by apply (Hnew v Hv).
Qed.

(** X16. The record that [sign_up_user] appends has a trimmed, alphanumeric
    username of at least two characters and an email that [validate_email]
    accepts and that no earlier user has, so distinct emails stay distinct; its
    password hash is the hash of a generated password that was printed, or of a
    typed password that [validate_password] accepts. *)
Theorem sign_up_user_credentials (rng : nat -> nat) (inputs : list pystr)
  (g g' : globals) (fs fs' : files) (ok : bool) (out : list message) :
  sign_up_user format_number sha256_hexdigest rng inputs g fs = Some (ok, out, g', fs') ->
  exists new_user password,
    users g' = users g ++ [new_user]
    /\ strip (User.username new_user) = User.username new_user
    /\ (2 <= length (User.username new_user))%nat
    /\ isalnum (User.username new_user) = true
    /\ validate_email (User.email new_user) = true
    /\ Forall (fun u => User.email u <> User.email new_user) (users g)
    /\ (NoDup (map User.email (users g)) -> NoDup (map User.email (users g')))
    /\ User.password_hash new_user = hash_password sha256_hexdigest password
    /\ (password = generate_password rng /\ YourPasswordIs password ∈ out
        \/ validate_password password = true).
Proof.
  intros (name & mail & password & in1 & in2 & in3 & o1 & o2 & o3
          & Hn & Hm & Hp & -> & -> & -> & _)%sign_up_user_inv.
  apply sign_up_username_result in Hn as ([line ->] & Hlen & Halnum).
  apply sign_up_email_result in Hm as (_ & Hv & Hnew).
  exists (User.Make (strip line) mail (hash_password sha256_hexdigest password) 0%float),
         password.
  simpl. split; [done|]. split; [apply strip_strip|]. do 4 (split; [done|]).
  split; [by apply NoDup_emails_snoc|]. split; [done|].
  apply sign_up_password_result in Hp as [[-> Hout]|[_ Hpol]]; [left|by right].
  split; [done|]. apply elem_of_app. by left.
Qed.

End SignUpMore.

Lemma sign_up_user_appends_one_account_witness :
  exists out g' fs',
    sign_up_user Reference.format_number Reference.sha256_hexdigest zeros
      [str "ann"; str " Ann@Shop.NG"; str "y"] signed_out data_dir
    = Some (true, out, g', fs')
    /\ map User.username (users g') = [str "bob"; str "ann"]
    /\ current_user g' = Some 1%nat
    /\ accounts_txt fs' = Some (save_users_text Reference.format_number (users g')).
Proof.
  eexists _, _, _. split; [reflexivity|]. split; [reflexivity|].
  destruct (sign_up_user_appends_one_account Reference.format_number
              Reference.sha256_hexdigest zeros [str "ann"; str " Ann@Shop.NG"; str "y"]
              signed_out _ data_dir _ true _ eq_refl) as (_ & _ & Hc & _ & _ & Hf & _).
  exact (conj Hc Hf).
Defined.

Lemma sign_up_user_credentials_witness :
  exists out g' fs',
    sign_up_user Reference.format_number Reference.sha256_hexdigest zeros
      [str "ann"; str " Ann@Shop.NG"; str "y"] signed_out data_dir
    = Some (true, out, g', fs')
    /\ exists new_user password,
         users g' = users signed_out ++ [new_user]
         /\ strip (User.username new_user) = User.username new_user
         /\ (2 <= length (User.username new_user))%nat
         /\ isalnum (User.username new_user) = true
         /\ validate_email (User.email new_user) = true
         /\ Forall (fun u => User.email u <> User.email new_user) (users signed_out)
         /\ (NoDup (map User.email (users signed_out)) -> NoDup (map User.email (users g')))
         /\ User.password_hash new_user = hash_password Reference.sha256_hexdigest password
         /\ (password = generate_password zeros /\ YourPasswordIs password ∈ out
             \/ validate_password password = true).
Proof.
  eexists _, _, _. split; [reflexivity|].
  exact (sign_up_user_credentials Reference.format_number Reference.sha256_hexdigest zeros
           [str "ann"; str " Ann@Shop.NG"; str "y"] signed_out _ data_dir _ true _ eq_refl).
Defined.

(** *** Sign-in *)

Lemma isspace_lower_char c : isspace (lower_char c) = isspace c.
Proof. by destruct c as [[] [] [] [] [] [] [] []]. Qed.

Lemma lstrip_lower s : lstrip (lower s) = lower (lstrip s).
Proof.
  induction s as [|c s IH]; [done|]. unfold lower in *. simpl.
  rewrite isspace_lower_char. by destruct (isspace c).
Qed.

Lemma strip_lower s : strip (lower s) = lower (strip s).
Proof.
  assert (forall t, rev (lower t) = lower (rev t)) as Hrev
    by (intros t; symmetry; apply map_rev).
  unfold strip, rstrip. by rewrite lstrip_lower, Hrev, lstrip_lower, Hrev.
Qed.

Lemma strip_no_space s : Forall (fun c => isspace c = false) s -> strip s = s.
Proof.
  intros H. destruct s as [|c s]; [done|].
  destruct s as [|d s _] using rev_ind.
  - apply (strip_tight _ c c); [by left|by inversion H..].
  - apply (strip_tight _ c d); [right; by exists s| |].
    + by inversion H.
    + apply Forall_cons in H as [_ H]. apply Forall_app in H as [_ H]. by inversion H.
Qed.

Lemma alphabet_no_space c : c ∈ alphabet -> isspace c = false.
Proof.
  intros H. apply negb_true_iff.
  by apply (forallb_elem (fun c => negb (isspace c)) alphabet).
Qed.

Lemma generate_password_trimmed rng : strip (generate_password rng) = generate_password rng.
Proof.
  apply strip_no_space, Forall_forall. intros c Hc.
  apply alphabet_no_space, (drawn_in_alphabet rng). by apply generate_password_drawn.
Qed.

Lemma validate_email_at mail : validate_email mail = true -> "@"%char ∈ mail.
Proof.
  unfold validate_email.
  assert ((if re_match EMAIL_VALIDATE_PATTERN mail then true else false)
          = re_match EMAIL_VALIDATE_PATTERN mail) as -> by by destruct (re_match _ _).
  rewrite re_match_true. unfold EMAIL_VALIDATE_PATTERN. cbn [sequence].
  intros (j & Hj).
  apply in_exec_seq in Hj as (k0 & [-> _]%in_exec_bol & Hj).
  apply in_exec_seq in Hj as (k1 & (a & Ha & Hra%reads_not_space)%in_exec_plus_class & Hj).
  apply in_exec_seq in Hj as (k2 & [Hat _]%in_exec_chr & Hj).
  destruct Hra as (E1 & _). simpl in E1. rewrite E1, Hat.
  apply elem_of_app. right. by left.
Qed.

Lemma isalnum_no_at s : isalnum s = true -> "@"%char ∉ s.
Proof.
  intros H Hin. destruct s as [|c s]; [done|]. simpl in H.
  assert (forallb isalnum_char (c :: s) = true) as H' by done.
  by pose proof (forallb_elem _ _ _ H' Hin).
Qed.

Section SignIn.
Variable format_number : float -> pystr.
Variable sha256_hexdigest : pystr -> pystr.

(** X17. [sign_in_user] never changes the users, the cart or the inventory,
    and a failed attempt changes nothing at all. It succeeds only for the first
    user whose username or email is the trimmed identity, and only when that
    user's stored hash is the hash of the trimmed password: an account behind
    another one of the same name is never signed in under that name. *)
Theorem sign_in_user_sound (inputs : list pystr) (g g' : globals) (ok : bool)
  (m : sign_in_message) :
  sign_in_user sha256_hexdigest inputs g = Some (ok, m, g') ->
  users g' = users g /\ cart g' = cart g /\ products g' = products g
  /\ (ok = false -> g' = g)
  /\ (ok = true ->
      exists line line' rest k user,
        inputs = line :: line' :: rest
        /\ current_user g' = Some k /\ users g !! k = Some user
        /\ (User.username user = strip line \/ User.email user = strip line)
        /\ User.password_hash user = hash_password sha256_hexdigest (strip line')
        /\ forall j u, (j < k)%nat -> users g !! j = Some u ->
                       User.username u <> strip line /\ User.email u <> strip line).
Proof.
  unfold sign_in_user. destruct inputs as [|line [|line' rest]]; [done..|].
  destruct (list_find _ _) as [[k user]|] eqn:Ef; [|by intros [= <- <- <-]].
  destruct (eqb _ _) eqn:Eh; intros [= <- <- <-]; [|done].
  do 4 (split; [done|]). intros _.
  apply list_find_Some in Ef as (Hk & Hm & Hfirst). apply eqb_true in Eh.
  exists line, line', rest, k, user. do 5 (split; [done|]).
  intros j u Hj Hu. specialize (Hfirst j u Hu Hj). tauto.
Qed.

(** X18. Sign-up then sign-in: when no earlier username holds an at sign,
    the account that [sign_up_user] has just created signs in with its email
    and its password (the generated one that was printed, or the typed one), and
    the state after that sign-in is the state after the sign-up. *)
Theorem sign_in_after_sign_up (rng : nat -> nat) (inputs : list pystr)
  (g g' : globals) (fs fs' : files) (ok : bool) (out : list message) :
  sign_up_user format_number sha256_hexdigest rng inputs g fs = Some (ok, out, g', fs') ->
  Forall (fun u => "@"%char ∉ User.username u) (users g) ->
  exists new_user password,
    users g' = users g ++ [new_user]
    /\ User.password_hash new_user = hash_password sha256_hexdigest password
    /\ (password = generate_password rng /\ YourPasswordIs password ∈ out
        \/ validate_password password = true)
    /\ forall cu rest,
         sign_in_user sha256_hexdigest (User.email new_user :: password :: rest)
                      (set_current_user cu g')
         = Some (true, LoginSuccessful, g').
Proof.
  intros (name & mail & password & in1 & in2 & in3 & o1 & o2 & o3
          & Hn & Hm & Hp & -> & -> & -> & _)%sign_up_user_inv Hat.
  apply sign_up_email_result in Hm as ([l ->] & Hv%validate_email_at & Hnew).
  set (mail := lower (strip l)) in *.
  assert (strip mail = mail) as El
    by (unfold mail; by rewrite strip_lower, strip_strip).
  assert (strip password = password
          /\ (password = generate_password rng
                /\ YourPasswordIs password ∈ o3 ++ [AccountCreated]
              \/ validate_password password = true)) as [Ep Hpw].
  { apply sign_up_password_result in Hp as [[-> Hout]|[[l' ->] Hpol]].
    - split; [apply generate_password_trimmed|]. left. split; [done|].
      apply elem_of_app. by left.
    - split; [apply strip_strip|]. by right. }
  eexists _, password. split; [reflexivity|]. split; [reflexivity|]. split; [exact Hpw|].
  intros cu rest. unfold sign_in_user. simpl.
  rewrite El, Ep.
  assert (list_find (fun user => User.username user = mail \/ User.email user = mail)
            (users g ++ [User.Make name mail (hash_password sha256_hexdigest password) 0%float])
          = Some (length (users g),
                  User.Make name mail (hash_password sha256_hexdigest password) 0%float)) as ->.
  { apply list_find_Some. split; [|split].
    - rewrite lookup_app_r by done. by rewrite Nat.sub_diag.
    - by right.
    - intros j u Hu Hj. rewrite lookup_app_l in Hu by done.
      apply list_elem_of_lookup_2 in Hu. rewrite Forall_forall in Hat, Hnew.
      intros [E|E]; [|by apply (Hnew u Hu)]. apply (Hat u Hu). by rewrite E. }
  simpl. assert (eqb (hash_password sha256_hexdigest password)
                     (hash_password sha256_hexdigest password) = true) as ->
    by by apply eqb_true.
  done.
Qed.

End SignIn.

Lemma sign_in_user_sound_witness :
  sign_in_user Reference.sha256_hexdigest [str "ada@shop.ng "; ada_password]
    (set_current_user None ada_session)
  = Some (true, LoginSuccessful, ada_session)
  /\ users ada_session = users (set_current_user None ada_session).
Proof.
  split; [reflexivity|].
  exact (proj1 (sign_in_user_sound Reference.sha256_hexdigest
                  [str "ada@shop.ng "; ada_password] (set_current_user None ada_session)
                  ada_session true LoginSuccessful eq_refl)).
Defined.

Lemma sign_in_after_sign_up_witness :
  exists out g' fs',
    sign_up_user Reference.format_number Reference.sha256_hexdigest zeros
      [str "ann"; str " Ann@Shop.NG"; str "y"] signed_out data_dir
    = Some (true, out, g', fs')
    /\ Forall (fun u => "@"%char ∉ User.username u) (users signed_out)
    /\ exists new_user password,
         users g' = users signed_out ++ [new_user]
         /\ User.password_hash new_user = hash_password Reference.sha256_hexdigest password
         /\ (password = generate_password zeros /\ YourPasswordIs password ∈ out
             \/ validate_password password = true)
         /\ forall cu rest,
              sign_in_user Reference.sha256_hexdigest (User.email new_user :: password :: rest)
                           (set_current_user cu g')
              = Some (true, LoginSuccessful, g').
Proof.
  assert (Forall (fun u => "@"%char ∉ User.username u) (users signed_out)) as H
    by (constructor; [by apply isalnum_no_at|constructor]).
  eexists _, _, _. split; [reflexivity|]. split; [exact H|].
  exact (sign_in_after_sign_up Reference.format_number Reference.sha256_hexdigest zeros
           [str "ann"; str " Ann@Shop.NG"; str "y"] signed_out _ data_dir _ true _ eq_refl H).
Defined.

(* ------------------------------------------------------------------------- *)
(** ** The account *)

Lemma NoDup_insert_fresh {A} (l : list A) (k : nat) (x : A) :
  NoDup l -> x ∉ l -> NoDup (<[k := x]> l).
Proof.
  rewrite !NoDup_alt. intros H Hx i j y Hi Hj.
  apply list_lookup_insert_Some in Hi, Hj.
  destruct Hi as [(-> & <- & ?)|[? Hi]], Hj as [(-> & E & ?)|[? Hj]]; try done.
  - subst. by apply list_elem_of_lookup_2 in Hj.
  - subst. by apply list_elem_of_lookup_2 in Hi.
  - by apply (H i j y).
Qed.

Section Account.
Variable float_of_str : pystr -> option float.
Variable format_number : float -> pystr.
Variable sha256_hexdigest : pystr -> pystr.

Local Abbreviation hash := (hash_password sha256_hexdigest).

Lemma updated_user_saved f k user g fs :
  current_record g = Some (k, user) ->
  let g1 := set_users (<[k := f user]> (users g)) g in
  updated_user format_number f k user g g1 fs
    match save_users format_number g1 fs with
    | Some fs' => fs'
    | None => unsaved format_number g1 fs
    end.
Proof.
  intros Hc. simpl. split; [done|]. split; [done|].
  unfold save_users, write_accounts, unsaved. destruct (writable fs) eqn:Ew; simpl.
  - split; [done|]. by left.
  - destruct (interrupted_cases
                (save_users_text format_number (<[k := f user]> (users g))) fs) as [Hl Hi].
    split; [exact Hl|]. right. split; [done|exact Hi].
Qed.

Lemma try_update_inv f done failed out g fs out' g' fs' :
  try_update format_number f done failed out g fs = (out', g', fs') ->
  g' = g /\ fs' = fs \/ exists k user, updated_user format_number f k user g g' fs fs'.
Proof.
  unfold try_update, set_current.
  destruct (current_record g) as [[k user]|] eqn:Ec; simpl; [|intros [= <- <- <-]; by left].
  pose proof (updated_user_saved f k user g fs Ec) as Hu. simpl in Hu.
  destruct (save_users _ _ _); intros [= <- <- <-]; right; by exists k, user.
Qed.

Lemma check_password_true line g out :
  check_password sha256_hexdigest line g = Some (true, out) ->
  exists k user, current_record g = Some (k, user)
                 /\ strip line <> [] /\ hash (strip line) = User.password_hash user.
Proof.
  unfold check_password. destruct (strip line) eqn:E; [done|]. simpl.
  destruct (current_record g) as [[k user]|]; [|done]. simpl.
  destruct (eqb _ _) eqn:Eh; [|done]. intros _. apply eqb_true in Eh. by exists k, user.
Qed.


(** X20. After the right password, [change_username] takes every trimmed
    alphanumeric name of at least two characters, taken or not: when another
    user has that name the message is printed and the name is set all the same
    (the [continue] belongs to the inner loop). *)
Theorem change_username_takes_any (line line' : pystr) (rest : list pystr)
  (out : list account_message) (g : globals) (fs : files) (k : nat) (user : User.t) :
  current_record g = Some (k, user) ->
  strip line <> [] -> hash (strip line) = User.password_hash user ->
  (2 <= length (strip line'))%nat -> isalnum (strip line') = true ->
  exists out' fs',
    change_username format_number sha256_hexdigest (line :: line' :: rest) out g fs
    = Some (out', set_users (<[k := set_username (strip line') user]> (users g)) g, fs')
    /\ (Exists (fun u => User.username u = strip line') (users g) ->
        UsernameAlreadyTaken ∈ out').
Proof.
  intros Hc Hne Hh Hlen Ha. simpl. unfold check_password.
  assert (is_empty (strip line) = false) as -> by by destruct (strip line).
  rewrite Hc. simpl.
  assert (eqb (hash (strip line)) (User.password_hash user) = true) as ->
    by by apply eqb_true.
  simpl.
  assert (is_empty (strip line') = false) as ->
    by (destruct (strip line'); [simpl in Hlen; lia|done]).
  destruct (Nat.ltb_spec (length (strip line')) 2); [lia|]. rewrite Ha. simpl.
  unfold try_update, set_current. rewrite Hc. simpl.
  set (printed := flat_map _ (users g)).
  assert (Exists (fun u => User.username u = strip line') (users g) ->
          UsernameAlreadyTaken ∈ printed) as Hp.
  { intros (u & Hu & E)%Exists_exists. apply list_elem_of_In, in_flat_map.
    exists u. split; [by apply list_elem_of_In|].
    assert (eqb (User.username u) (strip line') = true) as -> by by apply eqb_true.
    by left. }
  destruct (save_users _ _ _); eexists _, _; (split; [reflexivity|]);
    intros Hex%Hp; rewrite !elem_of_app; auto.
Qed.

Lemma change_email_prompt_result us inputs out mail rest out' :
  change_email_prompt us inputs out = Some (mail, rest, out') ->
  (exists line, mail = lower (strip line))
  /\ validate_email mail = true /\ Forall (fun u => User.email u <> mail) us.
Proof.
  revert out. induction inputs as [|line inputs IH]; intros out; simpl; [done|].
  destruct (validate_email (lower (strip line))) eqn:Ev; simpl; [|apply IH].
  destruct (existsb _ us) eqn:Ee; [apply IH|].
  intros [= <- <- <-]. apply existsb_eqb_false in Ee. eauto.
Qed.

(** X21. Whatever is typed, [change_email] either changes nothing or
    replaces the email of the current user, and only that; the latter only
    after the right password, and only by a trimmed lower-case address that
    [validate_email] accepts and that no user has. Distinct emails stay
    distinct. *)
Theorem change_email_guarded (inputs : list pystr) (out : list account_message)
  (g g' : globals) (fs fs' : files) :
  change_email format_number sha256_hexdigest inputs g fs = Some (out, g', fs') ->
  g' = g /\ fs' = fs
  \/ exists k user password mail,
       updated_user format_number (set_email mail) k user g g' fs fs'
       /\ password <> [] /\ hash password = User.password_hash user
       /\ strip mail = mail /\ lower mail = mail /\ validate_email mail = true
       /\ Forall (fun u => User.email u <> mail) (users g)
       /\ (NoDup (map User.email (users g)) -> NoDup (map User.email (users g'))).
Proof.
  unfold change_email, verify_current_password.
  destruct inputs as [|line inputs]; [done|]. simpl.
  destruct (check_password _ _ _) as [[[] printed]|] eqn:Ec; simpl; [| |done].
  2: { intros [= <- <- <-]. by left. }
  apply check_password_true in Ec as (k & user & Hc & Hne & Hh).
  destruct (change_email_prompt _ _ _) as [[[mail rest] out1]|] eqn:Ep; [|done]. simpl.
  apply change_email_prompt_result in Ep as ([l ->] & Hv & Hnew).
  intros [= [[-> ->]|(k' & user' & Hu)]%try_update_inv]; [by left|right].
  assert (Some (k', user') = Some (k, user)) as [= -> ->]
    by (destruct Hu as [<- _]; done).
  exists k, user, (strip line), (lower (strip l)). split; [done|].
  do 2 (split; [done|]). split; [by rewrite strip_lower, strip_strip|].
  split.
  { unfold lower. rewrite map_map. apply map_ext. intros c.
    by destruct c as [[] [] [] [] [] [] [] []]. }
  do 2 (split; [done|]).
  destruct Hu as (_ & -> & _). simpl. intros Hnd.
  change (NoDup (User.email <$> <[k := set_email (lower (strip l)) user]> (users g))).
  rewrite list_fmap_insert. apply NoDup_insert_fresh; [done|]. simpl.
  intros (u & E & Hu)%list_elem_of_fmap. rewrite Forall_forall in Hnew.
  by apply (Hnew u Hu).
Qed.

Lemma change_password_prompt_result current_hash inputs out password rest out' :
  change_password_prompt sha256_hexdigest current_hash inputs out
  = Some (password, rest, out') ->
  strip password = password /\ validate_password password = true
  /\ hash password <> current_hash.
Proof.
  revert out. induction inputs as [inputs IH] using (induction_ltof1 _ (@length _)).
  unfold ltof in IH. intros out. destruct inputs as [|line inputs]; simpl; [done|].
  destruct (validate_password (strip line)) eqn:Ev; simpl; [|apply IH; simpl; lia].
  destruct inputs as [|line' inputs]; [done|].
  destruct (eqb (strip line) (strip line')); simpl; [|apply IH; simpl; lia].
  destruct (eqb (hash (strip line)) current_hash) eqn:Eh; [apply IH; simpl; lia|].
  intros [= <- <- <-]. apply eqb_false in Eh. split; [apply strip_strip|done].
Qed.

(** X22. Whatever is typed, [change_password] either changes nothing or
    replaces the password hash of the current user, and only that; the latter
    only after the right password, and only by the hash of a trimmed password
    that [validate_password] accepts and whose hash differs from the stored
    one. *)
Theorem change_password_guarded (inputs : list pystr) (out : list account_message)
  (g g' : globals) (fs fs' : files) :
  change_password format_number sha256_hexdigest inputs g fs = Some (out, g', fs') ->
  g' = g /\ fs' = fs
  \/ exists k user password new_password,
       updated_user format_number (set_password_hash (hash new_password)) k user g g' fs fs'
       /\ password <> [] /\ hash password = User.password_hash user
       /\ strip new_password = new_password /\ validate_password new_password = true
       /\ hash new_password <> User.password_hash user.
Proof.
  unfold change_password, verify_current_password.
  destruct inputs as [|line inputs]; [done|]. simpl.
  destruct (check_password _ _ _) as [[[] printed]|] eqn:Ec; simpl; [| |done].
  2: { intros [= <- <- <-]. by left. }
  apply check_password_true in Ec as (k & user & Hc & Hne & Hh). rewrite Hc. simpl.
  destruct (change_password_prompt _ _ _ _) as [[[new_password rest] out1]|] eqn:Ep; [|done].
  simpl. apply change_password_prompt_result in Ep as (Hs & Hv & Hd).
  destruct rest as [|line' rest]; [done|].
  destruct (eqb _ _); [|intros [= <- <- <-]; by left].
  intros [= [[-> ->]|(k' & user' & Hu)]%try_update_inv]; [by left|right].
  assert (Some (k', user') = Some (k, user)) as [= -> ->]
    by (destruct Hu as [<- _]; done).
  by exists k, user, (strip line), new_password.
Qed.

(** X23. Whatever is typed, [reset_balance] either changes nothing or sets
    the balance of the current user to 0.0, and only that; the latter only
    after the right password and the answer y, and for a balance above 50000
    only after RESET was typed as well. *)
Theorem reset_balance_guarded (inputs : list pystr) (out : list account_message)
  (g g' : globals) (fs fs' : files) :
  reset_balance format_number sha256_hexdigest inputs g fs = Some (out, g', fs') ->
  g' = g /\ fs' = fs
  \/ exists k user line line' rest,
       updated_user format_number (User.set_balance 0%float) k user g g' fs fs'
       /\ inputs = line :: line' :: rest
       /\ strip line <> [] /\ hash (strip line) = User.password_hash user
       /\ lower (strip line') = str "y"
       /\ (PyNum.gt (User.balance user) 50000 = true ->
           exists line'' rest', rest = line'' :: rest' /\ strip line'' = str "RESET").
Proof.
  unfold reset_balance, verify_current_password.
  destruct inputs as [|line inputs]; [done|]. simpl.
  destruct (check_password _ _ _) as [[[] printed]|] eqn:Ec; simpl; [| |done].
  2: { intros [= <- <- <-]. by left. }
  apply check_password_true in Ec as (k & user & Hc & Hne & Hh). rewrite Hc. simpl.
  destruct inputs as [|line' rest]; [done|].
  destruct (eqb (lower (strip line')) _) eqn:Ey; [|intros [= <- <- <-]; by left].
  apply eqb_true in Ey.
  assert (forall o,
            (g1 ← set_current (User.set_balance 0%float) g;
             match save_users format_number g1 fs with
             | Some fs'0 => Some (o ++ [BalanceReset], g1, fs'0)
             | None => Some (o ++ [ErrorSavingBalanceReset], g1, unsaved format_number g1 fs)
             end) = Some (out, g', fs') ->
            updated_user format_number (User.set_balance 0%float) k user g g' fs fs') as Hreset.
  { intros o. unfold set_current. rewrite Hc. simpl.
    pose proof (updated_user_saved (User.set_balance 0%float) k user g fs Hc) as Hu.
    simpl in Hu. by destruct (save_users _ _ _); intros [= _ <- <-]. }
  destruct (PyNum.gt (User.balance user) 50000) eqn:Eg.
  - destruct rest as [|line'' rest']; [done|].
    destruct (eqb (strip line'') _) eqn:Er; simpl;
      [|intros [= <- <- <-]; by left].
    apply eqb_true in Er. intros Hu%Hreset. right.
    exists k, user, line, line', (line'' :: rest').
    split; [exact Hu|]. split; [done|]. split; [exact Hne|]. split; [exact Hh|].
    split; [exact Ey|]. intros _. by exists line'', rest'.
  - intros Hu%(Hreset printed). right. exists k, user, line, line', rest.
    split; [exact Hu|]. split; [done|]. split; [exact Hne|]. split; [exact Hh|].
    split; [exact Ey|]. by rewrite Eg.
Qed.

(** X24. When [fund_wallet] returns, the accounts file was writable, the
    balance of the current user has grown by one amount and nothing else has
    changed, and the file holds exactly the users in memory. The amount is one
    of 10000, 20000, 50000, 100000, or a typed number that is neither <= 0 nor
    > 100000000. *)
Theorem fund_wallet_adds (inputs : list pystr) (out : list account_message)
  (g g' : globals) (fs fs' : files) :
  fund_wallet float_of_str format_number inputs g fs = Some (out, g', fs') ->
  exists k user amount,
    current_record g = Some (k, user)
    /\ g' = set_users (<[k := User.set_balance (PrimFloat.add (User.balance user) amount) user]>
                         (users g)) g
    /\ writable fs = true
    /\ accounts_txt fs' = Some (save_users_text format_number (users g'))
    /\ last out = Some (PaymentSuccessful amount)
    /\ (amount ∈ [10000; 20000; 50000; 100000]%float
        \/ PrimFloat.leb amount 0 = false /\ PyNum.gt amount 100000000 = false
           /\ exists line, line ∈ inputs /\ float_of_str line = Some amount).
Proof.
  unfold fund_wallet. destruct (current_record g) as [[k user]|] eqn:Ec; [|done]. simpl.
  generalize (@nil account_message). intros out0 H.
  assert (forall amount o,
            pay format_number amount o g fs = Some (out, g', fs') ->
            g' = set_users (<[k := User.set_balance (PrimFloat.add (User.balance user) amount)
                                                    user]> (users g)) g
            /\ writable fs = true
            /\ accounts_txt fs' = Some (save_users_text format_number (users g'))
            /\ last out = Some (PaymentSuccessful amount)) as Hpay.
  { intros amount o. unfold pay, set_current. rewrite Ec. simpl.
    unfold save_users, write_accounts. simpl. destruct (writable fs); [|done]. simpl.
    intros [= <- <- <-]. do 3 (split; [done|]). apply last_snoc. }
  cut (exists amount,
         pay format_number amount (take (length out - 1) out) g fs = Some (out, g', fs')
         /\ (amount ∈ [10000; 20000; 50000; 100000]%float
             \/ PrimFloat.leb amount 0 = false /\ PyNum.gt amount 100000000 = false
                /\ exists line, line ∈ inputs /\ float_of_str line = Some amount)).
  { intros (amount & Hp & Ha). exists k, user, amount. split; [done|].
    destruct (Hpay _ _ Hp) as (? & ? & ? & ?). done. }
  assert (forall amount o, pay format_number amount o g fs = Some (out, g', fs') ->
                           take (length out - 1) out = o) as Hout.
  { intros amount o. unfold pay. destruct (set_current _ _); [|done]. simpl.
    destruct (save_users _ _ _); [|done]. simpl. intros [= <- _ _].
    rewrite length_app. simpl. rewrite Nat.add_sub. by rewrite take_app_length. }
  revert out0 H. induction inputs as [inputs IH] using (induction_ltof1 _ (@length _)).
  unfold ltof in IH. intros out0. destruct inputs as [|line inputs]; simpl; [done|].
  assert (forall rest o,
            (length rest < length (line :: inputs))%nat ->
            (forall l, l ∈ rest -> l ∈ line :: inputs) ->
            fund_wallet_prompt float_of_str format_number rest o g fs = Some (out, g', fs') ->
            exists amount,
              pay format_number amount (take (length out - 1) out) g fs = Some (out, g', fs')
              /\ (amount ∈ [10000; 20000; 50000; 100000]%float
                  \/ PrimFloat.leb amount 0 = false /\ PyNum.gt amount 100000000 = false
                     /\ exists l, l ∈ line :: inputs /\ float_of_str l = Some amount)) as Hrec.
  { intros rest o Hlt Hsub Hr. destruct (IH rest Hlt o Hr) as (amount & Hp & Ha).
    exists amount. split; [done|]. destruct Ha as [Ha|(? & ? & l & Hl & El)]; [by left|].
    right. do 2 (split; [done|]). exists l. split; [by apply Hsub|done]. }
  unfold options.
  repeat (match goal with
          | |- context [eqb (strip line) ?s] => destruct (eqb (strip line) s)
          end).
  1-4: intros Hp; pose proof (Hout _ _ Hp) as ->; eexists; split; [exact Hp|left];
       solve [repeat first [apply list_elem_of_here | apply list_elem_of_further]].
  - destruct inputs as [|line' inputs]; [done|].
    destruct (float_of_str line') as [amount|] eqn:Ef.
    + destruct (PrimFloat.leb amount 0) eqn:El.
      { apply Hrec; [simpl; lia|intros l Hl; by do 2 right]. }
      destruct (PyNum.gt amount 100000000) eqn:Eg.
      { apply Hrec; [simpl; lia|intros l Hl; by do 2 right]. }
      intros Hp; pose proof (Hout _ _ Hp) as ->. exists amount. split; [exact Hp|right].
      do 2 (split; [done|]). exists line'. split; [right; by left|done].
    + apply Hrec; [simpl; lia|intros l Hl; by do 2 right].
  - apply Hrec; [simpl; lia|intros l Hl; by right].
Qed.

End Account.


Lemma change_username_takes_any_witness :
  exists out' fs',
    change_username Reference.format_number Reference.sha256_hexdigest
      [ada_password; str "bob"] [] ada_session data_dir
    = Some (out', set_users (<[1%nat := set_username (strip (str "bob")) ada]>
                               (users ada_session)) ada_session, fs')
    /\ (Exists (fun u => User.username u = strip (str "bob")) (users ada_session) ->
        UsernameAlreadyTaken ∈ out').
Proof.
  exact (change_username_takes_any Reference.format_number Reference.sha256_hexdigest
           ada_password (str "bob") [] [] ada_session data_dir 1 ada
           eq_refl ltac:(done) eq_refl ltac:(vm_compute; lia) eq_refl).
Defined.

Lemma change_email_guarded_witness :
  exists out g' fs',
    change_email Reference.format_number Reference.sha256_hexdigest
      [ada_password; str "bob@shop.ng"; str " Ada@Maths.UK "] ada_session data_dir
    = Some (out, g', fs')
    /\ map User.email (users g') = [str "bob@shop.ng"; str "ada@maths.uk"]
    /\ (g' = ada_session /\ fs' = data_dir
        \/ exists k user password mail,
             updated_user Reference.format_number (set_email mail) k user
                          ada_session g' data_dir fs'
             /\ password <> [] /\ hash_password Reference.sha256_hexdigest password
                                  = User.password_hash user
             /\ strip mail = mail /\ lower mail = mail /\ validate_email mail = true
             /\ Forall (fun u => User.email u <> mail) (users ada_session)
             /\ (NoDup (map User.email (users ada_session))
                 -> NoDup (map User.email (users g')))).
Proof.
  eexists _, _, _. split; [reflexivity|]. split; [reflexivity|].
  exact (change_email_guarded Reference.format_number Reference.sha256_hexdigest
           [ada_password; str "bob@shop.ng"; str " Ada@Maths.UK "] _ ada_session _
           data_dir _ eq_refl).
Defined.

Lemma change_password_guarded_witness :
  exists out g' fs',
    change_password Reference.format_number Reference.sha256_hexdigest
      [ada_password; str "short"; str "Analytical#Engine1843"; str "Analytical#Engine1843";
       str "Y"] ada_session data_dir
    = Some (out, g', fs')
    /\ (g' = ada_session /\ fs' = data_dir
        \/ exists k user password new_password,
             updated_user Reference.format_number
               (set_password_hash (hash_password Reference.sha256_hexdigest new_password))
               k user ada_session g' data_dir fs'
             /\ password <> [] /\ hash_password Reference.sha256_hexdigest password
                                  = User.password_hash user
             /\ strip new_password = new_password /\ validate_password new_password = true
             /\ hash_password Reference.sha256_hexdigest new_password
                <> User.password_hash user).
Proof.
  eexists _, _, _. split; [reflexivity|].
  exact (change_password_guarded Reference.format_number Reference.sha256_hexdigest
           [ada_password; str "short"; str "Analytical#Engine1843";
            str "Analytical#Engine1843"; str "Y"] _ ada_session _ data_dir _ eq_refl).
Defined.

Lemma reset_balance_guarded_witness :
  exists out g' fs',
    reset_balance Reference.format_number Reference.sha256_hexdigest
      [ada_password; str "y"; str "RESET"] ada_session data_dir
    = Some (out, g', fs')
    /\ map User.balance (users g') = [100; 0]%float
    /\ (g' = ada_session /\ fs' = data_dir
        \/ exists k user line line' rest,
             updated_user Reference.format_number (User.set_balance 0%float) k user
                          ada_session g' data_dir fs'
             /\ [ada_password; str "y"; str "RESET"] = line :: line' :: rest
             /\ strip line <> []
             /\ hash_password Reference.sha256_hexdigest (strip line) = User.password_hash user
             /\ lower (strip line') = str "y"
             /\ (PyNum.gt (User.balance user) 50000 = true ->
                 exists line'' rest', rest = line'' :: rest' /\ strip line'' = str "RESET")).
Proof.
  eexists _, _, _. split; [reflexivity|]. split; [reflexivity|].
  exact (reset_balance_guarded Reference.format_number Reference.sha256_hexdigest
           [ada_password; str "y"; str "RESET"] _ ada_session _ data_dir _ eq_refl).
Defined.

Lemma fund_wallet_adds_witness :
  exists out g' fs',
    fund_wallet Reference.float_of_str Reference.format_number
      [str "9"; str "5"; str "0"; str " 5 "; str "2500.50"] ada_session data_dir
    = Some (out, g', fs')
    /\ map User.balance (users g') = [100; 62500.5]%float
    /\ exists k user amount,
         current_record ada_session = Some (k, user)
         /\ g' = set_users (<[k := User.set_balance (PrimFloat.add (User.balance user) amount)
                                                    user]> (users ada_session)) ada_session
         /\ writable data_dir = true
         /\ accounts_txt fs' = Some (save_users_text Reference.format_number (users g'))
         /\ last out = Some (PaymentSuccessful amount)
         /\ (amount ∈ [10000; 20000; 50000; 100000]%float
             \/ PrimFloat.leb amount 0 = false /\ PyNum.gt amount 100000000 = false
                /\ exists line, line ∈ [str "9"; str "5"; str "0"; str " 5 "; str "2500.50"]
                                /\ Reference.float_of_str line = Some amount).
Proof.
  eexists _, _, _. split; [reflexivity|]. split; [reflexivity|].
  exact (fund_wallet_adds Reference.float_of_str Reference.format_number
           [str "9"; str "5"; str "0"; str " 5 "; str "2500.50"] _ ada_session _
           data_dir _ eq_refl).
Defined.

(* ------------------------------------------------------------------------- *)
(** ** The search *)

Lemma startswith_prefix p s : startswith p s = true <-> exists r, s = p ++ r.
Proof.
  revert s. induction p as [|a p IH]; intros s; simpl; [split; eauto|].
  destruct s as [|b s]; [split; [done|by intros [r Hr]]|].
  rewrite andb_true_iff, IH. split.
  - intros [->%Ascii.eqb_eq [r ->]]. by exists r.
  - intros [r [= -> ->]]. split; [apply Ascii.eqb_refl|by exists r].
Qed.

Lemma contains_infix a b : contains a b = true <-> exists l r, b = l ++ a ++ r.
Proof.
  induction b as [|c b IH]; simpl; rewrite orb_true_iff, startswith_prefix.
  - split.
    + intros [[r Hr]|]; [|done]. by exists [], r.
    + intros (l & r & H). left. destruct l; [by exists r|done].
  - rewrite IH. split.
    + intros [[r Hr]|(l & r & ->)]; [by exists [], r|by exists (c :: l), r].
    + intros (l & r & H). destruct l as [|c' l]; [left; by exists r|].
      right. injection H as -> ->. by exists l, r.
Qed.

Lemma split_whitespace_from_words word s :
  no_space word ->
  Forall (fun w => w <> [] /\ no_space w) (split_whitespace_from word s).
Proof.
  revert word. induction s as [|c s IH]; intros word Hw; simpl.
  - destruct word; simpl; [constructor|]. constructor; [by split|constructor].
  - destruct (isspace c) eqn:Ec.
    + destruct word; simpl; [apply IH; constructor|].
      constructor; [by split|]. apply IH. constructor.
    + apply IH. apply Forall_app. split; [done|]. constructor; [done|constructor].
Qed.

Lemma hits_same terms k product : Forall (fun i => i = k) (hits terms k product).
Proof.
  induction terms as [|t terms IH]; simpl; [done|]. unfold hits. simpl.
  destruct (contains _ _); [by constructor|done].
Qed.

Lemma hits_length terms k product :
  length (hits terms k product)
  = length (filter (fun term => contains (lower term) (lower (Product.name product)) = true)
                   terms).
Proof.
  induction terms as [|t terms IH]; [done|]. unfold hits in *. simpl.
  rewrite filter_cons. destruct (contains _ _); simpl; by rewrite IH.
Qed.

Lemma filter_all {A} (P : A -> Prop) `{forall x, Decision (P x)} (l : list A) :
  Forall P l -> filter P l = l.
Proof.
  induction 1 as [|x l Hx _ IH]; [done|]. rewrite filter_cons, decide_True by done.
  by rewrite IH.
Qed.

Lemma filter_none {A} (P : A -> Prop) `{forall x, Decision (P x)} (l : list A) :
  Forall (fun x => ~ P x) l -> filter P l = [].
Proof.
  induction 1 as [|x l Hx _ IH]; [done|]. by rewrite filter_cons, decide_False.
Qed.

Lemma search_enumerate terms (ps : list Product.t) (k : nat) :
  let found :=
    flat_map (fun '(k, product) => hits terms k product) (imap pair ps) in
  Forall (fun i => (i < length ps)%nat) found
  /\ filter (fun i => i = k) found
     = match ps !! k with
       | Some product => hits terms k product
       | None => []
       end.
Proof.
  induction ps as [|p ps [IHb IHc]] using rev_ind; [done|].
  cbn zeta in *. rewrite imap_app, flat_map_app. simpl. rewrite app_nil_r, Nat.add_0_r.
  rewrite length_app. simpl. split.
  - apply Forall_app. split.
    + eapply Forall_impl; [exact IHb|]. simpl. lia.
    + eapply Forall_impl; [apply hits_same|]. simpl. lia.
  - rewrite filter_app, IHc. destruct (decide (k = length ps)) as [->|Hne].
    + rewrite lookup_ge_None_2 by done. rewrite lookup_app_r by done.
      rewrite Nat.sub_diag. simpl. apply filter_all, hits_same.
    + rewrite (filter_none _ (hits terms (length ps) p)).
      2: { eapply Forall_impl; [apply hits_same|]. simpl. congruence. }
      rewrite app_nil_r. destruct (decide (k < length ps)%nat).
      * by rewrite lookup_app_l.
      * rewrite !lookup_ge_None_2; [done|rewrite length_app; simpl; lia|lia].
Qed.

(** X25. The search terms are the blank-separated words of the trimmed
    query. Every result is a product of the inventory, and a product is listed
    once for every term that occurs in its name, letter case apart: several
    times when several terms match. The last part says that [contains] is the
    substring test. *)
Theorem search_lists_every_match (line : pystr) (g : globals) (k : nat) :
  let terms := split_whitespace (strip line) in
  let found := search line g in
  Forall (fun term => term <> [] /\ no_space term) terms
  /\ Forall (fun i => (i < length (products g))%nat) found
  /\ length (filter (fun i => i = k) found)
     = match products g !! k with
       | Some product =>
           length (filter (fun term => contains (lower term) (lower (Product.name product))
                                       = true) terms)
       | None => 0%nat
       end
  /\ (forall a b, contains a b = true <-> exists l r, b = l ++ a ++ r).
Proof.
  cbn zeta. split; [apply split_whitespace_from_words; constructor|].
  split; [|split; [|apply contains_infix]].
  - unfold search. destruct (is_empty (strip line)); [constructor|].
    apply (search_enumerate (split_whitespace (strip line)) (products g) k).
  - unfold search. destruct (strip line) as [|c s] eqn:E; simpl.
    { by destruct (products g !! k). }
    rewrite <- E.
    destruct (search_enumerate (split_whitespace (strip line)) (products g) k) as [_ H].
    cbn zeta in H. unfold hits in H at 1. rewrite H.
    destruct (products g !! k); [apply hits_length|done].
Qed.

(** A query of two terms that both occur in "Apple": the product is listed
    twice. *)
Example scenario_search :
  search (str " app  PLE ") ada_session = [0; 0]%nat
  /\ search (str "pear") ada_session = []
  /\ search (str "   ") ada_session = [].
Proof. by repeat split. Qed.

(* ------------------------------------------------------------------------- *)
(** ** The menus that call the cart *)

Lemma call_session c g : users (call c g) = users g /\ current_user (call c g) = current_user g.
Proof.
  destruct c as [p|i|i q|]; simpl.
  - unfold add_to_cart. destruct (find_product _ _) as [[k p']|]; [|done].
    by destruct (_ <=? _).
  - unfold remove_from_cart. destruct (_ || _); [done|]. by destruct (_ !! _).
  - unfold update_cart_item. destruct (_ || _); [done|]. destruct (_ <=? _); [done|].
    destruct (_ !! _); [|done]. destruct (find_product _ _) as [[k p']|]; [|done].
    by destruct (_ && _).
  - unfold clear_cart. by destruct (cart g).
Qed.

Lemma call_cart_lines c g :
  (forall p, c <> AddToCart p) ->
  sublist (map CartItem.product_id (cart (call c g))) (map CartItem.product_id (cart g)).
Proof.
  intros Hc. destruct c as [p|i|i q|]; simpl.
  - by destruct (Hc p).
  - unfold remove_from_cart. destruct (_ || _); [done|].
    destruct (_ !! _); [|done]. simpl.
    change (sublist (CartItem.product_id <$> delete (Z.to_nat i) (cart g))
                    (CartItem.product_id <$> cart g)).
    rewrite list_fmap_delete. apply sublist_delete.
  - unfold update_cart_item. destruct (_ || _); [done|]. destruct (_ <=? _); [done|].
    destruct (_ !! _) eqn:E; [|done]. destruct (find_product _ _) as [[k p']|]; [|done].
    destruct (_ && _); [done|]. simpl. by rewrite (insert_set_quantity_ids _ _ _ _ E).
  - unfold clear_cart. destruct (cart g) eqn:E; simpl; [by rewrite E|apply sublist_nil_l].
Qed.

Section CartMenus.
Variable int_of_str : pystr -> option Z.

(** X26. Whatever is typed in the search-results menu, the state it leaves
    is the state after a sequence of [add_to_cart] calls on products of the
    inventory; users and current user are untouched, and the lines read are a
    prefix of the input. *)
Theorem handle_search_results_only_adds (results : list nat) (inputs rest : list pystr)
  (g g' : globals) :
  handle_search_results int_of_str results inputs g = Some (g', rest) ->
  exists (added : list Product.t) (used : list pystr),
    g' = run (map AddToCart added) g
    /\ Forall (fun p => Product.id p ∈ map Product.id (products g)) added
    /\ users g' = users g /\ current_user g' = current_user g
    /\ inputs = used ++ rest.
Proof.
  revert results g.
  induction inputs as [inputs IH] using (induction_ltof1 _ (@length _)).
  unfold ltof in IH. intros results g. destruct inputs as [|line inputs]; simpl; [done|].
  assert (forall used0 inputs0 results0,
            line :: inputs = used0 ++ inputs0 -> (length inputs0 < length (line :: inputs))%nat ->
            handle_search_results int_of_str results0 inputs0 g = Some (g', rest) ->
            exists added used,
              g' = run (map AddToCart added) g
              /\ Forall (fun p => Product.id p ∈ map Product.id (products g)) added
              /\ users g' = users g /\ current_user g' = current_user g
              /\ line :: inputs = used ++ rest) as Hstay.
  { intros used0 inputs0 results0 E Hlt H.
    destruct (IH inputs0 Hlt results0 g H) as (added & used & ? & ? & ? & ? & ->).
    exists added, (used0 ++ used). rewrite E, app_assoc. done. }
  destruct (eqb (strip line) _).
  { destruct inputs as [|line' inputs]; [done|].
    destruct (int_of_str line') as [n|];
      [|apply (Hstay [line; line']); [done|simpl; lia]].
    destruct (_ && _); [|apply (Hstay [line; line']); [done|simpl; lia]].
    destruct (result results (n - 1) g) as [product|] eqn:Er; [|done]. simpl.
    destruct (_ <=? _); [apply (Hstay [line; line']); [done|simpl; lia]|].
    intros H. apply IH in H as (added & used & -> & Hids & Hu & Hc & ->); [|simpl; lia].
    exists (product :: added), (line :: line' :: used).
    split; [done|]. split.
    - constructor.
      + unfold result in Er. destruct (results !! _) as [k|]; [|done]. simpl in Er.
        apply list_elem_of_fmap. exists product. split; [done|].
        by eapply list_elem_of_lookup_2.
      + pose proof (call_ids (AddToCart product) g) as Hcall. simpl in Hcall.
        by rewrite Hcall in Hids.
    - destruct (call_session (AddToCart product) g) as [E1 E2]. simpl in E1, E2.
      by rewrite Hu, Hc, E1, E2. }
  destruct (eqb (strip line) _).
  { destruct inputs as [|line' inputs]; [done|].
    apply (Hstay [line; line']); [done|simpl; lia]. }
  destruct (eqb (strip line) _).
  { intros [= <- <-]. by exists [], [line]. }
  apply (Hstay [line]); [done|simpl; lia].
Qed.

(** X27. Whatever is typed in the cart menu, the state it leaves is the
    state after a sequence of [update_cart_item], [remove_from_cart] and
    [clear_cart] calls; the cart gains no line, users and current user are
    untouched, and the lines read are a prefix of the input. *)
Theorem handle_cart_management_only_cart_calls (inputs rest : list pystr) (g g' : globals) :
  handle_cart_management int_of_str inputs g = Some (g', rest) ->
  exists (calls : list cart_call) (used : list pystr),
    g' = run calls g
    /\ Forall (fun c => forall p, c <> AddToCart p) calls
    /\ sublist (map CartItem.product_id (cart g')) (map CartItem.product_id (cart g))
    /\ users g' = users g /\ current_user g' = current_user g
    /\ inputs = used ++ rest.
Proof.
  revert g.
  induction inputs as [inputs IH] using (induction_ltof1 _ (@length _)).
  unfold ltof in IH. intros g.
  assert (forall used0 inputs0 calls0,
            inputs = used0 ++ inputs0 -> (length inputs0 < length inputs)%nat ->
            Forall (fun c => forall p, c <> AddToCart p) calls0 ->
            handle_cart_management int_of_str inputs0 (run calls0 g) = Some (g', rest) ->
            exists calls used,
              g' = run calls g
              /\ Forall (fun c => forall p, c <> AddToCart p) calls
              /\ sublist (map CartItem.product_id (cart g')) (map CartItem.product_id (cart g))
              /\ users g' = users g /\ current_user g' = current_user g
              /\ inputs = used ++ rest) as Hstep.
  { intros used0 inputs0 calls0 E Hlt Hc0 H.
    destruct (IH inputs0 Hlt _ H) as (calls & used & -> & Hc & Hs & Hu & Hcu & ->).
    exists (calls0 ++ calls), (used0 ++ used). unfold run in *. rewrite foldl_app.
    split; [done|]. split; [by apply Forall_app|].
    assert (sublist (map CartItem.product_id (cart (foldl (fun g c => call c g) g calls0)))
                    (map CartItem.product_id (cart g))
            /\ users (foldl (fun g c => call c g) g calls0) = users g
            /\ current_user (foldl (fun g c => call c g) g calls0) = current_user g)
      as (Hs0 & Hu0 & Hcu0).
    { clear -Hc0. revert g. induction Hc0 as [|c calls0 Hc _ IH]; intros g; [done|]. simpl.
      destruct (IH (call c g)) as (? & -> & ->). destruct (call_session c g) as [-> ->].
      split; [|done]. etrans; [done|]. by apply call_cart_lines. }
    split; [by etrans|]. rewrite Hu, Hcu, Hu0, Hcu0, E, app_assoc. done. }
  destruct inputs as [|line inputs]; simpl.
  { destruct (view_cart g); [|done]. simpl.
    destruct (bool_decide _); [intros [= <- <-]; by exists [], []|].
    destruct (PyNum.is_zero _); [intros [= <- <-]; by exists [], []|done]. }
  destruct (view_cart g) as [total|]; [|done]. simpl.
  destruct (bool_decide _); [intros [= <- <-]; by exists [], []|].
  destruct (PyNum.is_zero total); [intros [= <- <-]; by exists [], []|].
  destruct (eqb (strip line) _).
  { destruct inputs as [|line1 inputs]; [done|].
    destruct (int_of_str line1) as [n|];
      [|apply (Hstep [line; line1] _ []); [done|simpl; lia|done]].
    destruct inputs as [|line2 inputs]; [done|].
    destruct (int_of_str line2) as [q|];
      [|apply (Hstep [line; line1; line2] _ []); [done|simpl; lia|done]].
    apply (Hstep [line; line1; line2] _ [UpdateCartItem (n - 1) q]); [done|simpl; lia|].
    by repeat constructor. }
  destruct (eqb (strip line) _).
  { destruct inputs as [|line1 inputs]; [done|].
    destruct (int_of_str line1) as [n|];
      [|apply (Hstep [line; line1] _ []); [done|simpl; lia|done]].
    apply (Hstep [line; line1] _ [RemoveFromCart (n - 1)]); [done|simpl; lia|].
    by repeat constructor. }
  destruct (eqb (strip line) _).
  { destruct inputs as [|line1 inputs]; [done|].
    destruct (eqb (lower line1) _);
      [|apply (Hstep [line; line1] _ []); [done|simpl; lia|done]].
    intros [= <- <-]. exists [ClearCart], [line; line1]. split; [done|].
    split; [by repeat constructor|]. split; [apply (call_cart_lines ClearCart); done|].
    destruct (call_session ClearCart g) as [E1 E2]. done. }
  destruct (eqb (strip line) _).
  { intros [= <- <-]. by exists [], [line]. }
  apply (Hstep [line] _ []); [done|simpl; lia|done].
Qed.

End CartMenus.

Lemma handle_search_results_only_adds_witness :
  exists g' rest,
    handle_search_results int_of_decimal [0%nat]
      [str "1"; str "1"; str "7"; str "1"; str "one"; str "3"; str "left"] ada_session
    = Some (g', rest)
    /\ rest = [str "left"]
    /\ map CartItem.quantity (cart g') = [1]
    /\ exists added used,
         g' = run (map AddToCart added) ada_session
         /\ Forall (fun p => Product.id p ∈ map Product.id (products ada_session)) added
         /\ users g' = users ada_session /\ current_user g' = current_user ada_session
         /\ [str "1"; str "1"; str "7"; str "1"; str "one"; str "3"; str "left"]
            = used ++ rest.
Proof.
  eexists _, _. split; [reflexivity|]. split; [reflexivity|]. split; [reflexivity|].
  exact (handle_search_results_only_adds int_of_decimal [0%nat]
           [str "1"; str "1"; str "7"; str "1"; str "one"; str "3"; str "left"] _
           ada_session _ eq_refl).
Defined.

Lemma handle_cart_management_only_cart_calls_witness :
  exists g' rest,
    handle_cart_management int_of_decimal
      [str "1"; str "1"; str "4"; str "2"; str "x"; str "2"; str "1"; str "4"] demo_session
    = Some (g', rest)
    /\ cart g' = [] /\ stock_of 1 (products g') = Some 10
    /\ exists calls used,
         g' = run calls demo_session
         /\ Forall (fun c => forall p, c <> AddToCart p) calls
         /\ sublist (map CartItem.product_id (cart g'))
                    (map CartItem.product_id (cart demo_session))
         /\ users g' = users demo_session /\ current_user g' = current_user demo_session
         /\ [str "1"; str "1"; str "4"; str "2"; str "x"; str "2"; str "1"; str "4"]
            = used ++ rest.
Proof.
  eexists _, _. split; [reflexivity|]. split; [reflexivity|]. split; [reflexivity|].
  exact (handle_cart_management_only_cart_calls int_of_decimal
           [str "1"; str "1"; str "4"; str "2"; str "x"; str "2"; str "1"; str "4"] _
           demo_session _ eq_refl).
Defined.
